(** * Inspection-item extraction from Vestas service reports

    A shallow embedding of [classes/vestas_pdf_extractor 1.py]
    ([extract_inspection_table], [calculate_compliance_ratio]) and of the
    header extraction of [classes/vestas_report.py] / [PDF_class.py],
    together with the properties the specification states about them.

    Python [str] values are modelled by [string]; a character is a code
    point below 256.  The regular expressions of the source are terms of a
    small regex syntax run by a backtracking matcher that follows the
    priorities of Python's [re] module (leftmost start, alternatives in
    order, greedy and lazy repetition). *)

From Stdlib Require Import Ascii String QArith Qpower Qabs Lqa DecimalString.
From Stdlib Require Import Floats.SpecFloat.
From stdpp Require Import base option list gmap strings.

#[local] Set Warnings "-clear-no-such-hyp".

Local Open Scope nat_scope.
Local Open Scope stdpp_scope.

(** ** Python string primitives *)

Module Py.

(** [str.isspace] on one character, which is also the class [\s] of
    [re] on [str] patterns. *)
Definition isspace (c : ascii) : bool :=
  let n := nat_of_ascii c in
  (9 <=? n) && (n <=? 13) || (28 <=? n) && (n <=? 32)
  || (n =? 133) || (n =? 160).

(** The class [\d] of [re]. *)
Definition isdecimal (c : ascii) : bool :=
  let n := nat_of_ascii c in (48 <=? n) && (n <=? 57).

(** The class [\w] of [re]: alphanumeric characters and the underscore. *)
Definition isword (c : ascii) : bool :=
  let n := nat_of_ascii c in
  isdecimal c || (65 <=? n) && (n <=? 90) || (97 <=? n) && (n <=? 122)
  || (n =? 95) || (n =? 170) || (n =? 178) || (n =? 179) || (n =? 181)
  || (n =? 185) || (n =? 186) || (188 <=? n) && (n <=? 190)
  || (192 <=? n) && (n <=? 214) || (216 <=? n) && (n <=? 246)
  || (248 <=? n) && (n <=? 255).

(** Truth value of a [str]: the empty string is false. *)
Definition truthy (s : string) : bool :=
  match s with "" => false | _ => true end.

(** Truth value of a variable holding [None] or a [str]. *)
Definition otruthy (o : option string) : bool :=
  match o with Some s => truthy s | None => false end.

Fixpoint lstrip (s : string) : string :=
  match s with
  | "" => ""
  | String c t => if isspace c then lstrip t else s
  end.

Fixpoint rstrip (s : string) : string :=
  match s with
  | "" => ""
  | String c t =>
      match rstrip t with
      | "" => if isspace c then "" else String c ""
      | r => String c r
      end
  end.

(** [s.strip()] *)
Definition strip (s : string) : string := rstrip (lstrip s).

(** [s.startswith(p)] *)
Fixpoint startswith (s p : string) : bool :=
  match p, s with
  | "", _ => true
  | String a p', String b s' => if Ascii.eqb a b then startswith s' p' else false
  | String _ _, "" => false
  end.

(** [s.endswith(p)]: [p] is [s] or a suffix of the tail of [s]. *)
Fixpoint endswith (s p : string) : bool :=
  String.eqb s p ||
  match s with
  | "" => false
  | String _ t => endswith t p
  end.

(** [sub in s] *)
Fixpoint contains (sub s : string) : bool :=
  startswith s sub ||
  match s with
  | "" => false
  | String _ t => contains sub t
  end.

(** [s[:n]] for [0 <= n] *)
Definition take (n : nat) (s : string) : string := String.substring 0 n s.

(** [s[:-n]] for [0 < n] *)
Definition drop_end (n : nat) (s : string) : string :=
  take (String.length s - n) s.

(** [s[a:b]] for [0 <= a <= b] *)
Definition slice (a b : nat) (s : string) : string :=
  String.substring a (b - a) s.

(** [s.split(sep, 1)] for a one-character [sep] that occurs in [s]:
    the text before the first occurrence and the text after it.  When
    [sep] does not occur the second component is [None] (Python returns a
    one-element list). *)
Fixpoint split1 (sep : ascii) (s : string) : string * option string :=
  match s with
  | "" => ("", None)
  | String c t =>
      if Ascii.eqb c sep then ("", Some t)
      else let '(a, b) := split1 sep t in (String c a, b)
  end.

(** [s.split(sep)] for a one-character [sep]. *)
Fixpoint split (sep : ascii) (s : string) : list string :=
  match s with
  | "" => [""]
  | String c t =>
      if Ascii.eqb c sep then "" :: split sep t
      else match split sep t with
           | w :: ws => String c w :: ws
           | [] => [String c ""]
           end
  end.

Definition upper_char (c : ascii) : ascii :=
  let n := nat_of_ascii c in
  if (97 <=? n) && (n <=? 122) then ascii_of_nat (n - 32) else c.

(** [s.upper()], on strings of ASCII characters (the source applies it to
    status tokens only). *)
Fixpoint upper (s : string) : string :=
  match s with
  | "" => ""
  | String c t => String (upper_char c) (upper t)
  end.

End Py.

(** ** Regular expressions *)

Module Re.

Inductive regex : Type :=
| Eps
| Cls (p : ascii → bool)
| Seq (a b : regex)
| Alt (a b : regex)
| Star (greedy : bool) (a : regex)
| Group (n : nat) (a : regex)
| Bol
| Eol.

(** Matcher state: offset in the subject, text still to read, and the
    spans of the groups closed so far (latest first). *)
Record mstate : Type := MState {
  ms_pos : nat;
  ms_rest : string;
  ms_caps : list (nat * (nat * nat))
}.

Definition cont : Type := mstate → option mstate.

Definition orelse {A} (x : option A) (y : unit → option A) : option A :=
  match x with Some r => Some r | None => y tt end.

(** Repetition.  An iteration must consume input, so [n] iterations
    suffice when [n] exceeds the length of the remaining text. *)
Fixpoint star_loop (body : mstate → cont → option mstate) (greedy : bool)
    (n : nat) (st : mstate) (k : cont) : option mstate :=
  match n with
  | 0 => k st
  | S n' =>
      let again (_ : unit) :=
        body st (λ st', if ms_pos st <? ms_pos st'
                        then star_loop body greedy n' st' k else None) in
      if greedy then orelse (again tt) (λ _, k st)
      else orelse (k st) again
  end.

Definition at_eol (s : string) : bool :=
  match s with
  | "" => true
  | String c "" => Ascii.eqb c "010"%char
  | _ => false
  end.

Fixpoint exec (r : regex) (st : mstate) (k : cont) : option mstate :=
  match r with
  | Eps => k st
  | Cls p =>
      match ms_rest st with
      | String c t =>
          if p c then k (MState (S (ms_pos st)) t (ms_caps st)) else None
      | "" => None
      end
  | Seq a b => exec a st (λ st', exec b st' k)
  | Alt a b => orelse (exec a st k) (λ _, exec b st k)
  | Star g a => star_loop (exec a) g (S (String.length (ms_rest st))) st k
  | Group n a =>
      exec a st (λ st',
        k (MState (ms_pos st') (ms_rest st')
             ((n, (ms_pos st, ms_pos st')) :: ms_caps st')))
  | Bol => if ms_pos st =? 0 then k st else None
  | Eol => if at_eol (ms_rest st) then k st else None
  end.

(** Derived forms. *)
Definition chr (c : ascii) : regex := Cls (Ascii.eqb c).
Fixpoint lit (s : string) : regex :=
  match s with
  | "" => Eps
  | String c t => Seq (chr c) (lit t)
  end.
Definition seqs (rs : list regex) : regex := foldr Seq Eps rs.
Definition alts (r : regex) (rs : list regex) : regex := foldl Alt r rs.
Definition plus (a : regex) : regex := Seq a (Star true a).
Definition plus_lazy (a : regex) : regex := Seq a (Star false a).
Definition star (a : regex) : regex := Star true a.
Definition star_lazy (a : regex) : regex := Star false a.
Definition opt (a : regex) : regex := Alt a Eps.

Definition digit : regex := Cls Py.isdecimal.
Definition space : regex := Cls Py.isspace.
Definition word : regex := Cls Py.isword.
(** [.] without DOTALL, and with it. *)
Definition dot : regex := Cls (λ c, negb (Ascii.eqb c "010"%char)).
Definition dot_all : regex := Cls (λ _, true).

(** A match object: the subject, the span of the whole match and the
    group spans. *)
Record match_obj : Type := Match {
  m_subject : string;
  m_start : nat;
  m_end : nat;
  m_caps : list (nat * (nat * nat))
}.

Fixpoint assoc (n : nat) (l : list (nat * (nat * nat))) : option (nat * nat) :=
  match l with
  | [] => None
  | (i, sp) :: l' => if i =? n then Some sp else assoc n l'
  end.

(** [m.group(n)]: [None] when the group took no part in the match. *)
Definition group (m : match_obj) (n : nat) : option string :=
  match assoc n (m_caps m) with
  | Some (a, b) => Some (Py.slice a b (m_subject m))
  | None => None
  end.

Definition run (r : regex) (subject : string) (i : nat) (rest : string)
    : option match_obj :=
  match exec r (MState i rest []) Some with
  | Some st => Some (Match subject i (ms_pos st) (ms_caps st))
  | None => None
  end.

(** [re.match(r, s)] *)
Definition rmatch (r : regex) (s : string) : option match_obj :=
  run r s 0 s.

Fixpoint search_from (r : regex) (subject : string) (i : nat) (rest : string)
    : option match_obj :=
  match run r subject i rest with
  | Some m => Some m
  | None =>
      match rest with
      | "" => None
      | String _ t => search_from r subject (S i) t
      end
  end.

(** [re.search(r, s)] *)
Definition search (r : regex) (s : string) : option match_obj :=
  search_from r s 0 s.

(** *** Declarative reading

    What a pattern matches, without the order in which the matcher tries
    the possibilities. *)

(** Zero or more steps of [R], each consuming input. *)
Inductive iter (R : mstate → mstate → Prop) : mstate → mstate → Prop :=
| iter_nil st : iter R st st
| iter_cons st st1 st2 :
    R st st1 → ms_pos st < ms_pos st1 → iter R st1 st2 → iter R st st2.

(** [den r st st']: [r] can take the matcher from [st] to [st']. *)
Fixpoint den (r : regex) (st st' : mstate) : Prop :=
  match r with
  | Eps => st' = st
  | Cls p =>
      ∃ c t, ms_rest st = String c t ∧ p c = true
             ∧ st' = MState (S (ms_pos st)) t (ms_caps st)
  | Seq a b => ∃ mid, den a st mid ∧ den b mid st'
  | Alt a b => den a st st' ∨ den b st st'
  | Star _ a => iter (den a) st st'
  | Group n a =>
      ∃ mid, den a st mid
             ∧ st' = MState (ms_pos mid) (ms_rest mid)
                       ((n, (ms_pos st, ms_pos mid)) :: ms_caps mid)
  | Bol => ms_pos st = 0 ∧ st' = st
  | Eol => at_eol (ms_rest st) = true ∧ st' = st
  end.

(** The numbers of the groups of a pattern. *)
Fixpoint groups (r : regex) : list nat :=
  match r with
  | Eps | Cls _ | Bol | Eol => []
  | Seq a b | Alt a b => groups a ++ groups b
  | Star _ a => groups a
  | Group n a => n :: groups a
  end.

End Re.

(** ** Exceptions *)

Inductive exn : Type :=
| TypeError
| AttributeError.

Inductive result (A : Type) : Type :=
| Ok (a : A)
| Raise (e : exn).
Arguments Ok {A} a.
Arguments Raise {A} e.

(** [result] is a monad; the [x ← c; k] notation of stdpp sequences
    statements that may raise. *)
Global Instance result_ret : MRet result := λ _ a, Ok a.
Global Instance result_bind : MBind result := λ _ _ f x,
  match x with
  | Ok a => f a
  | Raise e => Raise e
  end.

(** A [for] loop whose body may raise. *)
Fixpoint for_each {S A} (body : S → A → result S) (st : S) (l : list A)
    : result S :=
  match l with
  | [] => Ok st
  | a :: l' => st' ← body st a; for_each body st' l'
  end.

(** ** The inspection table *)

(** One entry of [inspection_items]. *)
Record Item : Type := MkItem {
  item_number : string;
  description : option string;
  comment : option string;
  status : string
}.

(** A page as the PDF library presents it: [extract_text()] and
    [extract_tables()]; a cell of a table is a [str] or [None]. *)
Abbreviation Row := (list (option string)).
Abbreviation Table := (list Row).

Record Page : Type := MkPage {
  extract_text : string;
  extract_tables : list Table
}.

(** The local variables of [extract_inspection_table] that live across
    iterations.  [status_var] is [None] while the local [status] is not yet
    bound. *)
Record State : Type := MkState {
  inspection_items : list Item;
  items_seen : gset string;
  current_item_number : option string;
  current_description : option string;
  current_comment : option string;
  status_var : option string
}.

Definition initial_state : State :=
  MkState [] ∅ None None None None.

Definition status_patterns : list string :=
  ["OK"; "NOT OK"; "NOK"; "N/A"; "Not Applicable"].

(** "(OK|NOT OK|NOK|N/A|Not Applicable)" *)
Definition status_alt : Re.regex :=
  Re.alts (Re.lit "OK")
    [Re.lit "NOT OK"; Re.lit "NOK"; Re.lit "N/A"; Re.lit "Not Applicable"].

(** [item_number_pattern], written with blanks between its pieces:
    ^ (\d+\.\d+) \s+ (.+?) (?: \s* (OK|NOT OK|NOK|N/A|Not Applicable) \s* )? $ *)
Definition item_number_pattern : Re.regex :=
  Re.seqs
    [Re.Bol;
     Re.Group 1 (Re.seqs [Re.plus Re.digit; Re.chr "."; Re.plus Re.digit]);
     Re.plus Re.space;
     Re.Group 2 (Re.plus_lazy Re.dot);
     Re.opt (Re.seqs [Re.star Re.space; Re.Group 3 status_alt;
                      Re.star Re.space]);
     Re.Eol].

(** "^\d+\.\d+" *)
Definition inspection_line_pattern : Re.regex :=
  Re.seqs [Re.Bol; Re.plus Re.digit; Re.chr "."; Re.plus Re.digit].

(** "(OK|NOT OK|NOK|N/A|Not Applicable)$" *)
Definition status_end_pattern : Re.regex :=
  Re.seqs [Re.Group 1 status_alt; Re.Eol].

(** "^\d+\.\d+$" *)
Definition cell_number_pattern : Re.regex :=
  Re.seqs [Re.Bol; Re.plus Re.digit; Re.chr "."; Re.plus Re.digit; Re.Eol].

(** "(OK|NOT OK|NOK|N/A|Not Applicable)", searched anywhere in a cell *)
Definition status_cell_pattern : Re.regex := Re.Group 1 status_alt.

(** The loop
    [for pattern in status_patterns:
         if text.endswith(pattern):
             text = text[:-len(pattern)].strip(); status = pattern.upper(); break]
    returning the text and the status found, if any. *)
Fixpoint strip_status_with (patterns : list string) (text : string)
    : string * option string :=
  match patterns with
  | [] => (text, None)
  | pattern :: rest =>
      if Py.endswith text pattern
      then (Py.strip (Py.drop_end (String.length pattern) text),
            Some (Py.upper pattern))
      else strip_status_with rest text
  end.

Definition strip_status : string → string * option string :=
  strip_status_with status_patterns.

(** [x.strip()], [x.upper()], ... on a variable that may hold [None]. *)
Definition attr (x : option string) : result string :=
  match x with
  | Some s => Ok s
  | None => Raise AttributeError
  end.

(** [x += " " + text] on a variable that may hold [None]. *)
Definition add_text (x : option string) (text : string) : result string :=
  match x with
  | Some s => Ok (s +:+ " " +:+ text)
  | None => Raise TypeError
  end.

(** Lines 109-116 and again 236-243: the open item is appended unless its
    number is already in [items_seen]. *)
Definition flush (st : State) : State :=
  match current_item_number st with
  | Some n =>
      if Py.truthy n && negb (bool_decide (n ∈ items_seen st)) then
        MkState
          (inspection_items st ++
             [MkItem n (current_description st) (current_comment st)
                (default "" (status_var st))])
          ({[ n ]} ∪ items_seen st)
          (current_item_number st) (current_description st)
          (current_comment st) (status_var st)
      else st
  | None => st
  end.

(** Lines 85-102: a line read while an item is open and that does not
    start with an item number. *)
Definition continuation_line (st : State) (line : string) : result State :=
  match Re.search status_end_pattern line with
  | Some status_match =>
      g ← attr (Re.group status_match 1);
      let status := Py.upper g in
      let additional_text :=
        Py.strip (Py.take (Re.m_start status_match) line) in
      if Py.otruthy (current_comment st) then
        c ← add_text (current_comment st) additional_text;
        mret (MkState (inspection_items st) (items_seen st)
                (current_item_number st) (current_description st) (Some c)
                (Some status))
      else
        d ← add_text (current_description st) additional_text;
        mret (MkState (inspection_items st) (items_seen st)
                (current_item_number st) (Some d) (current_comment st)
                (Some status))
  | None =>
      if Py.otruthy (current_comment st) then
        c ← add_text (current_comment st) line;
        mret (MkState (inspection_items st) (items_seen st)
                (current_item_number st) (current_description st) (Some c)
                (status_var st))
      else
        d ← add_text (current_description st) line;
        mret (MkState (inspection_items st) (items_seen st)
                (current_item_number st) (Some d) (current_comment st)
                (status_var st))
  end.

(** Lines 132-146: the text after the first colon is the comment; a status
    token ending the comment is taken as the status when none was found. *)
Definition split_comment (description status : string)
    : string * option string * string :=
  if Py.contains ":" description then
    let '(before, after) := Py.split1 ":" description in
    let comment_text := Py.strip <$> after in
    match comment_text with
    | Some c =>
        if Py.truthy c then
          if Py.truthy status then (Py.strip before, Some c, status)
          else
            match strip_status c with
            | (c', Some s) => (Py.strip before, Some c', s)
            | (_, None) => (Py.strip before, Some c, status)
            end
        else (Py.strip before, None, status)
    | None => (Py.strip before, None, status)
    end
  else (description, None, status).

(** Lines 119-146: number, description, comment and status of a line that
    [item_number_pattern] matched. *)
Definition parse_item (m : Re.match_obj)
    : result (string * string * option string * string) :=
  g1 ← attr (Re.group m 1);
  g2 ← attr (Re.group m 2);
  let item_number := Py.strip g1 in
  let description := Py.strip g2 in
  let status :=
    match Re.group m 3 with
    | Some g3 => if Py.truthy g3 then Py.upper g3 else ""
    | None => ""
    end in
  let '(description, status) :=
    if Py.truthy status then (description, status)
    else match strip_status description with
         | (d, Some s) => (d, s)
         | (d, None) => (d, status)
         end in
  let '(description, comment, status) := split_comment description status in
  mret (item_number, description, comment, status).

(** Lines 156-162: the body of the loop over [inspection_items] that merges
    a line into the entries carrying its number. *)
Definition merge_item (num desc : string) (cmt : option string) (item : Item)
    : result Item :=
  if String.eqb (item_number item) num then
    d ← add_text (description item) desc;
    let c :=
      match cmt with
      | Some c1 =>
          if Py.truthy c1 then
            match comment item with
            | Some c0 =>
                if Py.truthy c0 then Some (c0 +:+ " " +:+ c1) else Some c1
            | None => Some c1
            end
          else comment item
      | None => comment item
      end in
    mret (MkItem (item_number item) (Some d) c (status item))
  else mret item.

(** [for item in inspection_items: ...] with the items updated in place. *)
Fixpoint merge_items (num desc : string) (cmt : option string)
    (items : list Item) : result (list Item) :=
  match items with
  | [] => Ok []
  | item :: rest =>
      item' ← merge_item num desc cmt item;
      rest' ← merge_items num desc cmt rest;
      mret (item' :: rest')
  end.

(** Lines 104-171: a line that is not a continuation. *)
Definition item_line (st : State) (line : string) : result State :=
  match Re.rmatch item_number_pattern line with
  | None => Ok st
  | Some item_number_match =>
      let st := flush st in
      '(num, desc, cmt, sts) ← parse_item item_number_match;
      if bool_decide (num ∈ items_seen st) then
        items ← merge_items num desc cmt (inspection_items st);
        mret (MkState items (items_seen st) (Some num) (Some desc) cmt
                (Some sts))
      else if Py.truthy sts then
        mret (MkState (inspection_items st ++ [MkItem num (Some desc) cmt sts])
                ({[ num ]} ∪ items_seen st) (Some num) (Some desc) cmt
                (Some sts))
      else
        mret (MkState (inspection_items st) (items_seen st) (Some num)
                (Some desc) cmt (Some sts))
  end.

Definition is_continuation (st : State) (line : string) : bool :=
  Py.otruthy (current_item_number st)
  && negb (bool_decide (is_Some (Re.rmatch inspection_line_pattern line))).

(** Lines 75-171: the body of the loop over the lines of a page. *)
Definition text_line (st : State) (line : string) : result State :=
  if negb (Py.truthy (Py.strip line)) then Ok st
  else if Py.contains "Service Inspection Form" line
          || Py.contains "0. DMS:" line then Ok st
  else if is_continuation st line then continuation_line st line
  else item_line st line.

(** Lines 71-75: the first pass, over the text of every page. *)
Definition text_page (st : State) (page : Page) : result State :=
  for_each text_line st (Py.split "010" (extract_text page)).

Definition text_pass (st : State) (pdf : list Page) : result State :=
  for_each text_page st pdf.

(** Lines 216-223: the first status token found in the cells from the
    third one on. *)
Fixpoint status_from_cells (cells : list (option string)) : result string :=
  match cells with
  | [] => Ok ""
  | cell :: rest =>
      if Py.otruthy cell then
        match Re.search status_cell_pattern (default "" cell) with
        | Some status_match =>
            g ← attr (Re.group status_match 1);
            mret (Py.upper g)
        | None => status_from_cells rest
        end
      else status_from_cells rest
  end.

(** Lines 191-205: the colon rule of the table pass.  The status found at
    the end of the comment is assigned to [status] and then overwritten by
    line 208, so only the description and the comment are returned. *)
Definition table_split_comment (description : option string)
    : option string * option string :=
  match description with
  | Some d =>
      if Py.truthy d && Py.contains ":" d then
        let '(before, after) := Py.split1 ":" d in
        let comment_text := Py.strip <$> after in
        match comment_text with
        | Some c =>
            if Py.truthy c
            then (Some (Py.strip before), Some (strip_status c).1)
            else (Some (Py.strip before), None)
        | None => (Some (Py.strip before), None)
        end
      else (description, None)
  | None => (None, None)
  end.

(** Lines 180-233: the body of the loop over the rows of a table. *)
Definition table_row (st : State) (row : Row) : result State :=
  match row with
  | first :: second :: others =>
      if negb (Py.otruthy first) then Ok st
      else
        let first_cell := Py.strip (default "" first) in
        match Re.rmatch cell_number_pattern first_cell with
        | None => Ok st
        | Some _ =>
            let num := first_cell in
            let '(desc, cmt) := table_split_comment second in
            d ← attr desc;
            let '(d, found) := strip_status d in
            sts ← match found with
                  | Some s => Ok s
                  | None => status_from_cells others
                  end;
            if bool_decide (num ∈ items_seen st) then
              mret (MkState (inspection_items st) (items_seen st)
                      (current_item_number st) (current_description st)
                      (current_comment st) (Some sts))
            else
              mret (MkState (inspection_items st ++ [MkItem num (Some d) cmt sts])
                      ({[ num ]} ∪ items_seen st)
                      (current_item_number st) (current_description st)
                      (current_comment st) (Some sts))
        end
  | _ => Ok st
  end.

(** Lines 174-180: the second pass, over the tables of every page. *)
Definition table_page (st : State) (page : Page) : result State :=
  for_each (for_each table_row) st (extract_tables page).

Definition table_pass (st : State) (pdf : list Page) : result State :=
  for_each table_page st pdf.

(** [extract_inspection_table(pdf)], with [pdf.pages] as argument. *)
Definition extract_inspection_table (pdf : list Page) : result (list Item) :=
  st ← text_pass initial_state pdf;
  st ← table_pass st pdf;
  mret (inspection_items (flush st)).

(** ** Python numbers *)

(** A Python [float] is an IEEE-754 binary64 number: 53 bits of precision,
    exponents below 1024.  Its operations are those of the Standard
    Library's specification of binary floating-point arithmetic
    ([SpecFloat]), which round to nearest, ties to even. *)
Definition float_prec : Z := 53.
Definition float_emax : Z := 1024.

(** An [int] as an operand of a floating-point operation: the integer
    itself as mantissa, with exponent 0. *)
Definition int_operand (n : Z) : spec_float :=
  match n with
  | Z0 => S754_zero false
  | Zpos p => S754_finite false p 0
  | Zneg p => S754_finite true p 0
  end.

(** [a / b] on two [int]s with [b] not 0: the quotient of the two
    integers, rounded once.  The division takes the integers themselves as
    mantissas, so that the rounding is that of the exact quotient, also for
    integers that are no [float]s. *)
Definition int_truediv (a b : Z) : spec_float :=
  SFdiv float_prec float_emax (int_operand a) (int_operand b).

(** [float(n)] *)
Definition float_of_int (n : Z) : spec_float :=
  binary_normalize float_prec float_emax n 0 false.

(** [x * n] on a [float] and an [int]: [n] is converted to [float]. *)
Definition float_mul_int (x : spec_float) (n : Z) : spec_float :=
  SFmul float_prec float_emax x (float_of_int n).

(** The number a finite float stands for; [None] for infinities and NaN. *)
Definition float_value (x : spec_float) : option Q :=
  match x with
  | S754_zero _ => Some 0%Q
  | S754_finite s m e =>
      let z := if s then Zneg m else Zpos m in
      Some (inject_Z z * 2 ^ e)%Q
  | _ => None
  end.

(** A number as [calculate_compliance_ratio] returns it: an [int] or a
    [float]. *)
Inductive pynum : Type :=
| PyInt (n : Z)
| PyFloat (x : spec_float).

Definition num_value (r : pynum) : option Q :=
  match r with
  | PyInt n => Some (inject_Z n)
  | PyFloat x => float_value x
  end.

(** The number [Bm * 2 ^ Be] as a mantissa at the exponent [e]. *)
Definition mantissa_at (Bm Be e : Z) : Z := (Bm * 2 ^ (Be - e))%Z.

(** The shifted mantissa [mrs], with what its two flags say was shifted
    out, stands for a number that is at most [K]. *)
Definition within (mrs : shr_record) (K : Z) : Prop :=
  (0 ≤ shr_m mrs ∧ shr_m mrs ≤ K
   ∧ (shr_r mrs || shr_s mrs = true → shr_m mrs + 1 ≤ K))%Z.

(** [y] lies where the shifted mantissa [mrs] and its two flags say: at
    the mantissa, below the middle of the next unit, at the middle, or
    above it. *)
Definition located (mrs : shr_record) (y : Q) : Prop :=
  let m := inject_Z (shr_m mrs) in
  match shr_r mrs, shr_s mrs with
  | false, false => (y == m)%Q
  | false, true => (m < y ∧ y < m + (1 # 2))%Q
  | true, false => (y == m + (1 # 2))%Q
  | true, true => (m + (1 # 2) < y ∧ y < m + 1)%Q
  end.

(** ** Compliance ratio *)

(** [if item['status']] *)
Definition truthy_status (item : Item) : bool := Py.truthy (status item).

(** [calculate_compliance_ratio(inspection_items)]: [ok_items] and
    [total_items] are [int]s, [ratio] is the [float]
    [(ok_items / total_items) * 100], or the [int] 0. *)
Definition calculate_compliance_ratio (inspection_items : list Item)
    : nat * nat * pynum :=
  match inspection_items with
  | [] => (0, 0, PyInt 0)
  | _ =>
      let items_with_status := filter (λ item, truthy_status item = true)
                                 inspection_items in
      let total_items := length items_with_status in
      let ok_items :=
        length (filter (λ item, status item = "OK") items_with_status) in
      let ratio :=
        if 0 <? total_items
        then PyFloat (float_mul_int
                        (int_truediv (Z.of_nat ok_items)
                           (Z.of_nat total_items)) 100)
        else PyInt 0 in
      (ok_items, total_items, ratio)
  end.

(** ** Header informations *)

(** A value of the header dictionary: [None], a [str] or a list of [str]. *)
Inductive hvalue : Type :=
| HNone
| HStr (s : string)
| HList (l : list string).

Definition hstr (o : option string) : hvalue :=
  match o with Some s => HStr s | None => HNone end.

(** [re.search(r, text).group(1) if re.search(r, text) else None] *)
Definition search_group1 (r : Re.regex) (text : string) : option string :=
  m ← Re.search r text; Re.group m 1.

(** "Turbine No\./Id:\s*(\d+)" *)
Definition turbine_number_re : Re.regex :=
  Re.seqs [Re.lit "Turbine No./Id:"; Re.star Re.space;
           Re.Group 1 (Re.plus Re.digit)].
(** "Service Order:\s*(\d+)" *)
Definition service_order_re : Re.regex :=
  Re.seqs [Re.lit "Service Order:"; Re.star Re.space;
           Re.Group 1 (Re.plus Re.digit)].
(** "PAD No\.\s*([^\n]+)" *)
Definition pad_no_re : Re.regex :=
  Re.seqs [Re.lit "PAD No."; Re.star Re.space; Re.Group 1 (Re.plus Re.dot)].
(** "Turbine Type:\s*([\w\d]+)" *)
Definition turbine_type_re : Re.regex :=
  Re.seqs [Re.lit "Turbine Type:"; Re.star Re.space;
           Re.Group 1 (Re.plus (Re.Cls (λ c, Py.isword c || Py.isdecimal c)))].
Definition date_char (c : ascii) : bool := Py.isdecimal c || Ascii.eqb c ".".
(** "Start Date:\s*([\d\.]+)" *)
Definition start_date_re : Re.regex :=
  Re.seqs [Re.lit "Start Date:"; Re.star Re.space;
           Re.Group 1 (Re.plus (Re.Cls date_char))].
(** "End Date:\s*([\d\.]+)" *)
Definition end_date_re : Re.regex :=
  Re.seqs [Re.lit "End Date:"; Re.star Re.space;
           Re.Group 1 (Re.plus (Re.Cls date_char))].
(** "Date & Time of Receipt\s*([\d\.\s:]+)" *)
Definition receipt_re : Re.regex :=
  Re.seqs [Re.lit "Date & Time of Receipt"; Re.star Re.space;
           Re.Group 1 (Re.plus (Re.Cls (λ c,
             date_char c || Py.isspace c || Ascii.eqb c ":")))].
(** "Reason for Call Out:\s*([^\n]+)" *)
Definition reason_re : Re.regex :=
  Re.seqs [Re.lit "Reason for Call Out:"; Re.star Re.space;
           Re.Group 1 (Re.plus Re.dot)].
(** "Customer's Address:\s*(.*?)Site's Address:" with [re.DOTALL] *)
Definition customer_address_re : Re.regex :=
  Re.seqs [Re.lit "Customer's Address:"; Re.star Re.space;
           Re.Group 1 (Re.star_lazy Re.dot_all); Re.lit "Site's Address:"].

(** [[line.strip() for line in text.split('\n') if line.strip()]] *)
Definition stripped_lines (text : string) : list string :=
  filter (λ l, Py.truthy l = true) (Py.strip <$> Py.split "010" text).

(** [get_header_informations] of [Vestas_Report] and
    [_get_header_informations] of [PDF], which have the same body, applied
    to the text of the first page. *)
Definition get_header_informations (first_page : string)
    : gmap string hvalue :=
  let turbine_number := search_group1 turbine_number_re first_page in
  let service_order := search_group1 service_order_re first_page in
  let pad_no := Py.strip <$> search_group1 pad_no_re first_page in
  let turbine_type := search_group1 turbine_type_re first_page in
  let start_date := search_group1 start_date_re first_page in
  let end_date := search_group1 end_date_re first_page in
  let date_and_time_of_receipt :=
    Py.strip <$> search_group1 receipt_re first_page in
  let reason_for_call_out := search_group1 reason_re first_page in
  let customer_address :=
    match search_group1 customer_address_re first_page with
    | Some g => HList (stripped_lines g)
    | None => HNone
    end in
  <["turbine_number" := hstr turbine_number]>
  (<["service_order" := hstr service_order]>
  (<["pad_no" := hstr pad_no]>
  (<["turbine_type" := hstr turbine_type]>
  (<["start_date" := hstr start_date]>
  (<["customer_address" := customer_address]>
  (<["date_and_time_of_receipt" := hstr date_and_time_of_receipt]>
  (<["reason_for_call_out" := hstr reason_for_call_out]> ∅))))))).

(** The field enumeration of the specification's Metadata. *)
Definition metadata_fields : list string :=
  ["turbine_number"; "service_order"; "pad_no"; "turbine_type";
   "start_date"; "end_date"; "date_and_time_of_receipt";
   "reason_for_call_out"; "customer_address"].

(** ** Invariants and the order of first detection *)

Definition numbers (items : list Item) : list string := item_number <$> items.

(** What holds of the state between two iterations of either pass. *)
Record wf (st : State) : Prop := MkWf {
  wf_nodup : NoDup (numbers (inspection_items st));
  wf_seen : ∀ n, n ∈ items_seen st ↔ n ∈ numbers (inspection_items st);
  wf_desc : Forall (λ item, is_Some (description item)) (inspection_items st);
  wf_open :
    Py.otruthy (current_item_number st) = true →
    is_Some (current_description st)
}.

(** The number of the open item while it is not committed. *)
Definition pending (st : State) : list string :=
  match current_item_number st with
  | Some n =>
      if Py.truthy n && negb (bool_decide (n ∈ items_seen st)) then [n] else []
  | None => []
  end.

(** The lines of the text pass, in reading order. *)
Definition text_lines (pdf : list Page) : list string :=
  page ← pdf; Py.split "010" (extract_text page).

(** The item number that [item_number_pattern] finds in a line. *)
Definition shown (line : string) : option string :=
  m ← Re.rmatch item_number_pattern line; Py.strip <$> Re.group m 1.

(** The item number a line of text shows, if it shows one: the line is not
    blank, carries no form marker and [item_number_pattern] matches it. *)
Definition detected_number (line : string) : option string :=
  if negb (Py.truthy (Py.strip line)) then None
  else if Py.contains "Service Inspection Form" line
          || Py.contains "0. DMS:" line then None
  else shown line.

(** A number joins the first-seen order the first time it is detected. *)
Definition see (order : list string) (detection : option string)
    : list string :=
  match detection with
  | Some n => if bool_decide (n ∈ order) then order else order ++ [n]
  | None => order
  end.

Definition first_seen (lines : list string) : list string :=
  foldl see [] (detected_number <$> lines).

(** [st] is [st1] after some rows of the table pass: the items [tbl] were
    appended, none of them with a number [st1] had seen, and the open item
    is untouched. *)
Definition recovered (st1 st : State) (tbl : list Item) : Prop :=
  inspection_items st = inspection_items st1 ++ tbl
  ∧ Forall (λ item, item_number item ∉ items_seen st1) tbl
  ∧ items_seen st1 ⊆ items_seen st
  ∧ current_item_number st = current_item_number st1
  ∧ current_description st = current_description st1
  ∧ current_comment st = current_comment st1.

(** The merge of lines 154-162 keeps the number and the status of every
    entry; it leaves an entry as it is or appends to its description, and
    its comment is kept, appended to, or set when there was none. *)
Definition appended (desc : string) (old new : Item) : Prop :=
  item_number new = item_number old ∧ status new = status old
  ∧ (new = old
     ∨ ∃ d, description old = Some d
            ∧ description new = Some (d +:+ " " +:+ desc)).

(** ** The text a pattern reads *)

(** Concatenations of words of [L]. *)
Inductive star_lang (L : string → Prop) : string → Prop :=
| star_lang_nil : star_lang L ""
| star_lang_app w1 w2 : L w1 → star_lang L w2 → star_lang L (w1 +:+ w2).

(** [reads r w]: [w] is a text that [r] can consume; anchors consume
    nothing and groups are transparent. *)
Fixpoint reads (r : Re.regex) (w : string) : Prop :=
  match r with
  | Re.Eps | Re.Bol | Re.Eol => w = ""
  | Re.Cls p => ∃ c, w = String c "" ∧ p c = true
  | Re.Seq a b => ∃ w1 w2, w = w1 +:+ w2 ∧ reads a w1 ∧ reads b w2
  | Re.Alt a b => reads a w ∨ reads b w
  | Re.Star _ a => star_lang (reads a) w
  | Re.Group _ a => reads a w
  end.

(** The matcher state [st] is at its offset in [subject]. *)
Definition on_subject (subject : string) (st : Re.mstate) : Prop :=
  ∃ pre, subject = pre +:+ Re.ms_rest st ∧ String.length pre = Re.ms_pos st.

(** Every character of [s] satisfies [p]. *)
Fixpoint all_chars (p : ascii → bool) (s : string) : bool :=
  match s with
  | "" => true
  | String c t => p c && all_chars p t
  end.

(** [c] is not white space. *)
Definition nospace (c : ascii) : bool := negb (Py.isspace c).

(** A non-empty string of decimal digits. *)
Definition digits (s : string) : Prop :=
  s ≠ "" ∧ all_chars Py.isdecimal s = true.

(** The form of an item number: digits, a dot, digits. *)
Definition dotted_number (s : string) : Prop :=
  ∃ a b, s = a +:+ "." +:+ b ∧ digits a ∧ digits b.

(** The values [status] takes: empty, or a status token in upper case. *)
Definition status_values : list string :=
  [""; "OK"; "NOT OK"; "NOK"; "N/A"; "NOT APPLICABLE"].

(** What every entry of [inspection_items] looks like. *)
Definition good_item (item : Item) : Prop :=
  dotted_number (item_number item)
  ∧ is_Some (description item)
  ∧ status item ∈ status_values.

(** The state between two iterations, as to the form of its values. *)
Record shaped (st : State) : Prop := MkShaped {
  sh_items : Forall good_item (inspection_items st);
  sh_current : ∀ n, current_item_number st = Some n →
                 dotted_number n ∧ is_Some (current_description st);
  sh_status : ∀ s, status_var st = Some s → s ∈ status_values
}.

(** The rows of the table pass, in reading order. *)
Definition all_rows (pdf : list Page) : list Row :=
  page ← pdf; table ← extract_tables page; table.

(** A row on which line 211 calls [endswith] on [None]: at least two
    cells, an item number in the first and [None] in the second. *)
Definition raising_row (row : Row) : bool :=
  match row with
  | first :: None :: _ =>
      Py.otruthy first
      && bool_decide (is_Some (Re.rmatch cell_number_pattern
                                 (Py.strip (default "" first))))
  | _ => false
  end.

(** A line the text pass does not skip: not blank and without a form
    marker. *)
Definition significant (line : string) : bool :=
  Py.truthy (Py.strip line)
  && negb (Py.contains "Service Inspection Form" line
           || Py.contains "0. DMS:" line).

Definition significant_lines (pdf : list Page) : list string :=
  filter (λ line, significant line = true) (text_lines pdf).

(** ** Detections of an item number *)

(** What an opening line of the text carries, read from the line alone:
    number, description, comment and status.  [None] for a line the text
    pass does not take as the opening line of an item. *)
Definition parsed (line : string)
    : option (string * string * option string * string) :=
  if negb (Py.truthy (Py.strip line)) then None
  else if Py.contains "Service Inspection Form" line
          || Py.contains "0. DMS:" line then None
  else match Re.rmatch item_number_pattern line with
       | Some m =>
           match parse_item m with
           | Ok r => Some r
           | Raise _ => None
           end
       | None => None
       end.

(** The item number a table row shows: the row has at least two cells and
    its first cell, stripped, is an item number. *)
Definition row_number (row : Row) : option string :=
  match row with
  | first :: _ :: _ =>
      if Py.otruthy first then
        let first_cell := Py.strip (default "" first) in
        if bool_decide (is_Some (Re.rmatch cell_number_pattern first_cell))
        then Some first_cell
        else None
      else None
  | _ => None
  end.

(** A text that is there and not empty. *)
Definition nonempty (o : option string) : option string :=
  match o with
  | Some s => if Py.truthy s then Some s else None
  | None => None
  end.

(** An entry after its number is detected again in the text, on a line
    with the description [desc] and the comment [cmt]: [desc] is appended
    to the description after a blank; a comment of the line is appended to
    the comment of the entry after a blank, or becomes its comment when the
    entry had none; number and status stay as they are. *)
Definition detected_again (desc : string) (cmt : option string) (item : Item)
    : Item :=
  MkItem (item_number item)
    ((λ d, d +:+ " " +:+ desc) <$> description item)
    (match nonempty cmt, nonempty (comment item) with
     | Some c, Some c0 => Some (c0 +:+ " " +:+ c)
     | Some c, None => Some c
     | None, _ => comment item
     end)
    (status item).

(** The collection after [num] is detected again: the entry of [num]
    changes, every other entry stays. *)
Definition update_entry (num desc : string) (cmt : option string)
    (item : Item) : Item :=
  if decide (item_number item = num) then detected_again desc cmt item
  else item.

(** What a line read later does to the committed entry of [num]: only an
    opening line that shows [num] again changes it, and by nothing but its
    own description and comment. *)
Definition later_line (num : string) (entry : Item) (line : string) : Item :=
  match parsed line with
  | Some (n, desc, cmt, _) =>
      if decide (n = num) then detected_again desc cmt entry else entry
  | None => entry
  end.

(** ** Metadata of the extractor script *)

(** A Python [dict] with [str] keys, in insertion order. *)
Abbreviation dict V := (list (string * V)).

(** [key in d] *)
Definition dict_in {V} (key : string) (d : dict V) : bool :=
  bool_decide (key ∈ d.*1).

(** [d.get(key)] *)
Fixpoint dict_get {V} (key : string) (d : dict V) : option V :=
  match d with
  | [] => None
  | (k, v) :: d' => if String.eqb k key then Some v else dict_get key d'
  end.

(** [d[key] = v]: the value of an existing key is replaced in place, a new
    key goes to the end. *)
Fixpoint dict_set {V} (key : string) (v : V) (d : dict V) : dict V :=
  match d with
  | [] => [(key, v)]
  | (k, v0) :: d' =>
      if String.eqb k key then (k, v) :: d' else (k, v0) :: dict_set key v d'
  end.

(** [m.group(0)] *)
Definition group0 (m : Re.match_obj) : string :=
  Py.slice (Re.m_start m) (Re.m_end m) (Re.m_subject m).

(** [f"{x}"] for a value that is a [str] or [None]. *)
Definition format_value (x : option string) : string := default "None" x.

(** "Turbine No\./Id:?\s*(\d+)" *)
Definition md_turbine_re : Re.regex :=
  Re.seqs [Re.lit "Turbine No./Id"; Re.opt (Re.chr ":"); Re.star Re.space;
           Re.Group 1 (Re.plus Re.digit)].
(** "Service Order:?\s*(\d+)" *)
Definition md_service_re : Re.regex :=
  Re.seqs [Re.lit "Service Order"; Re.opt (Re.chr ":"); Re.star Re.space;
           Re.Group 1 (Re.plus Re.digit)].
(** "Check ICPE Electrical (V\d+)" *)
Definition md_reason_re : Re.regex :=
  Re.seqs [Re.lit "Check ICPE Electrical ";
           Re.Group 1 (Re.seqs [Re.chr "V"; Re.plus Re.digit])].
(** "Check ICPE Electrical V\d+-\w+" *)
Definition md_form_title_re : Re.regex :=
  Re.seqs [Re.lit "Check ICPE Electrical V"; Re.plus Re.digit; Re.chr "-";
           Re.plus Re.word].

(** Lines 25-27: the text of the first two pages, each followed by a
    newline. *)
Definition metadata_text (pdf : list Page) : string :=
  foldl (λ text page, text +:+ extract_text page +:+ String "010" "") ""
    (take (min 2 (length pdf)) pdf).

(** [extract_metadata(pdf)], with [pdf.pages] as argument. *)
Definition extract_metadata (pdf : list Page) : dict (option string) :=
  let metadata : dict (option string) := [] in
  let text := metadata_text pdf in
  let metadata :=
    match Re.search md_turbine_re text with
    | Some turbine_number_match =>
        dict_set "turbine_number" (Re.group turbine_number_match 1) metadata
    | None => metadata
    end in
  let metadata :=
    match Re.search md_service_re text with
    | Some service_order_match =>
        dict_set "service_order" (Re.group service_order_match 1) metadata
    | None => metadata
    end in
  let metadata :=
    match Re.search md_reason_re text with
    | Some reason_match =>
        let turbine_type := Re.group reason_match 1 in
        dict_set "reason_for_call_out"
          (Some ("Check ICPE Electrical " +:+ format_value turbine_type))
          metadata
    | None => metadata
    end in
  match Re.search md_form_title_re text with
  | Some form_title_match =>
      dict_set "form_title" (Some (group0 form_title_match)) metadata
  | None =>
      if dict_in "reason_for_call_out" metadata then
        match dict_get "reason_for_call_out" metadata with
        | Some v => dict_set "form_title" v metadata
        | None => metadata
        end
      else metadata
  end.

(** ** The rows of the CSV file *)

(** A cell handed to [csv.writer]: a [str] or [None]. *)
Abbreviation Cell := (option string).

(** [c.isdigit()] on one character. *)
Definition isdigit_char (c : ascii) : bool :=
  let n := nat_of_ascii c in
  (48 <=? n) && (n <=? 57) || (n =? 178) || (n =? 179) || (n =? 185).

(** [item_number.split('.')[0]] *)
Definition section_of (item_number : string) : string :=
  match Py.split "." item_number with
  | s :: _ => s
  | [] => ""
  end.

(** [d and not d[0].isdigit()] for a description [d]. *)
Definition titles_section (d : option string) : bool :=
  match d with
  | Some (String c _) => negb (isdigit_char c)
  | _ => false
  end.

(** Lines 292-296: the description of the first item of the section that
    can serve as title, or the empty string. *)
Fixpoint section_title (section_number : string) (items : list Item)
    : Cell :=
  match items with
  | [] => Some ""
  | item2 :: rest =>
      if Py.startswith (item_number item2) (section_number +:+ ".")
         && titles_section (description item2)
      then description item2
      else section_title section_number rest
  end.

Definition header_row (all : list Item) (section_number : string)
    : list Cell :=
  [Some section_number; section_title section_number all;
   Some ""; Some ""; Some ""].

Definition item_row (item : Item) : list Cell :=
  [Some (item_number item); description item; comment item;
   Some (status item); Some ""].

(** Lines 283-307: the rows written for the items still to come, with
    [current_section] as the loop has left it. *)
Fixpoint item_rows (all : list Item) (current_section : option string)
    (items : list Item) : list (list Cell) :=
  match items with
  | [] => []
  | item :: rest =>
      let section_number := section_of (item_number item) in
      if bool_decide (Some section_number ≠ current_section) then
        header_row all section_number :: item_row item
        :: item_rows all (Some section_number) rest
      else item_row item :: item_rows all current_section rest
  end.

(** Lines 275-278: one row per metadata entry, but for an empty key. *)
Definition metadata_rows (metadata : dict (option string))
    : list (list Cell) :=
  (λ kv, [Some kv.1; kv.2; Some ""; Some ""; Some ""])
    <$> filter (λ kv, kv.1 ≠ "") metadata.

(** [save_to_csv]: the rows handed to [writer.writerow], in order. *)
Definition save_to_csv (metadata : dict (option string))
    (inspection_items : list Item) : list (list Cell) :=
  [[Some "0"; Some "1"; Some "2"; Some "3"; Some "4"];
   [Some ""; Some ""; Some ""; Some ""; Some ""];
   [Some "Service Inspection Form"; Some ""; Some ""; Some ""; Some ""]]
  ++ metadata_rows metadata
  ++ item_rows inspection_items None inspection_items.

(** ** Service reports

    [classes/service_report.py], [classes/vestas_report.py] and
    [PDF_class.py].  The PDF libraries are parameters: [fitz_open] gives the
    texts of the pages of a file, a reader [read] gives the tables
    [camelot.read_pdf] finds on a page (numbered from 1) with the keyword
    arguments of the call, [df] is the [DataFrame] of a table and [concat]
    is [pd.concat(..., ignore_index=True)]. *)

Inductive report_error : Type :=
| ValueError (msg : string)
| IndexError
| NoDocAttribute.

Inductive outcome (A : Type) : Type :=
| Return (a : A)
| Throw (e : report_error).
Arguments Return {A} a.
Arguments Throw {A} e.

(** [str(n)] *)
Definition str_nat (n : nat) : string := NilEmpty.string_of_uint (Nat.to_uint n).

(** An instance of [_Service_Report].  [doc] is [None] while the attribute
    is not set, [Some None] when it holds [None], [Some (Some texts)] when
    it holds an open document. *)
Record Service_Report : Type := MkReport {
  file_path : string;
  doc : option (option (list string))
}.

(** [_Service_Report(file_path)] *)
Definition new_report (path : string) : Service_Report := MkReport path None.

Definition _open (fitz_open : string → list string) (self : Service_Report)
    : Service_Report :=
  MkReport (file_path self) (Some (Some (fitz_open (file_path self)))).

Definition _close (self : Service_Report) : Service_Report * outcome unit :=
  match doc self with
  | None => (self, Throw NoDocAttribute)
  | Some None => (self, Return tt)
  | Some (Some _) => (MkReport (file_path self) (Some None), Return tt)
  end.

(** [_get_page(page_number)] for [0 <= page_number]. *)
Definition _get_page (fitz_open : string → list string)
    (self : Service_Report) (page_number : nat)
    : Service_Report * outcome string :=
  let self := _open fitz_open self in
  match doc self with
  | Some (Some texts) =>
      match texts !! page_number with
      | Some page =>
          match _close self with
          | (self, Return _) => (self, Return page)
          | (self, Throw e) => (self, Throw e)
          end
      | None => (self, Throw IndexError)
      end
  | _ => (self, Throw NoDocAttribute) (* not reached: [_open] sets [doc] *)
  end.

(** The loop of [find_starting_page] and of [_get_sif_page]: the number of
    the first page from [page_num] on whose text has the marker. *)
Fixpoint first_form_page (page_num : nat) (texts : list string) : option nat :=
  match texts with
  | [] => None
  | page_text :: rest =>
      if Py.contains "Service Inspection Form" page_text then Some page_num
      else first_form_page (S page_num) rest
  end.

(** [Vestas_Report.find_starting_page] *)
Definition find_starting_page (fitz_open : string → list string)
    (self : Service_Report) : Service_Report * outcome nat :=
  let self := _open fitz_open self in
  let found_page :=
    match doc self with
    | Some (Some texts) => first_form_page 0 texts
    | _ => None
    end in
  match _close self with
  | (self, Throw e) => (self, Throw e)
  | (self, Return _) =>
      match found_page with
      | Some n => (self, Return n)
      | None =>
          (self,
           Throw (ValueError
                    "No 'Service Inspection Form' page found in document"))
      end
  end.

(** [_extract_single_page_table(page_number, **kwargs)] *)
Definition _extract_single_page_table {table} (read : nat → list table)
    (page_number : nat) : outcome table :=
  match read page_number with
  | t :: _ => Return t
  | [] =>
      Throw (ValueError ("No table found in page n" +:+ String "176"
                           (str_nat page_number)))
  end.

(** The loop of [_get_multiple_pages_table]: a page without table raises
    [ValueError], which the loop catches to go on. *)
Fixpoint collect_tables {table frame} (read : nat → list table)
    (df : table → frame) (pages : list nat) (tables : list frame)
    : outcome (list frame) :=
  match pages with
  | [] => Return tables
  | page_number :: rest =>
      match _extract_single_page_table read page_number with
      | Return object_table =>
          collect_tables read df rest (tables ++ [df object_table])
      | Throw (ValueError _) => collect_tables read df rest tables
      | Throw e => Throw e
      end
  end.

(** [_get_multiple_pages_table(starting_page_number, ending_page_number)] *)
Definition _get_multiple_pages_table {table frame} (read : nat → list table)
    (df : table → frame) (concat : list frame → frame)
    (starting_page_number ending_page_number : nat) : outcome frame :=
  match collect_tables read df
          (seq starting_page_number
             (ending_page_number + 1 - starting_page_number)) [] with
  | Throw e => Throw e
  | Return [] => Throw (ValueError "No table found in document")
  | Return tables => Return (concat tables)
  end.

(** [Vestas_Report._extract_full_table], [read] being the reader for the
    parameters of the call. *)
Definition _extract_full_table {table frame}
    (fitz_open : string → list string) (read : nat → list table)
    (df : table → frame) (concat : list frame → frame)
    (self : Service_Report) : Service_Report * outcome frame :=
  match find_starting_page fitz_open self with
  | (self, Throw e) => (self, Throw e)
  | (self, Return found) =>
      let starting_page := found + 1 in
      let self := _open fitz_open self in
      let ending_page :=
        match doc self with
        | Some (Some texts) => length texts
        | _ => 0
        end in
      match _close self with
      | (self, Throw e) => (self, Throw e)
      | (self, Return _) =>
          (self,
           _get_multiple_pages_table read df concat starting_page ending_page)
      end
  end.

(** An instance of [PDF], as [__init__] leaves it. *)
Record PDF : Type := MkPDF {
  page_numbers : nat;
  header_informations : gmap string hvalue;
  sif_page : nat
}.

(** [PDF._get_sif_page] *)
Definition _get_sif_page (texts : list string) : outcome nat :=
  match first_form_page 0 texts with
  | Some page_num => Return page_num
  | None =>
      Throw (ValueError ("'Service Inspection Form' non trouv"
                           +:+ String "233" " dans le document"))
  end.

(** [PDF(name, path)], [texts] being the pages of the opened document. *)
Definition PDF_init (texts : list string) : outcome PDF :=
  match texts !! 0 with
  | None => Throw IndexError
  | Some first_page =>
      match _get_sif_page texts with
      | Return page => Return (MkPDF (length texts)
                                 (get_header_informations first_page) page)
      | Throw e => Throw e
      end
  end.

(** The first table of every page of [pages] that has one, as frames. *)
Definition first_tables {table frame} (read : nat → list table)
    (df : table → frame) (pages : list nat) : list frame :=
  omap (λ page_number, df <$> head (read page_number)) pages.

(** Search for a derivation of [sublist] between two given lists. *)
Ltac solve_sublist :=
  solve [ apply sublist_nil
        | apply sublist_skip; solve_sublist
        | apply sublist_cons; solve_sublist ].

(** * Properties *)

(** ** Strings *)

Lemma endswith_nil p : Py.endswith "" p = String.eqb "" p.
Proof. simpl. destruct p; reflexivity. Qed.
Lemma endswith_cons c s p :
  Py.endswith (String c s) p = String.eqb (String c s) p || Py.endswith s p.
Proof. reflexivity. Qed.
Lemma endswith_refl s : Py.endswith s s = true.
Proof. destruct s; [reflexivity|]. rewrite endswith_cons, String.eqb_refl. done. Qed.

Lemma endswith_app_r p q : Py.endswith (p +:+ q) q = true.
Proof.
  induction p as [|a p IH]; [apply endswith_refl|].
  change (String a p +:+ q) with (String a (p +:+ q)).
  rewrite endswith_cons, IH. apply orb_true_r.
Qed.

Lemma endswith_app s p q : Py.endswith s (p +:+ q) = true → Py.endswith s q = true.
Proof.
  induction s as [|c s IH].
  - rewrite endswith_nil. intros H%String.eqb_eq. rewrite H. apply endswith_app_r.
  - rewrite endswith_cons. intros [H%String.eqb_eq|H]%orb_true_iff.
    + rewrite H. apply endswith_app_r.
    + rewrite endswith_cons, (IH H). apply orb_true_r.
Qed.

(** The loop tries "OK" first, and every text ending in "NOT OK" or "NOK"
    ends in "OK": the two longer tokens are never selected. *)
Lemma strip_status_tokens text :
  (strip_status text).2 ∈ [None; Some "OK"; Some "N/A"; Some "NOT APPLICABLE"].
Proof.
  unfold strip_status, status_patterns, strip_status_with.
  destruct (Py.endswith text "OK") eqn:HOK.
  { cbn. set_solver. }
  destruct (Py.endswith text "NOT OK") eqn:H1.
  { apply (endswith_app text "NOT " "OK") in H1. congruence. }
  destruct (Py.endswith text "NOK") eqn:H2.
  { apply (endswith_app text "N" "OK") in H2. congruence. }
  destruct (Py.endswith text "N/A"); [cbn; set_solver|].
  destruct (Py.endswith text "Not Applicable"); cbn; set_solver.
Qed.

Lemma truthy_iff s : Py.truthy s = true ↔ s ≠ "".
Proof. destruct s; simpl; split; congruence. Qed.

(** ** The matcher against the declarative reading of the patterns *)

Module ReFacts.
Import Re.

Lemma orelse_Some {A} (x : option A) y r :
  orelse x y = Some r → x = Some r ∨ (x = None ∧ y tt = Some r).
Proof. destruct x; simpl; intros; simplify_eq; auto. Qed.

Lemma star_loop_sound body (D : mstate → mstate → Prop) g :
  (∀ st k m, body st k = Some m → ∃ st', D st st' ∧ k st' = Some m) →
  ∀ n st k m, star_loop body g n st k = Some m →
    ∃ st', iter D st st' ∧ k st' = Some m.
Proof.
  intros Hbody n. induction n as [|n IH]; intros st k m; simpl.
  { intros Hk. exists st. split; [constructor|done]. }
  assert (Hagain : body st (λ st', if ms_pos st <? ms_pos st'
                             then star_loop body g n st' k else None) = Some m →
          ∃ st', iter D st st' ∧ k st' = Some m).
  { intros (st1 & HD & Hk)%Hbody.
    destruct (ms_pos st <? ms_pos st1) eqn:Hlt; [|done].
    apply Nat.ltb_lt in Hlt. apply IH in Hk as (st' & Hit & Hk).
    exists st'. split; [|done]. by econstructor. }
  destruct g; intros [H|[_ H]]%orelse_Some; auto;
    exists st; (split; [constructor|done]).
Qed.

(** Whatever the matcher returns is reached through a declarative match
    of the pattern followed by the continuation. *)
Lemma exec_sound r : ∀ st k m,
  exec r st k = Some m → ∃ st', den r st st' ∧ k st' = Some m.
Proof.
  induction r as [|p|a IHa b IHb|a IHa b IHb|g a IHa|n a IHa| |];
    intros st k m; cbn [exec den].
  - eauto.
  - destruct (ms_rest st) as [|c t] eqn:Hrest; [done|].
    destruct (p c) eqn:Hp; [|done]. intros Hk.
    eexists. split; [|exact Hk]. eauto.
  - intros (mid & Ha & Hb)%IHa. apply IHb in Hb as (st' & Hb & Hk). eauto.
  - intros [H|[_ H]]%orelse_Some.
    + apply IHa in H as (st' & ? & ?). eauto.
    + apply IHb in H as (st' & ? & ?). eauto.
  - intros H. eapply star_loop_sound in H; [exact H|exact IHa].
  - intros (mid & Ha & Hk)%IHa. eauto.
  - destruct (ms_pos st =? 0) eqn:Hp; [|done]. apply Nat.eqb_eq in Hp. eauto.
  - destruct (at_eol (ms_rest st)) eqn:He; [|done]. eauto.
Qed.

(** A declarative match moves the offset by what it reads. *)
Lemma iter_len (D : mstate → mstate → Prop) :
  (∀ st st', D st st' →
     ms_pos st' + String.length (ms_rest st')
     = ms_pos st + String.length (ms_rest st)) →
  ∀ st st', iter D st st' →
     ms_pos st' + String.length (ms_rest st')
     = ms_pos st + String.length (ms_rest st).
Proof.
  intros HD st st' Hit. induction Hit as [|st st1 st2 H1 _ _ IH]; [done|].
  rewrite IH. by apply HD.
Qed.

Lemma den_len r : ∀ st st', den r st st' →
  ms_pos st' + String.length (ms_rest st')
  = ms_pos st + String.length (ms_rest st).
Proof.
  induction r as [|p|a IHa b IHb|a IHa b IHb|g a IHa|n a IHa| |];
    intros st st'; simpl.
  - by intros ->.
  - intros (c & t & Hrest & _ & ->). rewrite Hrest. simpl. lia.
  - intros (mid & Ha%IHa & Hb%IHb). lia.
  - intros [?|?]; auto.
  - apply iter_len, IHa.
  - intros (mid & Ha%IHa & ->). simpl. lia.
  - by intros [_ ->].
  - by intros [_ ->].
Qed.

Lemma star_loop_complete body (D : mstate → mstate → Prop) g :
  (∀ st st', D st st' →
     ms_pos st' + String.length (ms_rest st')
     = ms_pos st + String.length (ms_rest st)) →
  (∀ st st' k, D st st' → is_Some (k st') → is_Some (body st k)) →
  ∀ st st', iter D st st' →
  ∀ n k, String.length (ms_rest st) < n → is_Some (k st') →
    is_Some (star_loop body g n st k).
Proof.
  intros Hlen Hbody st st' Hit.
  induction Hit as [st|st st1 st2 H1 Hlt Hit IH]; intros n k Hn Hk.
  - destruct n as [|n]; [lia|]. simpl.
    destruct g; simpl.
    + destruct (body st _); simpl; [done|done].
    + destruct (k st); [done|]. by destruct Hk.
  - destruct n as [|n]; [lia|]. simpl.
    assert (Hagain : is_Some (body st (λ st', if ms_pos st <? ms_pos st'
                             then star_loop body g n st' k else None))).
    { eapply Hbody; [exact H1|].
      apply Nat.ltb_lt in Hlt as Hlt'. rewrite Hlt'.
      apply IH; [|done]. apply Hlen in H1. lia. }
    destruct g; simpl.
    + destruct Hagain as [r ->]. done.
    + destruct (k st); [done|]. exact Hagain.
Qed.

(** When the pattern has a declarative match that the continuation
    accepts, the matcher returns a match. *)
Lemma exec_complete r : ∀ st st' k,
  den r st st' → is_Some (k st') → is_Some (exec r st k).
Proof.
  induction r as [|p|a IHa b IHb|a IHa b IHb|g a IHa|n a IHa| |];
    intros st st' k; cbn [exec den].
  - by intros ->.
  - intros (c & t & -> & -> & ->). done.
  - intros (mid & Ha & Hb) Hk. eapply IHa; [exact Ha|]. by eapply IHb.
  - intros [Ha|Hb] Hk.
    + destruct (IHa _ _ _ Ha Hk) as [r ->]. done.
    + destruct (exec a st k); [done|]. simpl. by eapply IHb.
  - intros Hit Hk.
    eapply star_loop_complete; [apply den_len|exact IHa|exact Hit|lia|done].
  - intros (mid & Ha & ->) Hk. by eapply IHa.
  - intros [-> ->] Hk. done.
  - intros [-> ->] Hk. done.
Qed.

Lemma den_mono r : ∀ st st', den r st st' → ms_pos st ≤ ms_pos st'.
Proof.
  induction r as [|p|a IHa b IHb|a IHa b IHb|g a IHa|n a IHa| |];
    intros st st'; cbn [den].
  - by intros ->.
  - intros (c & t & _ & _ & ->). simpl. lia.
  - intros (mid & Ha%IHa & Hb%IHb). lia.
  - intros [?|?]; auto.
  - intros Hit. induction Hit; [done|lia].
  - intros (mid & Ha%IHa & ->). simpl. lia.
  - by intros [_ ->].
  - by intros [_ ->].
Qed.

(** A match only adds spans, and only for the groups of the pattern. *)
Lemma den_caps r : ∀ st st', den r st st' →
  ∃ new, ms_caps st' = new ++ ms_caps st ∧ ∀ x, x ∈ new → x.1 ∈ groups r.
Proof.
  induction r as [|p|a IHa b IHb|a IHa b IHb|g a IHa|n a IHa| |];
    intros st st'; cbn [den groups].
  - intros ->. exists []. set_solver.
  - intros (c & t & _ & _ & ->). exists []. set_solver.
  - intros (mid & (n1 & E1 & H1)%IHa & (n2 & E2 & H2)%IHb).
    exists (n2 ++ n1). rewrite E2, E1, app_assoc. set_solver.
  - intros [(n1 & E1 & H1)%IHa|(n1 & E1 & H1)%IHb]; exists n1; set_solver.
  - intros Hit. induction Hit as [st|st st1 st2 (n1 & E1 & H1)%IHa _ _ (n2 & E2 & H2)].
    + exists []. set_solver.
    + exists (n2 ++ n1). rewrite E2, E1, app_assoc. set_solver.
  - intros (mid & (n1 & E1 & H1)%IHa & ->). simpl.
    exists ((n, (ms_pos st, ms_pos mid)) :: n1). rewrite E1. set_solver.
  - intros [_ ->]. exists []. set_solver.
  - intros [_ ->]. exists []. set_solver.
Qed.

Lemma assoc_app_notin n new l :
  (∀ x, x ∈ new → x.1 ≠ n) → assoc n (new ++ l) = assoc n l.
Proof.
  induction new as [|[i sp] new IH]; intros H; [done|]. simpl.
  destruct (i =? n) eqn:E.
  - apply Nat.eqb_eq in E. exfalso. apply (H (i, sp)); [set_solver|done].
  - apply IH. intros x Hx. apply H. set_solver.
Qed.

Lemma rmatch_Some r s m :
  rmatch r s = Some m →
  ∃ st, den r (MState 0 s []) st
        ∧ m = Match s 0 (ms_pos st) (ms_caps st).
Proof.
  unfold rmatch, run. destruct (exec _ _ _) as [st|] eqn:E; [|done].
  intros [= <-]. apply exec_sound in E as (st' & Hden & [= ->]). eauto.
Qed.

Lemma rmatch_complete r s st :
  den r (MState 0 s []) st → is_Some (rmatch r s).
Proof.
  intros Hden. unfold rmatch, run.
  destruct (exec_complete r _ _ Some Hden) as [x ->]; done.
Qed.

End ReFacts.

(** ** The patterns of the extractor *)

Module PatternFacts.
Import Re ReFacts.

Lemma den_caps_nogroups r st st' :
  groups r = [] → den r st st' → ms_caps st' = ms_caps st.
Proof.
  intros Hg (new & -> & Hnew)%den_caps. rewrite Hg in Hnew.
  destruct new as [|x new]; [done|]. specialize (Hnew x). set_solver.
Qed.

Lemma isdecimal_not_space c : Py.isdecimal c = true → Py.isspace c = false.
Proof. destruct c as [[][][][][][][][]]; vm_compute; congruence. Qed.

Lemma strip_cons_truthy c s :
  Py.isspace c = false → Py.truthy (Py.strip (String c s)) = true.
Proof.
  intros Hc. unfold Py.strip. cbn [Py.lstrip]. rewrite Hc. cbn [Py.rstrip].
  destruct (Py.rstrip s); [rewrite Hc|]; done.
Qed.

(** A line that [item_number_pattern] matches starts with an item number:
    it is never read as a continuation. *)
Lemma item_pattern_line line m :
  rmatch item_number_pattern line = Some m →
  is_Some (rmatch inspection_line_pattern line).
Proof.
  intros (st & Hden & _)%rmatch_Some.
  destruct Hden as (m1 & [Hp ->] & m2 & (mid & HX & ->) & _).
  eapply rmatch_complete. exists (MState 0 line []). split; [done|]. exact HX.
Qed.

Lemma item_pattern_groups line m :
  rmatch item_number_pattern line = Some m →
  ∃ g1 g2, group m 1 = Some g1 ∧ group m 2 = Some g2
           ∧ Py.truthy (Py.strip g1) = true.
Proof.
  intros (st & Hden & ->)%rmatch_Some.
  destruct Hden as (m1 & [Hp ->] & m2 & (mid & HX & ->) & m3 & Hsp & m4
                    & (mid2 & H2 & ->) & m5 & Hopt & m6 & [_ ->] & ->).
  assert (Hc1 : ms_caps mid = []) by (by apply den_caps_nogroups in HX).
  apply den_caps_nogroups in Hsp; [|done]. simpl in Hsp.
  apply den_caps_nogroups in H2; [|done].
  apply den_caps in Hopt as (new & Hcaps & Hnew). simpl in Hcaps.
  rewrite H2, Hsp, Hc1 in Hcaps.
  destruct HX as (a1 & (a0 & (c & t & Hrest & Hc & ->) & Hstar) & Hmore).
  simpl in Hrest. subst line.
  apply den_mono in Hstar. apply den_mono in Hmore. simpl in Hstar.
  destruct (ms_pos mid) as [|p1] eqn:Hp1; [lia|].
  unfold group. cbn [m_caps m_subject]. rewrite Hcaps.
  rewrite !assoc_app_notin.
  2,3: intros x Hx; apply Hnew in Hx;
    change (x.1 ∈ [3]) in Hx; apply list_elem_of_singleton in Hx; lia.
  simpl. do 2 eexists. split; [done|]. split; [done|].
  apply strip_cons_truthy. by apply isdecimal_not_space.
Qed.

Lemma search_from_Some r subject : ∀ rest i m,
  search_from r subject i rest = Some m →
  ∃ j rest' st, den r (MState j rest' []) st
                ∧ m = Match subject j (ms_pos st) (ms_caps st).
Proof.
  induction rest as [|c rest IH]; intros i m; cbn [search_from]; unfold run;
    destruct (exec _ _ _) as [st|] eqn:E; try done.
  1,2: intros [= <-]; apply exec_sound in E as (st' & Hden & [= ->]); eauto.
  apply IH.
Qed.

Lemma status_end_group line m :
  search status_end_pattern line = Some m → is_Some (group m 1).
Proof.
  intros (j & rest & st & Hden & ->)%search_from_Some.
  destruct Hden as (m1 & (mid & _ & ->) & m2 & [_ ->] & ->).
  unfold group. simpl. done.
Qed.

End PatternFacts.

(** ** The loops *)

Lemma bind_Ok {A B} (x : result A) (f : A → result B) b :
  x ≫= f = Ok b → ∃ a, x = Ok a ∧ f a = Ok b.
Proof. destruct x as [a|e]; [|done]. intros H. by exists a. Qed.

Lemma for_each_inv {S A} (I : S → Prop) (body : S → A → result S) :
  (∀ st a st', I st → body st a = Ok st' → I st') →
  ∀ l st st', I st → for_each body st l = Ok st' → I st'.
Proof.
  intros Hstep l. induction l as [|a l IH]; intros st st' HI; simpl.
  - by intros [= <-].
  - intros (st1 & H1 & H2)%bind_Ok. eauto.
Qed.

(** ** The end of an item *)

Lemma wf_initial : wf initial_state.
Proof. split; simpl; [constructor|set_solver|constructor|done]. Qed.

Lemma pending_flush st : pending (flush st) = [].
Proof.
  unfold flush. destruct (current_item_number st) as [n|] eqn:E.
  2: { unfold pending. by rewrite E. }
  destruct (Py.truthy n) eqn:Ht; simpl.
  2: { unfold pending. by rewrite E, Ht. }
  case_bool_decide; simpl; unfold pending; simpl; rewrite ?E, Ht; simpl.
  - by rewrite bool_decide_true.
  - rewrite bool_decide_true; [done|set_solver].
Qed.

Lemma flush_items st :
  inspection_items (flush st)
  = inspection_items st ++
      match pending st with
      | [] => []
      | n :: _ => [MkItem n (current_description st) (current_comment st)
                     (default "" (status_var st))]
      end.
Proof.
  unfold flush, pending. destruct (current_item_number st) as [n|]; [|by rewrite app_nil_r].
  destruct (Py.truthy n && _); [done|by rewrite app_nil_r].
Qed.

Lemma flush_seen st n :
  n ∈ items_seen (flush st) ↔ n ∈ items_seen st ∨ n ∈ pending st.
Proof.
  unfold flush, pending. destruct (current_item_number st) as [m|]; [|set_solver].
  destruct (Py.truthy m && _); simpl; set_solver.
Qed.

Lemma flush_current st :
  current_item_number (flush st) = current_item_number st
  ∧ current_description (flush st) = current_description st
  ∧ current_comment (flush st) = current_comment st
  ∧ status_var (flush st) = status_var st.
Proof.
  unfold flush. destruct (current_item_number st) as [m|] eqn:E; [|done].
  destruct (Py.truthy m && _); done.
Qed.

Lemma pending_cases st :
  pending st = []
  ∨ ∃ n, pending st = [n] ∧ current_item_number st = Some n
         ∧ Py.truthy n = true ∧ n ∉ items_seen st.
Proof.
  unfold pending. destruct (current_item_number st) as [n|]; [|by left].
  destruct (Py.truthy n) eqn:Ht; [|by left]. simpl.
  case_bool_decide; simpl; [by left|right; eauto].
Qed.

Lemma flush_numbers st :
  numbers (inspection_items (flush st))
  = numbers (inspection_items st) ++ pending st.
Proof.
  rewrite flush_items. unfold numbers. rewrite fmap_app.
  destruct (pending_cases st) as [->|(n & -> & _)]; done.
Qed.

Lemma flush_wf st : wf st → wf (flush st).
Proof.
  intros [Hnd Hseen Hdesc Hopen].
  destruct (flush_current st) as (Hn & Hd & _).
  split.
  - rewrite flush_numbers.
    destruct (pending_cases st) as [->|(n & -> & _ & _ & Hn')]; [by rewrite app_nil_r|].
    apply NoDup_app. split; [done|]. split; [|apply NoDup_singleton].
    intros x Hx ->%list_elem_of_singleton. by apply Hn', Hseen.
  - intros n. rewrite flush_seen, flush_numbers, elem_of_app, Hseen. done.
  - rewrite flush_items. apply Forall_app. split; [done|].
    destruct (pending_cases st) as [->|(n & -> & Hcur & Ht & _)]; [constructor|].
    constructor; [|constructor]. simpl. apply Hopen. by rewrite Hcur.
  - by rewrite Hn, Hd.
Qed.

(** ** The text pass *)

Lemma continuation_line_ok st line :
  is_Some (current_description st) →
  (Py.otruthy (current_comment st) = true → is_Some (current_comment st)) →
  ∃ st', continuation_line st line = Ok st'
         ∧ inspection_items st' = inspection_items st
         ∧ items_seen st' = items_seen st
         ∧ current_item_number st' = current_item_number st
         ∧ is_Some (current_description st').
Proof.
  intros [d Hd] Hc. unfold continuation_line.
  destruct (Re.search status_end_pattern line) as [m|] eqn:Hm.
  - destruct (PatternFacts.status_end_group _ _ Hm) as [g ->]. simpl.
    destruct (Py.otruthy (current_comment st)) eqn:Hoc.
    + destruct (Hc eq_refl) as [c ->]. simpl. rewrite Hd. eauto 10.
    + rewrite Hd. simpl. eauto 10.
  - destruct (Py.otruthy (current_comment st)) eqn:Hoc.
    + destruct (Hc eq_refl) as [c ->]. simpl. rewrite Hd. eauto 10.
    + rewrite Hd. simpl. eauto 10.
Qed.

Lemma otruthy_is_Some o : Py.otruthy o = true → is_Some o.
Proof. destruct o; [eauto|done]. Qed.

Lemma merge_items_ok num desc cmt items :
  Forall (λ item, is_Some (description item)) items →
  ∃ items', merge_items num desc cmt items = Ok items'
            ∧ numbers items' = numbers items
            ∧ Forall (λ item, is_Some (description item)) items'.
Proof.
  induction 1 as [|item items [d Hd] _ (items' & IH & Hn & Hf)]; simpl.
  - exists []. done.
  - unfold merge_item. destruct (String.eqb (item_number item) num).
    + rewrite Hd. simpl. rewrite IH. simpl. eexists. split; [done|].
      split; [simpl; by rewrite Hn|]. constructor; [simpl; eauto|done].
    + simpl. rewrite IH. simpl. eexists. split; [done|].
      split; [simpl; by rewrite Hn|]. constructor; [eauto|done].
Qed.

Lemma parse_item_ok line m :
  Re.rmatch item_number_pattern line = Some m →
  ∃ g1 desc cmt sts,
    Re.group m 1 = Some g1 ∧ Py.truthy (Py.strip g1) = true
    ∧ parse_item m = Ok (Py.strip g1, desc, cmt, sts).
Proof.
  intros (g1 & g2 & H1 & H2 & Ht)%PatternFacts.item_pattern_groups.
  unfold parse_item. rewrite H1, H2. simpl.
  destruct (if Py.truthy _ then _ else _) as [d s].
  destruct (split_comment d s) as [[d' c'] s']. simpl. eauto 10.
Qed.

Lemma item_line_ok st line :
  wf st →
  ∃ st', item_line st line = Ok st' ∧ wf st'
         ∧ numbers (inspection_items st') ++ pending st'
           = see (numbers (inspection_items st) ++ pending st) (shown line).
Proof.
  intros Hwf. unfold item_line, shown.
  destruct (Re.rmatch item_number_pattern line) as [m|] eqn:Hm; simpl.
  { destruct (parse_item_ok _ _ Hm) as (g1 & desc & cmt & sts & Hg & Ht & ->).
    rewrite Hg. simpl.
    pose proof (flush_wf _ Hwf) as [Hnd Hseen Hdesc Hopen].
    rewrite <- flush_numbers.
    case_bool_decide as Hin.
    - destruct (merge_items_ok (Py.strip g1) desc cmt _ Hdesc)
        as (items' & -> & Hnum & Hf). simpl.
      eexists. split; [done|]. split.
      + split; simpl; [by rewrite Hnum|by setoid_rewrite Hnum|done|eauto].
      + unfold pending. simpl. rewrite Ht. simpl.
        rewrite (bool_decide_true _ Hin). simpl. rewrite app_nil_r, Hnum.
        rewrite bool_decide_true; [done|by apply Hseen].
    - assert (Hnin : Py.strip g1 ∉ numbers (inspection_items (flush st)))
        by (by rewrite <- Hseen).
      rewrite (bool_decide_false _ Hnin).
      destruct (Py.truthy sts) eqn:Hs; simpl.
      + eexists. split; [done|]. split.
        * split; simpl.
          -- unfold numbers. rewrite fmap_app. apply NoDup_app.
             split; [done|]. split; [|apply NoDup_singleton].
             intros x Hx ->%list_elem_of_singleton. done.
          -- intros n. unfold numbers. rewrite fmap_app, elem_of_app.
             fold (numbers (inspection_items (flush st))).
             rewrite <- Hseen. set_solver.
          -- apply Forall_app. split; [done|]. constructor; [simpl; eauto|done].
          -- eauto.
        * unfold pending. simpl. rewrite Ht. simpl.
          rewrite bool_decide_true by set_solver. simpl.
          unfold numbers. by rewrite app_nil_r, fmap_app.
      + eexists. split; [done|]. split.
        * split; simpl; [done|done|done|eauto].
        * unfold pending. simpl. rewrite Ht. simpl.
          by rewrite (bool_decide_false _ Hin). }
  exists st. split; [done|]. split; [done|]. done.
Qed.

Lemma not_line_not_item line :
  Re.rmatch inspection_line_pattern line = None → shown line = None.
Proof.
  intros Hnone. unfold shown.
  destruct (Re.rmatch item_number_pattern line) as [m|] eqn:Hm; [|done].
  apply PatternFacts.item_pattern_line in Hm as [x Hx]. congruence.
Qed.

Lemma is_continuation_true st line :
  is_continuation st line = true →
  Py.otruthy (current_item_number st) = true
  ∧ Re.rmatch inspection_line_pattern line = None.
Proof.
  unfold is_continuation. intros [H1 H2]%andb_true_iff. split; [done|].
  apply negb_true_iff, bool_decide_eq_false in H2.
  destruct (Re.rmatch _ _); [|done]. destruct H2. eauto.
Qed.

(** A line of text never raises, keeps the invariant, and moves the
    first-seen order by the number it shows. *)
Lemma text_line_ok st line :
  wf st →
  ∃ st', text_line st line = Ok st' ∧ wf st'
         ∧ numbers (inspection_items st') ++ pending st'
           = see (numbers (inspection_items st) ++ pending st)
               (detected_number line).
Proof.
  intros Hwf. unfold text_line, detected_number.
  destruct (negb (Py.truthy (Py.strip line))); [by exists st|].
  destruct (Py.contains _ _ || Py.contains _ _); [by exists st|].
  destruct (is_continuation st line) eqn:Hc; [|by apply item_line_ok].
  apply is_continuation_true in Hc as [Hcur Hline].
  rewrite (not_line_not_item _ Hline). simpl.
  destruct Hwf as [Hnd Hseen Hdesc Hopen].
  destruct (continuation_line_ok st line (Hopen Hcur) (otruthy_is_Some _))
    as (st' & -> & Hi & Hs & Hn & Hd).
  exists st'. split; [done|]. split.
  - split; [by rewrite Hi|by rewrite Hi, Hs|by rewrite Hi|done].
  - unfold pending. by rewrite Hi, Hs, Hn.
Qed.

Lemma text_lines_ok lines : ∀ st order,
  wf st → numbers (inspection_items st) ++ pending st = order →
  ∃ st', for_each text_line st lines = Ok st' ∧ wf st'
         ∧ numbers (inspection_items st') ++ pending st'
           = foldl see order (detected_number <$> lines).
Proof.
  induction lines as [|line lines IH]; intros st order Hwf Hv; simpl.
  - eauto.
  - destruct (text_line_ok st line Hwf) as (st1 & -> & Hwf1 & Hv1). simpl.
    apply IH; [done|]. by rewrite Hv1, Hv.
Qed.

Lemma text_lines_cons page pdf :
  text_lines (page :: pdf)
  = Py.split "010" (extract_text page) ++ text_lines pdf.
Proof. reflexivity. Qed.

Lemma text_pass_ok pdf : ∀ st order,
  wf st → numbers (inspection_items st) ++ pending st = order →
  ∃ st', text_pass st pdf = Ok st' ∧ wf st'
         ∧ numbers (inspection_items st') ++ pending st'
           = foldl see order (detected_number <$> text_lines pdf).
Proof.
  unfold text_pass.
  induction pdf as [|page pdf IH]; intros st order Hwf Hv.
  - simpl. eauto.
  - rewrite text_lines_cons, fmap_app, foldl_app. cbn [for_each].
    destruct (text_lines_ok (Py.split "010" (extract_text page)) st order Hwf Hv)
      as (st1 & Hst1 & Hwf1 & Hv1).
    change (text_page st page = Ok st1) in Hst1. rewrite Hst1. simpl.
    by apply IH.
Qed.

(** ** The table pass *)

Lemma recovered_refl st : recovered st st [].
Proof. unfold recovered. rewrite app_nil_r. repeat split; done. Qed.

Lemma table_row_step st1 st row st' tbl :
  wf st → recovered st1 st tbl → table_row st row = Ok st' →
  wf st' ∧ ∃ tbl', recovered st1 st' tbl'.
Proof.
  intros Hwf Hrec. unfold table_row.
  destruct row as [|first [|second others]]; try (intros [= <-]; eauto).
  destruct (negb (Py.otruthy first)); [intros [= <-]; eauto|].
  destruct (Re.rmatch cell_number_pattern _); [|intros [= <-]; eauto].
  destruct (table_split_comment second) as [desc cmt].
  intros (d & _ & H)%bind_Ok.
  destruct (strip_status d) as [d' found].
  apply bind_Ok in H as (sts & _ & H).
  set (num := Py.strip (default "" first)) in *.
  destruct Hwf as [Hnd Hseen Hdesc Hopen].
  destruct Hrec as (Hitems & Hnew & Hsub & Hn & Hd & Hc).
  case_bool_decide as Hin; injection H as <-.
  - split; [by split|]. exists tbl. by split.
  - split.
    + split; simpl.
      * unfold numbers. rewrite fmap_app. apply NoDup_app.
        split; [done|]. split; [|apply NoDup_singleton].
        intros x Hx ->%list_elem_of_singleton. by apply Hin, Hseen.
      * intros n. unfold numbers. rewrite fmap_app, elem_of_app.
        fold (numbers (inspection_items st)). rewrite <- Hseen. set_solver.
      * apply Forall_app. split; [done|]. constructor; [simpl; eauto|done].
      * done.
    + exists (tbl ++ [MkItem num (Some d') cmt sts]). unfold recovered. simpl.
      rewrite Hitems, app_assoc. split; [done|]. split.
      * apply Forall_app. split; [done|]. constructor; [|done]. simpl.
        set_solver.
      * split; [set_solver|done].
Qed.

Lemma table_pass_step st1 pdf : ∀ st st' tbl,
  wf st → recovered st1 st tbl → table_pass st pdf = Ok st' →
  wf st' ∧ ∃ tbl', recovered st1 st' tbl'.
Proof.
  intros st st' tbl Hwf Hrec Hpass.
  pose (I := λ st, wf st ∧ ∃ tbl, recovered st1 st tbl).
  enough (I st') by done.
  revert Hpass. apply for_each_inv; [|by split; eauto].
  clear. intros st page st' HI. unfold table_page. revert st st' HI.
  apply for_each_inv. intros st table st' HI. revert st st' HI.
  apply for_each_inv. intros st row st' [Hwf [tbl Hrec]] Hrow.
  by eapply table_row_step.
Qed.

(** ** The whole extraction *)

(** The shape of every run that returns: the state after the text pass
    holds the first-seen order of the text, the table pass only appends
    items with unseen numbers, and the open item is flushed last. *)
Lemma extract_shape pdf items :
  extract_inspection_table pdf = Ok items →
  ∃ st1 st2 tbl,
    text_pass initial_state pdf = Ok st1 ∧ wf st1
    ∧ numbers (inspection_items st1) ++ pending st1 = first_seen (text_lines pdf)
    ∧ wf st2 ∧ recovered st1 st2 tbl
    ∧ items = inspection_items (flush st2).
Proof.
  unfold extract_inspection_table.
  destruct (text_pass_ok pdf initial_state [] wf_initial eq_refl)
    as (st1 & -> & Hwf1 & Hv1). simpl.
  intros (st2 & Hst2 & [= <-])%bind_Ok.
  destruct (table_pass_step st1 pdf st1 st2 [] Hwf1 (recovered_refl _) Hst2)
    as (Hwf2 & tbl & Hrec).
  exists st1, st2, tbl. done.
Qed.

Lemma elem_of_see order d n :
  n ∈ see order d ↔ n ∈ order ∨ d = Some n.
Proof.
  destruct d as [m|]; simpl; [|naive_solver].
  case_bool_decide; [|rewrite elem_of_app, list_elem_of_singleton]; naive_solver.
Qed.

Lemma elem_of_foldl_see ds : ∀ order n,
  n ∈ foldl see order ds ↔ n ∈ order ∨ Some n ∈ ds.
Proof.
  induction ds as [|d ds IH]; intros order n; simpl.
  - rewrite elem_of_nil. tauto.
  - rewrite IH, elem_of_see, elem_of_cons. naive_solver.
Qed.

Lemma pending_recovered st1 st2 tbl :
  wf st1 → wf st2 → recovered st1 st2 tbl →
  pending st2 = pending st1
  ∨ (pending st2 = [] ∧ ∀ n, n ∈ pending st1 → n ∈ numbers tbl).
Proof.
  intros Hwf1 Hwf2 (Hitems & Hnew & Hsub & Hn & _).
  destruct (pending_cases st1) as [E1|(n & E1 & Hcur & Ht & Hnin)].
  - left. rewrite E1. unfold pending in *. rewrite Hn.
    destruct (current_item_number st1) as [n|]; [|done].
    destruct (Py.truthy n); [|done]. simpl in *.
    case_bool_decide as H1; [|done].
    rewrite bool_decide_true; [done|set_solver].
  - assert (Hp2 : pending st2
                  = if bool_decide (n ∈ items_seen st2) then [] else [n]).
    { unfold pending. rewrite Hn, Hcur, Ht. simpl. by case_bool_decide. }
    rewrite Hp2, E1. case_bool_decide as H2; [right|by left].
    split; [done|]. intros m. intros ->%list_elem_of_singleton.
    apply (wf_seen _ Hwf2) in H2. rewrite Hitems in H2. unfold numbers in H2.
    rewrite fmap_app, elem_of_app in H2. destruct H2 as [H2|H2]; [|done].
    destruct Hnin. by apply (wf_seen _ Hwf1).
Qed.

Lemma merge_items_appends num desc cmt items items' :
  merge_items num desc cmt items = Ok items' →
  Forall2 (appended desc) items items'.
Proof.
  revert items'. induction items as [|item items IH]; intros items'; simpl.
  - intros [= <-]. constructor.
  - intros (item' & Hitem & (rest' & Hrest & [= <-])%bind_Ok)%bind_Ok.
    constructor; [|by apply IH].
    unfold merge_item in Hitem. destruct (String.eqb _ _).
    + apply bind_Ok in Hitem as (d & Hd & [= <-]).
      destruct (description item) as [d0|] eqn:E; [|done].
      injection Hd as <-. unfold appended. simpl. eauto 10.
    + injection Hitem as <-. unfold appended. auto.
Qed.

(** ** Scenarios *)

(** C4: the two lines "1.01 Check torque" and "continues on next line OK"
    give one item, 1.01, with the description "Check torque continues on
    next line" and the status "OK". *)
Theorem continuation_merge :
  extract_inspection_table
    [MkPage ("1.01 Check torque" +:+ String "010" "continues on next line OK")
       []]
  = Ok [MkItem "1.01" (Some "Check torque continues on next line") None "OK"].
Proof. vm_compute. reflexivity. Qed.

(** C3: with 1.01 committed by the text pass, the table row
    ["1.02", "Check bolt: loose NOK"] gives item 1.02 with the description
    "Check bolt", but with the comment "loose N" and an empty status: the
    comment loop tries "OK" before "NOK", and line 208 resets the status
    found in the comment. *)
Theorem table_recovery_scenario :
  extract_inspection_table
    [MkPage "1.01 Check torque OK"
       [[[Some "1.02"; Some "Check bolt: loose NOK"]]]]
  = Ok [MkItem "1.01" (Some "Check torque") None "OK";
        MkItem "1.02" (Some "Check bolt") (Some "loose N") ""].
Proof. vm_compute. reflexivity. Qed.

(** C5: the loop over [status_patterns] tries "OK" first, so a fragment
    ending in "NOT OK" gives the status "OK" and a text ending in "NOT";
    the loop never returns "NOT OK" or "NOK". *)
Theorem shortest_token_first :
  strip_status "Bolt NOT OK" = ("Bolt NOT", Some "OK")
  ∧ extract_inspection_table [MkPage "" [[[Some "1.02"; Some "Bolt NOT OK"]]]]
    = Ok [MkItem "1.02" (Some "Bolt NOT") None "OK"]
  ∧ ∀ text, (strip_status text).2 ≠ Some "NOT OK"
            ∧ (strip_status text).2 ≠ Some "NOK".
Proof.
  split; [by vm_compute|]. split; [by vm_compute|].
  intros text. pose proof (strip_status_tokens text) as H.
  split; intros E; rewrite E in H; set_solver.
Qed.

(** C6: a table row with an item number in its first cell and [None] in
    its second raises [AttributeError] (line 211 calls [endswith] on
    [None]); the text pass raises for no document. *)
Theorem null_cell_raises :
  extract_inspection_table [MkPage "" [[[Some "1.02"; None]]]]
  = Raise AttributeError
  ∧ ∀ pdf, ∃ st, text_pass initial_state pdf = Ok st.
Proof.
  split; [by vm_compute|].
  intros pdf.
  destruct (text_pass_ok pdf initial_state [] wf_initial eq_refl)
    as (st & H & _).
  eauto.
Qed.

(** ** Status extraction that finds no token *)

Lemma strip_status_None text :
  strip_status text = (text, None) ↔
  Py.endswith text "OK" = false ∧ Py.endswith text "N/A" = false
  ∧ Py.endswith text "Not Applicable" = false.
Proof.
  unfold strip_status, status_patterns, strip_status_with.
  destruct (Py.endswith text "OK") eqn:HOK; [naive_solver|].
  destruct (Py.endswith text "NOT OK") eqn:H1.
  { apply (endswith_app text "NOT " "OK") in H1. congruence. }
  destruct (Py.endswith text "NOK") eqn:H2.
  { apply (endswith_app text "N" "OK") in H2. congruence. }
  destruct (Py.endswith text "N/A"); [naive_solver|].
  destruct (Py.endswith text "Not Applicable"); naive_solver.
Qed.

Lemma strip_status_unchanged text t :
  strip_status text = (t, None) → t = text.
Proof.
  unfold strip_status, status_patterns, strip_status_with.
  repeat (destruct (Py.endswith text _); [done|]). by intros [= <-].
Qed.

(** ** Header informations *)

(** C9: the dictionary returned has eight keys, for every first page; the
    key "end_date" of the Metadata enumeration is not among them, although
    the function computes an [end_date]. *)
Theorem header_keys first_page :
  dom (get_header_informations first_page)
  = list_to_set metadata_fields ∖ {[ "end_date" ]}
  ∧ get_header_informations first_page !! "end_date" = None.
Proof.
  unfold get_header_informations. split.
  - rewrite !dom_insert_L, dom_empty_L. unfold metadata_fields. simpl.
    apply set_eq. intros x. 
    repeat rewrite ?elem_of_union, ?elem_of_difference, ?elem_of_singleton, ?elem_of_empty.
    split; [naive_solver|]. intros [H Hne]. naive_solver.
  - by rewrite !lookup_insert_ne.
Qed.

(** ** Instances on sample documents *)

(** C2 fails: the flush of the item still open at the end of the input
    (lines 236-243) comes after the table loop.  "1.01" is first seen in
    the text and still open when the text ends; "1.02" is recovered from a
    table, and comes first in the output.  The late flush also gives "1.01"
    the status the table pass left in [status]: "OK", where the text alone
    gives "NOK".  And when a table row shows the number of the open item,
    the item read from the text is dropped. *)
Theorem open_item_after_table_items :
  first_seen
    (text_lines [MkPage "1.01 Check torque"
                   [[[Some "1.02"; Some "Check bolt"]]]]) = ["1.01"]
  ∧ extract_inspection_table
      [MkPage "1.01 Check torque" [[[Some "1.02"; Some "Check bolt"]]]]
    = Ok [MkItem "1.02" (Some "Check bolt") None "";
          MkItem "1.01" (Some "Check torque") None ""]
  ∧ extract_inspection_table
      [MkPage ("1.01 Check torque" +:+ String "010" "continues NOK") []]
    = Ok [MkItem "1.01" (Some "Check torque continues") None "NOK"]
  ∧ extract_inspection_table
      [MkPage ("1.01 Check torque" +:+ String "010" "continues NOK")
         [[[Some "1.02"; Some "Check bolt OK"]]]]
    = Ok [MkItem "1.02" (Some "Check bolt") None "OK";
          MkItem "1.01" (Some "Check torque continues") None "OK"]
  ∧ extract_inspection_table
      [MkPage "1.01 Check torque" [[[Some "1.01"; Some "Torque"; Some "OK"]]]]
    = Ok [MkItem "1.01" (Some "Torque") None "OK"].
Proof. repeat split; by vm_compute. Qed.

(** * Further properties *)

(** ** The text read by a match *)

Lemma app_cons_s x (a b : string) : String x a +:+ b = String x (a +:+ b).
Proof. reflexivity. Qed.

Lemma app_assoc_s (a b c : string) : (a +:+ b) +:+ c = a +:+ (b +:+ c).
Proof.
  induction a as [|x a IH]; [done|]. by rewrite !app_cons_s, IH.
Qed.

Lemma app_nil_r_s (a : string) : a +:+ "" = a.
Proof. induction a as [|x a IH]; [done|]. by rewrite app_cons_s, IH. Qed.

Lemma length_app_s (a b : string) :
  String.length (a +:+ b) = String.length a + String.length b.
Proof.
  induction a as [|x a IH]; [done|]. rewrite app_cons_s. simpl. by rewrite IH.
Qed.

Lemma substring_app_middle pre w post :
  String.substring (String.length pre) (String.length w) (pre +:+ w +:+ post)
  = w.
Proof.
  induction pre as [|x pre IH]; [|exact IH].
  change ("" +:+ w +:+ post) with (w +:+ post). simpl.
  induction w as [|y w IHw]; [by destruct post|].
  rewrite app_cons_s. simpl. by rewrite IHw.
Qed.

Lemma den_reads r : ∀ st st',
  Re.den r st st' →
  ∃ w, Re.ms_rest st = w +:+ Re.ms_rest st' ∧ reads r w
       ∧ Re.ms_pos st' = Re.ms_pos st + String.length w.
Proof.
  induction r as [|p|a IHa b IHb|a IHa b IHb|g a IHa|n a IHa| |];
    intros st st'; cbn [Re.den reads].
  - intros ->. exists "". split; [done|]. split; [done|]. simpl. lia.
  - intros (c & t & Hrest & Hp & ->). exists (String c ""). simpl.
    split; [done|]. split; [eauto|lia].
  - intros (mid & (w1 & E1 & R1 & P1)%IHa & (w2 & E2 & R2 & P2)%IHb).
    exists (w1 +:+ w2). rewrite app_assoc_s, <- E2. split; [done|].
    split; [eauto|]. rewrite length_app_s. lia.
  - intros [(w & ? & ? & ?)%IHa|(w & ? & ? & ?)%IHb]; exists w; auto.
  - intros Hit. induction Hit as [st|st st1 st2 H1 _ _ (w2 & E2 & R2 & P2)].
    + exists "". split; [done|]. split; [constructor|]. simpl. lia.
    + apply IHa in H1 as (w1 & E1 & R1 & P1).
      exists (w1 +:+ w2). rewrite app_assoc_s, <- E2. split; [done|].
      split; [by constructor|]. rewrite length_app_s. lia.
  - intros (mid & (w & E & R & P)%IHa & ->). simpl. eauto.
  - intros [_ ->]. exists "". split; [done|]. split; [done|]. simpl. lia.
  - intros [_ ->]. exists "". split; [done|]. split; [done|]. simpl. lia.
Qed.

Lemma on_subject_den subject r st st' :
  on_subject subject st → Re.den r st st' → on_subject subject st'.
Proof.
  intros (pre & -> & Hlen) (w & E & _ & P)%den_reads.
  exists (pre +:+ w). rewrite app_assoc_s, <- E. split; [done|].
  rewrite length_app_s. lia.
Qed.

(** The slice of the subject between two states of a match is the text
    read between them. *)
Lemma slice_read subject st st' w :
  on_subject subject st →
  Re.ms_rest st = w +:+ Re.ms_rest st' →
  Re.ms_pos st' = Re.ms_pos st + String.length w →
  Py.slice (Re.ms_pos st) (Re.ms_pos st') subject = w.
Proof.
  intros (pre & -> & Hlen) E P. unfold Py.slice.
  rewrite P, E, <- Hlen.
  replace (String.length pre + String.length w - String.length pre)
    with (String.length w) by lia.
  apply substring_app_middle.
Qed.

Lemma on_subject_start s : on_subject s (Re.MState 0 s []).
Proof. by exists "". Qed.

Lemma reads_lit s w : reads (Re.lit s) w → w = s.
Proof.
  revert w. induction s as [|c s IH]; intros w; cbn [Re.lit reads]; [done|].
  intros (w1 & w2 & -> & (c' & -> & Hc) & ->%IH).
  apply Ascii.eqb_eq in Hc as ->. done.
Qed.

Lemma reads_status_alt w : reads status_alt w → w ∈ status_patterns.
Proof.
  unfold status_alt, Re.alts, status_patterns. cbn [foldl reads].
  intros [[[[H|H]|H]|H]|H]; apply reads_lit in H as ->; set_solver.
Qed.

Lemma all_chars_app p a b :
  all_chars p (a +:+ b) = all_chars p a && all_chars p b.
Proof.
  induction a as [|x a IH]; [done|].
  rewrite app_cons_s. simpl. rewrite IH. by rewrite andb_assoc.
Qed.

Lemma reads_star_cls p w :
  star_lang (reads (Re.Cls p)) w → all_chars p w = true.
Proof.
  induction 1 as [|w1 w2 (c & -> & Hc) _ IH]; [done|].
  change (String c "" +:+ w2) with (String c w2). simpl. by rewrite Hc, IH.
Qed.

Lemma reads_plus_digit w : reads (Re.plus Re.digit) w → digits w.
Proof.
  unfold Re.plus, Re.digit. cbn [reads].
  intros (w1 & w2 & -> & (c & -> & Hc) & Hstar%reads_star_cls).
  change (String c "" +:+ w2) with (String c w2).
  split; [done|]. simpl. by rewrite Hc, Hstar.
Qed.

(** "\d+\.\d+" reads numbers of the form digits, dot, digits. *)
Lemma reads_dotted w :
  reads (Re.seqs [Re.plus Re.digit; Re.chr "."; Re.plus Re.digit]) w →
  dotted_number w.
Proof.
  cbn [Re.seqs foldr]. intros (a & r1 & -> & Ha%reads_plus_digit & Hr).
  destruct Hr as (d & r2 & -> & (c & -> & Hc) & (b & e & -> & Hb%reads_plus_digit & ->)).
  apply Ascii.eqb_eq in Hc as <-. rewrite app_nil_r_s.
  change (String "." "" +:+ b) with ("." +:+ b).
  exists a, b. done.
Qed.

Lemma upper_status_pattern g :
  g ∈ status_patterns → Py.upper g ∈ status_values ∧ Py.truthy (Py.upper g) = true.
Proof.
  unfold status_patterns, status_values.
  rewrite !elem_of_cons, elem_of_nil.
  intros [->|[->|[->|[->|[->|[]]]]]]; split; try reflexivity;
    vm_compute; set_solver.
Qed.

(** ** The groups of the extractor's patterns *)

Lemma search_from_on_subject r subject : ∀ rest i m,
  on_subject subject (Re.MState i rest []) →
  Re.search_from r subject i rest = Some m →
  ∃ j rest' st, on_subject subject (Re.MState j rest' [])
                ∧ Re.den r (Re.MState j rest' []) st
                ∧ m = Re.Match subject j (Re.ms_pos st) (Re.ms_caps st).
Proof.
  induction rest as [|c rest IH]; intros i m Hon; cbn [Re.search_from];
    unfold Re.run; destruct (Re.exec _ _ _) as [st|] eqn:E; try done.
  1,2: intros [= <-]; apply ReFacts.exec_sound in E as (st' & Hden & [= ->]);
    eauto 10.
  apply IH. destruct Hon as (pre & -> & Hlen). simpl in *.
  exists (pre +:+ String c ""). rewrite app_assoc_s. split; [done|].
  rewrite length_app_s. simpl. lia.
Qed.

(** Group 1 of a match of "(OK|NOT OK|NOK|N/A|Not Applicable)$" or of
    "(OK|NOT OK|NOK|N/A|Not Applicable)" is one of the five tokens. *)
Lemma status_end_token line m :
  Re.search status_end_pattern line = Some m →
  ∃ g, Re.group m 1 = Some g ∧ g ∈ status_patterns.
Proof.
  intros (j & rest & st & Hon & Hden & ->)%search_from_on_subject;
    [|apply on_subject_start].
  destruct Hden as (m1 & (mid & Halt & ->) & m2 & [_ ->] & ->).
  apply den_reads in Halt as (w & E & R & P).
  unfold Re.group. simpl.
  pose proof (slice_read line _ _ w Hon E P) as S. simpl in S. rewrite S.
  eauto using reads_status_alt.
Qed.

Lemma status_cell_token cell m :
  Re.search status_cell_pattern cell = Some m →
  ∃ g, Re.group m 1 = Some g ∧ g ∈ status_patterns.
Proof.
  intros (j & rest & st & Hon & Hden & ->)%search_from_on_subject;
    [|apply on_subject_start].
  destruct Hden as (mid & Halt & ->).
  apply den_reads in Halt as (w & E & R & P).
  unfold Re.group. simpl.
  pose proof (slice_read cell _ _ w Hon E P) as S. simpl in S. rewrite S.
  eauto using reads_status_alt.
Qed.

(** The groups of a match of [item_number_pattern]: group 1 is a number of
    the form digits, dot, digits; group 2 took part; group 3 is absent or
    one of the five tokens. *)
Lemma item_pattern_texts line m :
  Re.rmatch item_number_pattern line = Some m →
  ∃ g1 g2, Re.group m 1 = Some g1 ∧ dotted_number g1
           ∧ Re.group m 2 = Some g2
           ∧ (Re.group m 3 = None
              ∨ ∃ g3, Re.group m 3 = Some g3 ∧ g3 ∈ status_patterns).
Proof.
  intros (st & Hden & ->)%ReFacts.rmatch_Some.
  destruct Hden as (m1 & [Hp ->] & m2 & HG1 & m3 & Hsp & m4 & HG2 & m5 & Hopt
                    & m6 & [_ ->] & ->).
  pose proof (on_subject_start line) as On0.
  pose proof (on_subject_den _ _ _ _ On0 HG1) as On2.
  pose proof (on_subject_den _ _ _ _ On2 Hsp) as On3.
  pose proof (on_subject_den _ _ _ _ On3 HG2) as On4.
  destruct HG1 as (mid & HX & ->).
  assert (Hc1 : Re.ms_caps mid = [])
    by (by apply PatternFacts.den_caps_nogroups in HX).
  apply den_reads in HX as (w1 & E1 & R1%reads_dotted & P1).
  pose proof (slice_read line _ _ w1 On0 E1 P1) as S1. simpl in S1.
  apply PatternFacts.den_caps_nogroups in Hsp as Csp; [|done]. simpl in Csp.
  destruct HG2 as (mid2 & H2 & ->).
  apply PatternFacts.den_caps_nogroups in H2 as C2; [|done].
  unfold Re.group. cbn [Re.m_caps Re.m_subject].
  destruct Hopt as [Ha|Heps].
  - destruct Ha as (s1 & Hs1 & s2 & (mid3 & Halt & ->) & s3 & Hs3 & ->).
    pose proof (on_subject_den _ _ _ _ On4 Hs1) as On5.
    apply PatternFacts.den_caps_nogroups in Hs1 as C5; [|done]. simpl in C5.
    apply PatternFacts.den_caps_nogroups in Halt as C6; [|done].
    apply PatternFacts.den_caps_nogroups in Hs3 as C7; [|done]. simpl in C7.
    rewrite C7, C6, C5, C2, Csp, Hc1. simpl.
    apply den_reads in Halt as (w3 & E3 & R3%reads_status_alt & P3).
    rewrite (slice_read line s1 mid3 w3 On5 E3 P3), S1. eauto 10.
  - simpl in Heps. subst m5. simpl. rewrite C2, Csp, Hc1. simpl.
    rewrite S1. eauto 10.
Qed.

(** ** Stripping *)

Lemma app_singleton_inv w c x :
  w +:+ String c "" = String x "" → w = "" ∧ c = x.
Proof.
  destruct w as [|y w]; [by intros [= ->]|].
  rewrite app_cons_s. intros [= _ H]. by destruct w.
Qed.

Lemma rstrip_last s : ∀ w c,
  Py.rstrip s = w +:+ String c "" → Py.isspace c = false.
Proof.
  induction s as [|x t IH]; intros w c; cbn [Py.rstrip].
  - by destruct w.
  - destruct (Py.rstrip t) as [|y r] eqn:E.
    + destruct (Py.isspace x) eqn:Hx; [by destruct w|].
      intros H. symmetry in H. apply app_singleton_inv in H as [_ ->]. done.
    + destruct w as [|z w]; [done|]. rewrite app_cons_s. intros [= -> H].
      by apply (IH w).
Qed.

(** A stripped string does not end with white space. *)
Lemma strip_last s w c :
  Py.strip s = w +:+ String c "" → Py.isspace c = false.
Proof. apply rstrip_last. Qed.

Lemma rstrip_nospace s : all_chars nospace s = true → Py.rstrip s = s.
Proof.
  induction s as [|c t IH]; [done|]. cbn [all_chars Py.rstrip].
  intros [Hc Ht]%andb_true_iff. rewrite (IH Ht).
  destruct t; [|done]. unfold nospace in Hc.
  apply negb_true_iff in Hc. by rewrite Hc.
Qed.

(** A string without white space is its own strip. *)
Lemma strip_nospace s : all_chars nospace s = true → Py.strip s = s.
Proof.
  intros H. unfold Py.strip.
  assert (Py.lstrip s = s) as ->; [|by apply rstrip_nospace].
  destruct s as [|c t]; [done|]. simpl in *.
  apply andb_true_iff in H as [Hc _]. unfold nospace in Hc.
  apply negb_true_iff in Hc. by rewrite Hc.
Qed.

Lemma all_chars_impl (p q : ascii → bool) s :
  (∀ c, p c = true → q c = true) → all_chars p s = true → all_chars q s = true.
Proof.
  intros Hpq. induction s as [|c t IH]; [done|]. simpl.
  intros [Hc Ht]%andb_true_iff. by rewrite (Hpq c Hc), IH.
Qed.

Lemma dotted_nospace s : dotted_number s → all_chars nospace s = true.
Proof.
  intros (a & b & -> & [_ Ha] & [_ Hb]).
  assert (Hd : ∀ c, Py.isdecimal c = true → nospace c = true).
  { intros c Hc. unfold nospace.
    by rewrite (PatternFacts.isdecimal_not_space c Hc). }
  rewrite !all_chars_app, (all_chars_impl _ _ a Hd Ha),
    (all_chars_impl _ _ b Hd Hb). done.
Qed.

Lemma strip_dotted s : dotted_number s → Py.strip s = s.
Proof. intros H. by apply strip_nospace, dotted_nospace. Qed.

(** A stripped string that "^\d+\.\d+$" matches is a dotted number (the
    [$] cannot stand before a final newline, which [strip] removes). *)
Lemma cell_number_dotted s m :
  Re.rmatch cell_number_pattern (Py.strip s) = Some m →
  dotted_number (Py.strip s).
Proof.
  intros (st & Hden & _)%ReFacts.rmatch_Some.
  destruct Hden as (m1 & [_ ->] & Hrest).
  assert (HX : ∃ mid, Re.den (Re.seqs [Re.plus Re.digit; Re.chr ".";
                                        Re.plus Re.digit])
                        (Re.MState 0 (Py.strip s) []) mid
                      ∧ Re.at_eol (Re.ms_rest mid) = true).
  { destruct Hrest as (a & Ha & b & Hb & c & Hc & d & [He ->] & ->).
    exists c. split; [|done]. exists a. split; [done|].
    exists b. split; [done|]. exists c. split; [done|]. done. }
  destruct HX as (mid & (w & E & R%reads_dotted & _)%den_reads & Heol).
  simpl in E. destruct (Re.ms_rest mid) as [|c [|]] eqn:Hr; [| |done].
  - rewrite E, app_nil_r_s. done.
  - simpl in Heol. apply Ascii.eqb_eq in Heol as ->.
    apply strip_last in E. done.
Qed.

(** ** The form of the extracted items *)

Lemma status_values_empty : "" ∈ status_values.
Proof. unfold status_values. set_solver. Qed.

Lemma strip_status_value text s :
  (strip_status text).2 = Some s → s ∈ status_values.
Proof.
  intros H. pose proof (strip_status_tokens text) as Ht. rewrite H in Ht.
  unfold status_values. set_solver.
Qed.

Lemma split_comment_status d s :
  s ∈ status_values → (split_comment d s).2 ∈ status_values.
Proof.
  intros Hs. unfold split_comment.
  destruct (Py.contains ":" d); [|done].
  destruct (Py.split1 ":" d) as [before after].
  destruct after as [c|]; simpl; [|done].
  destruct (Py.truthy (Py.strip c)); [|done].
  destruct (Py.truthy s); [done|].
  destruct (strip_status (Py.strip c)) as [c' [s'|]] eqn:E; simpl; [|done].
  apply (strip_status_value (Py.strip c)). by rewrite E.
Qed.

Lemma parse_item_shape line m num desc cmt sts :
  Re.rmatch item_number_pattern line = Some m →
  parse_item m = Ok (num, desc, cmt, sts) →
  dotted_number num ∧ sts ∈ status_values.
Proof.
  intros (g1 & g2 & H1 & Hd & H2 & H3)%item_pattern_texts.
  unfold parse_item. rewrite H1, H2. simpl.
  rewrite (strip_dotted g1 Hd).
  set (s0 := match Re.group m 3 with
             | Some g3 => if Py.truthy g3 then Py.upper g3 else ""
             | None => ""
             end).
  assert (Hs0 : s0 ∈ status_values).
  { subst s0. destruct H3 as [->|(g3 & -> & Hg3)]; [apply status_values_empty|].
    destruct (Py.truthy g3); [|apply status_values_empty].
    by apply upper_status_pattern. }
  clearbody s0.
  set (p := if Py.truthy s0 then (Py.strip g2, s0)
            else match strip_status (Py.strip g2) with
                 | (d, Some s) => (d, s)
                 | (d, None) => (d, s0)
                 end).
  assert (Hp : p.2 ∈ status_values).
  { subst p. destruct (Py.truthy s0); [done|].
    destruct (strip_status (Py.strip g2)) as [d [s|]] eqn:E; simpl; [|done].
    apply (strip_status_value (Py.strip g2)). by rewrite E. }
  clearbody p. destruct p as [d s]. simpl in Hp.
  pose proof (split_comment_status d s Hp) as Hsc.
  destruct (split_comment d s) as [[d' c'] s']. simpl in *.
  intros [= <- <- <- <-]. done.
Qed.

Lemma good_item_merge num desc cmt items items' :
  merge_items num desc cmt items = Ok items' →
  Forall good_item items → Forall good_item items'.
Proof.
  intros Happ%merge_items_appends Hgood.
  induction Happ as [|o n os ns (Hn & Hs & Hd) _ IH]; [done|].
  apply Forall_cons in Hgood as [(H1 & H2 & H3) Hgood].
  constructor; [|by apply IH].
  split; [by rewrite Hn|]. split; [|by rewrite Hs].
  destruct Hd as [->|(d & _ & ->)]; eauto.
Qed.

Lemma shaped_initial : shaped initial_state.
Proof. split; simpl; [constructor|done|done]. Qed.

Lemma shaped_flush st : shaped st → shaped (flush st).
Proof.
  intros [Hitems Hcur Hsts].
  destruct (flush_current st) as (Hn & Hd & _ & Hs).
  split.
  - rewrite flush_items. apply Forall_app. split; [done|].
    destruct (pending_cases st) as [->|(n & -> & Hc & _)]; [constructor|].
    constructor; [|constructor]. destruct (Hcur n Hc) as [Hdot Hdesc].
    split; [done|]. split; [done|]. simpl.
    destruct (status_var st) as [s|] eqn:E; [by apply Hsts|].
    apply status_values_empty.
  - intros n. rewrite Hn, Hd. apply Hcur.
  - intros s. rewrite Hs. apply Hsts.
Qed.

Lemma shaped_continuation st line st' :
  shaped st → is_Some (current_item_number st) →
  continuation_line st line = Ok st' → shaped st'.
Proof.
  intros [Hitems Hcur Hsts] [n Hn]. destruct (Hcur n Hn) as [Hdot [d Hd]].
  unfold continuation_line.
  destruct (Re.search status_end_pattern line) as [m|] eqn:Hm.
  - destruct (status_end_token _ _ Hm) as (g & -> & Hg). simpl.
    apply upper_status_pattern in Hg as [Hg _].
    destruct (Py.otruthy (current_comment st)).
    + intros (c & _ & [= <-])%bind_Ok.
      split; simpl; [done| |by intros s [= <-]].
      intros n'. rewrite Hn, Hd. intros [= <-]. eauto.
    + rewrite Hd. simpl. intros [= <-].
      split; simpl; [done| |by intros s [= <-]].
      intros n'. rewrite Hn. intros [= <-]. eauto.
  - destruct (Py.otruthy (current_comment st)).
    + intros (c & _ & [= <-])%bind_Ok.
      split; simpl; [done| |done].
      intros n'. rewrite Hn, Hd. intros [= <-]. eauto.
    + rewrite Hd. simpl. intros [= <-].
      split; simpl; [done| |done].
      intros n'. rewrite Hn. intros [= <-]. eauto.
Qed.

Lemma shaped_item_line st line st' :
  shaped st → item_line st line = Ok st' → shaped st'.
Proof.
  intros Hsh. unfold item_line.
  destruct (Re.rmatch item_number_pattern line) as [m|] eqn:Hm;
    [|by intros [= <-]].
  intros ([[[num desc] cmt] sts] & Hparse & H)%bind_Ok.
  destruct (parse_item_shape _ _ _ _ _ _ Hm Hparse) as [Hdot Hsts].
  apply shaped_flush in Hsh as [Hitems Hcur Hst].
  assert (Hc : ∀ n, Some num = Some n →
                 dotted_number n ∧ is_Some (Some desc))
    by (intros n [= <-]; eauto).
  assert (Hs : ∀ s, Some sts = Some s → s ∈ status_values)
    by (by intros s [= <-]).
  case_bool_decide.
  - apply bind_Ok in H as (items' & Hmerge & [= <-]).
    split; simpl; [by eapply good_item_merge|done|done].
  - destruct (Py.truthy sts); injection H as <-; split; simpl; try done.
    apply Forall_app. split; [done|]. constructor; [|done].
    split; [done|]. split; [eauto|done].
Qed.

Lemma shaped_text_line st line st' :
  shaped st → text_line st line = Ok st' → shaped st'.
Proof.
  intros Hsh. unfold text_line.
  destruct (negb (Py.truthy (Py.strip line))); [by intros [= <-]|].
  destruct (Py.contains _ _ || Py.contains _ _); [by intros [= <-]|].
  destruct (is_continuation st line) eqn:Hc; [|by apply shaped_item_line].
  apply is_continuation_true in Hc as [Hcur _].
  apply shaped_continuation; [done|]. by apply otruthy_is_Some.
Qed.

Lemma status_from_cells_value cells :
  ∃ s, status_from_cells cells = Ok s ∧ s ∈ status_values.
Proof.
  induction cells as [|cell cells IH]; simpl.
  - eauto using status_values_empty.
  - destruct (Py.otruthy cell); [|done].
    destruct (Re.search status_cell_pattern (default "" cell)) as [m|] eqn:Hm;
      [|done].
    destruct (status_cell_token _ _ Hm) as (g & -> & Hg). simpl.
    apply upper_status_pattern in Hg as [Hg _]. eauto.
Qed.

Lemma shaped_table_row st row st' :
  shaped st → table_row st row = Ok st' → shaped st'.
Proof.
  intros [Hitems Hcur Hst]. unfold table_row.
  destruct row as [|first [|second others]]; try (by intros [= <-]).
  destruct (negb (Py.otruthy first)); [by intros [= <-]|].
  destruct (Re.rmatch cell_number_pattern _) as [m|] eqn:Hm;
    [|by intros [= <-]].
  apply cell_number_dotted in Hm as Hdot.
  destruct (table_split_comment second) as [desc cmt].
  intros (d & _ & H)%bind_Ok.
  destruct (strip_status d) as [d' found] eqn:Hss.
  apply bind_Ok in H as (sts & Hsts & H).
  assert (Hv : sts ∈ status_values).
  { destruct found as [s|].
    - injection Hsts as <-. apply (strip_status_value d). by rewrite Hss.
    - destruct (status_from_cells_value others) as (s & E & Hs).
      rewrite E in Hsts. by injection Hsts as <-. }
  assert (Hs : ∀ s, Some sts = Some s → s ∈ status_values)
    by (by intros s [= <-]).
  case_bool_decide; injection H as <-; split; simpl; try done.
  apply Forall_app. split; [done|]. constructor; [|done].
  split; [done|]. split; [eauto|done].
Qed.

(** Every run that returns gives items of the expected form. *)
Lemma extract_good pdf items :
  extract_inspection_table pdf = Ok items → Forall good_item items.
Proof.
  unfold extract_inspection_table.
  intros (st1 & H1 & (st2 & H2 & [= <-])%bind_Ok)%bind_Ok.
  apply sh_items, shaped_flush.
  revert H2. apply for_each_inv.
  { intros st page st' Hsh. unfold table_page. revert st st' Hsh.
    apply for_each_inv. intros st table st' Hsh. revert st st' Hsh.
    apply for_each_inv. apply shaped_table_row. }
  revert H1. apply for_each_inv; [|apply shaped_initial].
  intros st page st' Hsh. unfold text_page. revert st st' Hsh.
  apply for_each_inv. apply shaped_text_line.
Qed.

(** ** What the extraction depends on, and when it raises *)

Lemma for_each_app {S A} (body : S → A → result S) l1 l2 st :
  for_each body st (l1 ++ l2)
  = for_each body st l1 ≫= λ st', for_each body st' l2.
Proof.
  revert st. induction l1 as [|a l1 IH]; intros st; [done|].
  cbn [for_each app]. destruct (body st a) as [st'|e]; [apply IH|done].
Qed.

Lemma for_each_concat {S A} (body : S → A → result S) (ls : list (list A)) :
  ∀ st, for_each (for_each body) st ls = for_each body st (concat ls).
Proof.
  induction ls as [|l ls IH]; intros st; [done|].
  cbn [concat]. rewrite for_each_app. cbn [for_each].
  destruct (for_each body st l) as [st'|e]; [apply IH|done].
Qed.

Lemma text_pass_flat st pdf :
  text_pass st pdf = for_each text_line st (text_lines pdf).
Proof.
  unfold text_pass. revert st.
  induction pdf as [|page pdf IH]; intros st; [done|].
  rewrite text_lines_cons, for_each_app. cbn [for_each].
  change (text_page st page)
    with (for_each text_line st (Py.split "010" (extract_text page))).
  destruct (for_each text_line st _) as [st'|e]; [apply IH|done].
Qed.

Lemma all_rows_cons page pdf :
  all_rows (page :: pdf) = concat (extract_tables page) ++ all_rows pdf.
Proof.
  unfold all_rows. cbn [mbind list_bind]. f_equal.
Qed.

Lemma table_pass_flat st pdf :
  table_pass st pdf = for_each table_row st (all_rows pdf).
Proof.
  unfold table_pass. revert st.
  induction pdf as [|page pdf IH]; intros st; [done|].
  rewrite all_rows_cons, for_each_app. cbn [for_each].
  change (table_page st page)
    with (for_each (for_each table_row) st (extract_tables page)).
  rewrite for_each_concat.
  destruct (for_each table_row st _) as [st'|e]; [apply IH|done].
Qed.

Lemma text_line_skip st line :
  significant line = false → text_line st line = Ok st.
Proof.
  unfold significant, text_line. intros H.
  destruct (Py.truthy (Py.strip line)); [|done]. simpl in *.
  apply negb_false_iff in H. by rewrite H.
Qed.

Lemma text_lines_significant lines : ∀ st,
  for_each text_line st lines
  = for_each text_line st (filter (λ line, significant line = true) lines).
Proof.
  induction lines as [|line lines IH]; intros st; [done|].
  rewrite filter_cons. destruct (decide (significant line = true)) as [H|H].
  - cbn [for_each]. destruct (text_line st line); [apply IH|done].
  - apply not_true_is_false in H. cbn [for_each].
    rewrite (text_line_skip st line H). apply IH.
Qed.

Lemma table_split_comment_Some d :
  is_Some (table_split_comment (Some d)).1.
Proof.
  unfold table_split_comment.
  destruct (Py.truthy d && Py.contains ":" d); [|by eauto].
  destruct (Py.split1 ":" d) as [before [c|]]; simpl; [|by eauto].
  destruct (Py.truthy (Py.strip c)); simpl; eauto.
Qed.

Lemma table_row_raising st row :
  raising_row row = true → table_row st row = Raise AttributeError.
Proof.
  unfold raising_row, table_row.
  destruct row as [|first [|[d|] others]]; try done.
  intros [H1 H2]%andb_true_iff. rewrite H1. simpl.
  apply bool_decide_eq_true in H2 as [m ->]. done.
Qed.

Lemma table_row_returning st row :
  raising_row row = false → ∃ st', table_row st row = Ok st'.
Proof.
  unfold raising_row, table_row.
  destruct row as [|first [|second others]]; try (by eauto).
  destruct (Py.otruthy first) eqn:H1; simpl; [|by eauto].
  destruct (Re.rmatch cell_number_pattern _) as [m|] eqn:Hm; [|by eauto].
  destruct second as [d|].
  2: { intros H. apply bool_decide_eq_false in H. destruct H. eauto. }
  intros _.
  destruct (table_split_comment_Some d) as [d0 Hd0].
  destruct (table_split_comment (Some d)) as [desc cmt]. simpl in Hd0.
  subst desc. simpl.
  destruct (strip_status d0) as [d' [s|]]; simpl.
  - case_bool_decide; eauto.
  - destruct (status_from_cells_value others) as (s & -> & _). simpl.
    case_bool_decide; eauto.
Qed.

Lemma table_rows_outcome rows : ∀ st,
  (∃ st', for_each table_row st rows = Ok st'
          ∧ Forall (λ row, raising_row row = false) rows)
  ∨ (for_each table_row st rows = Raise AttributeError
     ∧ Exists (λ row, raising_row row = true) rows).
Proof.
  induction rows as [|row rows IH]; intros st; cbn [for_each].
  - left. eauto.
  - destruct (raising_row row) eqn:Hr.
    + right. rewrite (table_row_raising st row Hr). split; [done|].
      by constructor.
    + destruct (table_row_returning st row Hr) as [st1 ->]. simpl.
      destruct (IH st1) as [(st' & -> & Hall)|[-> Hex]].
      * left. eauto.
      * right. split; [done|]. by constructor 2.
Qed.

Lemma extract_outcome pdf :
  (∃ items, extract_inspection_table pdf = Ok items
            ∧ Forall (λ row, raising_row row = false) (all_rows pdf))
  ∨ (extract_inspection_table pdf = Raise AttributeError
     ∧ Exists (λ row, raising_row row = true) (all_rows pdf)).
Proof.
  unfold extract_inspection_table.
  destruct (text_pass_ok pdf initial_state [] wf_initial eq_refl)
    as (st1 & -> & _). simpl. rewrite table_pass_flat.
  destruct (table_rows_outcome (all_rows pdf) st1) as [(st' & -> & H)|[-> H]].
  - left. eauto.
  - right. done.
Qed.

(** X1: every item number [extract_inspection_table] returns has the form
    digits, dot, digits. *)
Theorem item_numbers_dotted pdf items :
  extract_inspection_table pdf = Ok items →
  Forall (λ item, dotted_number (item_number item)) items.
Proof.
  intros H%extract_good. eapply Forall_impl; [exact H|].
  by intros item (? & _).
Qed.

Lemma item_numbers_dotted_witness :
  Forall (λ item, dotted_number (item_number item))
    [MkItem "1.01" (Some "A B") None "OK"; MkItem "1.02" (Some "Z") None ""].
Proof.
  apply (item_numbers_dotted
    [MkPage ("1.01 A OK" +:+ String "010" "1.01 B" +:+ String "010" "1.02 Z")
       []]).
  vm_compute. reflexivity.
Defined.

(** X2: the status of every returned item is the empty string or one of
    "OK", "NOT OK", "NOK", "N/A", "NOT APPLICABLE". *)
Theorem statuses_known pdf items :
  extract_inspection_table pdf = Ok items →
  Forall (λ item, status item ∈ status_values) items.
Proof.
  intros H%extract_good. eapply Forall_impl; [exact H|].
  by intros item (_ & _ & ?).
Qed.

Lemma statuses_known_witness :
  Forall (λ item, status item ∈ status_values)
    [MkItem "1.02" (Some "Check bolt") (Some "loose N") ""].
Proof.
  apply (statuses_known
    [MkPage "" [[[Some "1.02"; Some "Check bolt: loose NOK"]]]]).
  vm_compute. reflexivity.
Defined.

(** X3: no returned item has [None] as description. *)
Theorem descriptions_present pdf items :
  extract_inspection_table pdf = Ok items →
  Forall (λ item, is_Some (description item)) items.
Proof.
  intros H%extract_good. eapply Forall_impl; [exact H|].
  by intros item (_ & ? & _).
Qed.

Lemma descriptions_present_witness :
  Forall (λ item, is_Some (description item))
    [MkItem "1.01" (Some "Check torque continues on next line") None "OK"].
Proof.
  apply (descriptions_present
    [MkPage ("1.01 Check torque" +:+ String "010" "continues on next line OK")
       []]).
  vm_compute. reflexivity.
Defined.

(** X4: [extract_inspection_table] raises exactly when some table row has
    at least two cells, an item number in the first and [None] in the
    second; the exception is then [AttributeError]. *)
Theorem extract_raises_iff pdf :
  (extract_inspection_table pdf = Raise AttributeError
   ↔ Exists (λ row, raising_row row = true) (all_rows pdf))
  ∧ ((∃ items, extract_inspection_table pdf = Ok items)
     ↔ Forall (λ row, raising_row row = false) (all_rows pdf))
  ∧ ∀ e, extract_inspection_table pdf = Raise e → e = AttributeError.
Proof.
  destruct (extract_outcome pdf) as [(items & E & Hall)|[E Hex]]; rewrite E.
  - split; [|split; [|done]].
    + split; [done|]. intros Hex. exfalso.
      apply Exists_exists in Hex as (row & Hin & Hr).
      rewrite Forall_forall in Hall. specialize (Hall row Hin). congruence.
    + split; [done|eauto].
  - split; [done|]. split; [|by intros e [= <-]].
    split; [by intros [? ?]|]. intros Hall. exfalso.
    apply Exists_exists in Hex as (row & Hin & Hr).
    rewrite Forall_forall in Hall. specialize (Hall row Hin). congruence.
Qed.

(** X5: the result depends only on the sequence of lines that are neither
    blank nor marked, and on the sequence of table rows: page breaks, blank
    lines and the lines with a form marker do not matter. *)
Theorem extract_depends_on pdf1 pdf2 :
  significant_lines pdf1 = significant_lines pdf2 →
  all_rows pdf1 = all_rows pdf2 →
  extract_inspection_table pdf1 = extract_inspection_table pdf2.
Proof.
  intros Hl Hr. unfold extract_inspection_table.
  rewrite !text_pass_flat, (text_lines_significant (text_lines pdf1)),
    (text_lines_significant (text_lines pdf2)).
  fold (significant_lines pdf1). fold (significant_lines pdf2). rewrite Hl.
  destruct (for_each text_line initial_state _) as [st|e]; [|done]. simpl.
  by rewrite !table_pass_flat, Hr.
Qed.

Lemma extract_depends_on_witness :
  extract_inspection_table
    [MkPage ("1.01 Check torque" +:+ String "010" ""
             +:+ String "010" "continues OK") [];
     MkPage "Service Inspection Form page 2" [[[Some "1.02"; Some "Bolt"]]]]
  = extract_inspection_table
      [MkPage "1.01 Check torque" [];
       MkPage "continues OK" [[]; [[Some "1.02"; Some "Bolt"]]]].
Proof.
  apply extract_depends_on; vm_compute; reflexivity.
Defined.

(** ** Compliance ratio *)

(** *** Rounding to nearest does not pass a number of the format *)

Section shifts.
Local Open Scope Z_scope.

Lemma shr_1_within mrs K : within mrs (2 * K) → within (shr_1 mrs) K.
Proof.
  destruct mrs as [m r s]. unfold within. simpl.
  intros (H0 & H1 & H2).
  destruct m as [|[p|p|]|p]; simpl; try lia;
    destruct r, s; simpl in *; try lia.
Qed.

Lemma iter_pos_shr_within p : ∀ mrs K,
  within mrs (2 ^ Zpos p * K) → within (SpecFloat.iter_pos shr_1 p mrs) K.
Proof.
  induction p as [p IH|p IH|]; intros mrs K; cbn [SpecFloat.iter_pos].
  - intros H. apply IH, IH, shr_1_within.
    assert (E : 2 ^ Z.pos p~1 = 2 * (2 ^ Z.pos p * 2 ^ Z.pos p)).
    { rewrite <- Z.pow_add_r, <- Z.pow_succ_r by lia. f_equal. lia. }
    rewrite E in H.
    by replace (2 * (2 ^ Z.pos p * (2 ^ Z.pos p * K)))
      with (2 * (2 ^ Z.pos p * 2 ^ Z.pos p) * K) by ring.
  - intros H. apply IH, IH.
    assert (E : 2 ^ Z.pos p~0 = 2 ^ Z.pos p * 2 ^ Z.pos p).
    { rewrite <- Z.pow_add_r by lia. f_equal. lia. }
    rewrite E in H.
    by replace (2 ^ Z.pos p * (2 ^ Z.pos p * K))
      with (2 ^ Z.pos p * 2 ^ Z.pos p * K) by ring.
  - intros H. apply shr_1_within. by rewrite Z.pow_1_r in H.
Qed.

Lemma digits2_pos_bounds p :
  2 ^ (Zpos (digits2_pos p) - 1) ≤ Zpos p < 2 ^ Zpos (digits2_pos p).
Proof.
  induction p as [p IH|p IH|]; simpl digits2_pos.
  - rewrite Pos2Z.inj_succ.
    replace (Z.succ (Z.pos (digits2_pos p)) - 1)
      with (Z.pos (digits2_pos p) - 1 + 1) by lia.
    rewrite Z.pow_succ_r, Z.pow_add_r, Z.pow_1_r by lia. lia.
  - rewrite Pos2Z.inj_succ.
    replace (Z.succ (Z.pos (digits2_pos p)) - 1)
      with (Z.pos (digits2_pos p) - 1 + 1) by lia.
    rewrite Z.pow_succ_r, Z.pow_add_r, Z.pow_1_r by lia. lia.
  - simpl. lia.
Qed.

Lemma Zdigits2_le m k : 0 ≤ m < 2 ^ k → 0 ≤ k → Zdigits2 m ≤ k.
Proof.
  intros [H0 H1] Hk. destruct m as [|p|p]; simpl; [done| |lia].
  pose proof (digits2_pos_bounds p) as [H2 _].
  assert (H : 2 ^ (Z.pos (digits2_pos p) - 1) < 2 ^ k) by lia.
  apply Z.pow_lt_mono_r_iff in H; lia.
Qed.

Lemma round_within mrs K :
  within mrs K →
  0 ≤ round_nearest_even (shr_m mrs) (loc_of_shr_record mrs) ≤ K.
Proof.
  destruct mrs as [m [] []]; unfold within; simpl; intros (H0 & H1 & H2);
    try destruct (Z.even m); lia.
Qed.

End shifts.

Section rounding_bound.
Local Open Scope Z_scope.
Variables prec emax : Z.
Variables Bm Be : Z.
Hypothesis HBm : 0 < Bm < 2 ^ prec.
Hypothesis Hprec : 0 < prec.
Hypothesis HBe1 : emin prec emax ≤ Be.
Hypothesis HBe2 : Be ≤ emax - prec.

Lemma fexp_le m e : 0 ≤ m → e ≤ Be → m ≤ mantissa_at Bm Be e →
  fexp prec emax (Zdigits2 m + e) ≤ Be.
Proof.
  intros H0 He Hm. unfold fexp. apply Z.max_lub; [|done].
  assert (Hd : Zdigits2 m ≤ prec + (Be - e)).
  { apply Zdigits2_le; [|lia]. split; [done|].
    rewrite Z.pow_add_r by lia. unfold mantissa_at in Hm.
    assert (0 < 2 ^ (Be - e)) by (apply Z.pow_pos_nonneg; lia). nia. }
  lia.
Qed.

Lemma shr_fexp_within m e l :
  0 ≤ m → e ≤ Be → m ≤ mantissa_at Bm Be e →
  (l ≠ loc_Exact → m + 1 ≤ mantissa_at Bm Be e) →
  ∃ mrs' e', shr_fexp prec emax m e l = (mrs', e')
             ∧ e' ≤ Be ∧ within mrs' (mantissa_at Bm Be e').
Proof.
  intros H0 He Hm Hl.
  assert (Hw : within (shr_record_of_loc m l) (mantissa_at Bm Be e)).
  { unfold within. destruct l as [|[]]; simpl; (split; [done|]);
      (split; [done|]); intros; try apply Hl; done. }
  pose proof (fexp_le m e H0 He Hm) as Hf.
  unfold shr_fexp, shr.
  destruct (fexp prec emax (Zdigits2 m + e) - e) as [|n|n] eqn:En;
    [eauto|..|eauto].
  eexists _, _. split; [done|]. split; [lia|].
  apply iter_pos_shr_within.
  replace (2 ^ Z.pos n * mantissa_at Bm Be (e + Z.pos n))
    with (mantissa_at Bm Be e); [done|].
  unfold mantissa_at.
  replace (Be - e) with (Z.pos n + (Be - (e + Z.pos n))) by lia.
  rewrite Z.pow_add_r by lia. ring.
Qed.

(** Rounding does not pass a bound that is itself a number of the format:
    what is at most [Bm * 2 ^ Be] is rounded to at most [Bm * 2 ^ Be]. *)
Lemma binary_round_aux_le sx mx ex lx :
  0 ≤ mx → ex ≤ Be → mx ≤ mantissa_at Bm Be ex →
  (lx ≠ loc_Exact → mx + 1 ≤ mantissa_at Bm Be ex) →
  binary_round_aux prec emax sx mx ex lx = S754_zero sx
  ∨ ∃ m e, binary_round_aux prec emax sx mx ex lx = S754_finite sx m e
           ∧ e ≤ Be ∧ Zpos m ≤ mantissa_at Bm Be e.
Proof.
  intros H0 He Hm Hl. unfold binary_round_aux.
  destruct (shr_fexp_within mx ex lx H0 He Hm Hl)
    as (mrs1 & e1 & -> & He1 & Hw1).
  apply round_within in Hw1 as [Hr0 Hr1].
  destruct (shr_fexp_within _ e1 loc_Exact Hr0 He1 Hr1)
    as (mrs2 & e2 & -> & He2 & Hw2 & Hw2' & _); [done|].
  destruct (shr_m mrs2) as [|m|m]; [by left| |lia].
  right. rewrite (proj2 (Z.leb_le e2 (emax - prec))) by lia. eauto.
Qed.

End rounding_bound.

Section float_ratio.
Local Open Scope Z_scope.

Lemma new_location_exact n r : new_location n r ≠ loc_Exact → r ≠ 0.
Proof.
  intros H ->. apply H.
  unfold new_location, new_location_even, new_location_odd.
  by destruct (Z.even n).
Qed.

(** The quotient of [ma] by a larger [mb], before rounding, is at most 1. *)
Lemma div_core_le prec emax ma mb :
  Zpos ma ≤ Zpos mb →
  ∃ q e l,
    SFdiv_core_binary prec emax (Zpos ma) 0 (Zpos mb) 0 = (q, e, l)
    ∧ 0 ≤ q ∧ e ≤ 0 ∧ q ≤ 1 * 2 ^ (0 - e)
    ∧ (l ≠ loc_Exact → q + 1 ≤ 1 * 2 ^ (0 - e)).
Proof.
  intros Hle. unfold SFdiv_core_binary.
  set (e' := Z.min _ (0 - 0)).
  assert (He' : e' ≤ 0) by (subst e'; lia).
  set (m' := match 0 - 0 - e' with
             | 0 => Z.pos ma
             | Z.pos _ => Z.shiftl (Z.pos ma) (0 - 0 - e')
             | Z.neg _ => 0
             end).
  assert (Hm' : m' = Z.pos ma * 2 ^ (0 - e')).
  { subst m'. replace (0 - 0 - e') with (0 - e') by lia.
    destruct (0 - e') as [|s|s] eqn:Es; [lia| |lia].
    by rewrite Z.shiftl_mul_pow2. }
  pose proof (Z_div_mod m' (Z.pos mb) eq_refl) as Hdiv.
  destruct (Z.div_eucl m' (Z.pos mb)) as [q r].
  destruct Hdiv as [Hq Hr].
  assert (Hp : 0 < 2 ^ (0 - e')) by (apply Z.pow_pos_nonneg; lia).
  eexists _, _, _. split; [done|].
  assert (H0 : 0 ≤ q) by nia.
  split; [done|]. split; [done|]. split; [nia|].
  intros Hr0%new_location_exact. nia.
Qed.

Lemma int_truediv_le a b :
  0 ≤ a ≤ b → 0 < b →
  int_truediv a b = S754_zero false
  ∨ ∃ m e, int_truediv a b = S754_finite false m e
           ∧ e ≤ 0 ∧ Zpos m ≤ 1 * 2 ^ (0 - e).
Proof.
  intros [Ha Hab] Hb. unfold int_truediv.
  destruct b as [|mb|mb]; [lia| |lia].
  destruct a as [|ma|ma]; [by left| |lia].
  cbn [int_operand SFdiv xorb].
  destruct (div_core_le float_prec float_emax ma mb Hab)
    as (q & e & l & -> & H0 & He & Hq & Hl).
  apply (binary_round_aux_le float_prec float_emax 1 0); try done.
  all: unfold float_prec, float_emax, emin; lia.
Qed.

Lemma float_of_int_100 :
  float_of_int 100 = S754_finite false 7036874417766400 (-46).
Proof. reflexivity. Qed.

Lemma float_mul_100_le x :
  (x = S754_zero false
   ∨ ∃ m e, x = S754_finite false m e ∧ e ≤ 0 ∧ Zpos m ≤ 1 * 2 ^ (0 - e)) →
  float_mul_int x 100 = S754_zero false
  ∨ ∃ m e, float_mul_int x 100 = S754_finite false m e
           ∧ e ≤ 2 ∧ Zpos m ≤ 25 * 2 ^ (2 - e).
Proof.
  unfold float_mul_int. rewrite float_of_int_100.
  intros [->|(m & e & -> & He & Hm)]; [by left|].
  cbn [SFmul xorb].
  apply (binary_round_aux_le float_prec float_emax 25 2); try done.
  all: try (unfold float_prec, float_emax, emin; lia).
  unfold mantissa_at. rewrite Pos2Z.inj_mul.
  replace (2 - (e + -46)) with (48 + (0 - e)) by lia.
  rewrite Z.pow_add_r by lia.
  assert (Hp : 0 < 2 ^ (0 - e)) by (apply Z.pow_pos_nonneg; lia).
  change (Z.pos 7036874417766400) with (25 * 2 ^ 48). nia.
Qed.

Lemma float_value_le x :
  (x = S754_zero false
   ∨ ∃ m e, x = S754_finite false m e ∧ e ≤ 2 ∧ Zpos m ≤ 25 * 2 ^ (2 - e)) →
  ∃ q, float_value x = Some q ∧ (0 <= q)%Q ∧ (q <= 100)%Q.
Proof.
  intros [->|(m & e & -> & He & Hm)]; cbn [float_value].
  { eexists. split; [done|]. by split. }
  eexists. split; [done|].
  assert (Hp : (0 < 2 ^ e)%Q) by (by apply Qpower_0_lt).
  assert (H0 : (0 < inject_Z (Z.pos m))%Q) by (unfold Qlt; simpl; lia).
  split; [apply Qmult_le_0_compat; lra|].
  apply Qle_trans with (inject_Z (25 * 2 ^ (2 - e)) * 2 ^ e)%Q.
  { apply Qmult_le_compat_r; [|lra]. unfold Qle. simpl. lia. }
  rewrite inject_Z_mult, Zpower_Qpower by lia.
  rewrite <- Qmult_assoc, <- Qpower_plus by done.
  replace (2 - e + e) with 2 by lia. by vm_compute.
Qed.

(** [(ok / total) * 100] lies between 0 and 100 whenever
    [0 <= ok <= total] and [total > 0]. *)
Lemma ratio_bounds ok total :
  0 ≤ ok ≤ total → 0 < total →
  ∃ q, float_value (float_mul_int (int_truediv ok total) 100) = Some q
       ∧ (0 <= q)%Q ∧ (q <= 100)%Q.
Proof.
  intros H1 H2. by apply float_value_le, float_mul_100_le, int_truediv_le.
Qed.

(** [n / n] is 1.0, and [(n / n) * 100] is 100.0. *)
Lemma int_truediv_diag n :
  0 < n → int_truediv n n = S754_finite false 4503599627370496 (-52).
Proof.
  intros Hn. destruct n as [|m|m]; [lia| |lia].
  unfold int_truediv. cbn [int_operand SFdiv xorb].
  assert (E : SFdiv_core_binary float_prec float_emax (Z.pos m) 0 (Z.pos m) 0
              = (2 ^ 53, -53, loc_Exact)).
  { unfold SFdiv_core_binary.
    replace (Zdigits2 (Z.pos m) + 0 - (Zdigits2 (Z.pos m) + 0)) with 0 by lia.
    change (Z.min (fexp float_prec float_emax 0) (0 - 0)) with (-53).
    change (0 - 0 - -53) with 53.
    rewrite Z.shiftl_mul_pow2 by lia.
    pose proof (Z_div_mod (Z.pos m * 2 ^ 53) (Z.pos m) eq_refl) as Hdiv.
    destruct (Z.div_eucl _ _) as [q r]. destruct Hdiv as [Hq Hr].
    assert (q = 2 ^ 53 ∧ r = 0) as [-> ->].
    { generalize dependent (2 ^ 53). intros c Hq.
      assert (q = c); [|subst; lia].
      destruct (Z.lt_trichotomy q c) as [H|[H|H]]; [|done|].
      - assert (Z.pos m * (q + 1) ≤ Z.pos m * c)
          by (apply Z.mul_le_mono_nonneg_l; lia). lia.
      - assert (Z.pos m * (c + 1) ≤ Z.pos m * q)
          by (apply Z.mul_le_mono_nonneg_l; lia). lia. }
    unfold new_location, new_location_even, new_location_odd.
    by destruct (Z.even (Z.pos m)). }
  rewrite E. reflexivity.
Qed.

End float_ratio.

(** *** Rounding to nearest stays near the number rounded *)

Section rounding_error.
Local Open Scope Z_scope.

Lemma located_comp mrs y y' : (y == y')%Q → located mrs y → located mrs y'.
Proof.
  intros E.
  destruct mrs as [m [] []]; unfold located; cbn [shr_m shr_r shr_s]; lra.
Qed.

Lemma inject_Z_xO p : (inject_Z (Z.pos p~0) == 2 * inject_Z (Z.pos p))%Q.
Proof. by rewrite Pos2Z.inj_xO, inject_Z_mult. Qed.

Lemma inject_Z_xI p : (inject_Z (Z.pos p~1) == 2 * inject_Z (Z.pos p) + 1)%Q.
Proof. by rewrite Pos2Z.inj_xI, inject_Z_plus, inject_Z_mult. Qed.

Lemma shr_1_located mrs y :
  0 ≤ shr_m mrs → located mrs y → located (shr_1 mrs) (y * (1 # 2)).
Proof.
  destruct mrs as [m r s]. cbn [shr_m]. intros Hm.
  destruct m as [|[p|p|]|p]; [| | | |lia].
  - destruct r, s; unfold located; cbn [shr_1 shr_m shr_r shr_s orb];
      change (inject_Z 0) with 0%Q; lra.
  - pose proof (inject_Z_xI p).
    destruct r, s; unfold located; cbn [shr_1 shr_m shr_r shr_s orb]; lra.
  - pose proof (inject_Z_xO p).
    destruct r, s; unfold located; cbn [shr_1 shr_m shr_r shr_s orb]; lra.
  - destruct r, s; unfold located; cbn [shr_1 shr_m shr_r shr_s orb];
      change (inject_Z 0) with 0%Q; change (inject_Z 1) with 1%Q; lra.
Qed.

Lemma shr_1_nonneg mrs : 0 ≤ shr_m mrs → 0 ≤ shr_m (shr_1 mrs).
Proof. destruct mrs as [[|[p|p|]|p] r s]; simpl; lia. Qed.

Lemma iter_pos_shr_nonneg p : ∀ mrs,
  0 ≤ shr_m mrs → 0 ≤ shr_m (SpecFloat.iter_pos shr_1 p mrs).
Proof.
  induction p as [p IH|p IH|]; intros mrs H; cbn [SpecFloat.iter_pos];
    auto using shr_1_nonneg.
Qed.

Lemma Qpower_2_neg_double p :
  ((2 ^ Z.neg p) * (2 ^ Z.neg p) == 2 ^ Z.neg p~0)%Q.
Proof.
  rewrite <- Qpower_plus by done.
  by replace (Z.neg p~0) with (Z.neg p + Z.neg p) by lia.
Qed.

Lemma iter_pos_shr_located p : ∀ mrs y,
  0 ≤ shr_m mrs → located mrs y →
  located (SpecFloat.iter_pos shr_1 p mrs) (y * 2 ^ Z.neg p).
Proof.
  induction p as [p IH|p IH|]; intros mrs y H0 H; cbn [SpecFloat.iter_pos].
  - apply (located_comp _ (y * (1 # 2) * 2 ^ Z.neg p * 2 ^ Z.neg p)).
    { rewrite <- !Qmult_assoc, Qpower_2_neg_double.
      replace (Z.neg p~1) with (-1 + Z.neg p~0) by lia.
      rewrite Qpower_plus by done. apply Qmult_comp; [reflexivity|].
      apply Qmult_comp; reflexivity. }
    apply IH; [by apply iter_pos_shr_nonneg, shr_1_nonneg|].
    apply IH; [by apply shr_1_nonneg|]. by apply shr_1_located.
  - apply (located_comp _ (y * 2 ^ Z.neg p * 2 ^ Z.neg p)).
    { by rewrite <- !Qmult_assoc, Qpower_2_neg_double. }
    apply IH; [by apply iter_pos_shr_nonneg|]. by apply IH.
  - by apply shr_1_located.
Qed.

End rounding_error.

Section rounding_error_bound.
Local Open Scope Z_scope.
Variables prec emax : Z.
Variables Bm Be dB : Z.
Hypothesis HBm : 0 < Bm < 2 ^ dB.
Hypothesis HdB : 0 ≤ dB ≤ prec.
Hypothesis Hprec : 0 < prec.
Hypothesis HBe1 : emin prec emax ≤ Be.
Hypothesis HBe2 : Be ≤ emax - prec.

Lemma Bm_lt_prec : 0 < Bm < 2 ^ prec.
Proof.
  split; [lia|]. apply Z.lt_le_trans with (2 ^ dB); [lia|].
  apply Z.pow_le_mono_r; lia.
Qed.

Lemma fexp_le_digits m e :
  0 ≤ m → e ≤ Be → m ≤ mantissa_at Bm Be e →
  fexp prec emax (Zdigits2 m + e) ≤ Z.max (Be + dB - prec) (emin prec emax).
Proof.
  intros H0 He Hm. unfold fexp.
  assert (Hd : Zdigits2 m ≤ dB + (Be - e)).
  { apply Zdigits2_le; [|lia]. split; [done|].
    rewrite Z.pow_add_r by lia. unfold mantissa_at in Hm.
    assert (0 < 2 ^ (Be - e)) by (apply Z.pow_pos_nonneg; lia). nia. }
  lia.
Qed.

Lemma located_of_loc m l y :
  located (shr_record_of_loc m l) y ↔
  match l with
  | loc_Exact => (y == inject_Z m)%Q
  | loc_Inexact Lt => (inject_Z m < y ∧ y < inject_Z m + (1 # 2))%Q
  | loc_Inexact Eq => (y == inject_Z m + (1 # 2))%Q
  | loc_Inexact Gt => (inject_Z m + (1 # 2) < y ∧ y < inject_Z m + 1)%Q
  end.
Proof. by destruct l as [|[]]. Qed.

Lemma shr_fexp_located m e l y :
  0 ≤ m → e ≤ Be → m ≤ mantissa_at Bm Be e →
  (l ≠ loc_Exact → m + 1 ≤ mantissa_at Bm Be e) →
  located (shr_record_of_loc m l) y →
  ∃ mrs' e',
    shr_fexp prec emax m e l = (mrs', e')
    ∧ e ≤ e' ∧ e' ≤ Be
    ∧ e' ≤ Z.max e (Z.max (Be + dB - prec) (emin prec emax))
    ∧ within mrs' (mantissa_at Bm Be e')
    ∧ located mrs' (y * 2 ^ (e - e')).
Proof.
  intros H0 He Hm Hl Hy.
  assert (Hw : within (shr_record_of_loc m l) (mantissa_at Bm Be e)).
  { unfold within. destruct l as [|[]]; simpl; (split; [done|]);
      (split; [done|]); intros; try apply Hl; done. }
  pose proof (fexp_le_digits m e H0 He Hm) as Hf.
  unfold shr_fexp, shr.
  destruct (fexp prec emax (Zdigits2 m + e) - e) as [|n|n] eqn:En.
  - eexists _, _. split; [done|]. repeat (split; [lia|]). split; [done|].
    apply (located_comp _ y); [|done].
    rewrite Z.sub_diag. change (2 ^ 0)%Q with 1%Q. by rewrite Qmult_1_r.
  - eexists _, _. split; [done|]. repeat (split; [lia|]). split.
    + apply iter_pos_shr_within.
      replace (2 ^ Z.pos n * mantissa_at Bm Be (e + Z.pos n))
        with (mantissa_at Bm Be e); [done|].
      unfold mantissa_at.
      replace (Be - e) with (Z.pos n + (Be - (e + Z.pos n))) by lia.
      rewrite Z.pow_add_r by lia. ring.
    + replace (e - (e + Z.pos n)) with (Z.neg n) by lia.
      apply iter_pos_shr_located; [|done]. by destruct l as [|[]].
  - eexists _, _. split; [done|]. repeat (split; [lia|]). split; [done|].
    apply (located_comp _ y); [|done].
    rewrite Z.sub_diag. change (2 ^ 0)%Q with 1%Q. by rewrite Qmult_1_r.
Qed.

Lemma round_located mrs y :
  located mrs y →
  (inject_Z (round_nearest_even (shr_m mrs) (loc_of_shr_record mrs))
     - (1 # 2) <= y
   ∧ y <= inject_Z (round_nearest_even (shr_m mrs) (loc_of_shr_record mrs))
          + (1 # 2))%Q.
Proof.
  destruct mrs as [m r s].
  assert (E : (inject_Z (m + 1) == inject_Z m + 1)%Q)
    by (by rewrite inject_Z_plus).
  destruct r, s; unfold located;
    cbn [shr_m shr_r shr_s loc_of_shr_record round_nearest_even];
    try destruct (Z.even m); lra.
Qed.

Lemma located_floor mrs y :
  located mrs y →
  (inject_Z (shr_m mrs) <= y ∧ y < inject_Z (shr_m mrs) + 1)%Q.
Proof.
  destruct mrs as [m [] []]; unfold located; cbn [shr_m shr_r shr_s]; lra.
Qed.

(** Rounding to nearest moves a number by at most one unit and a half of
    the last place of the result; the exponent of the result is at most
    that of the mantissa given or the one the bound allows. *)
Lemma binary_round_aux_error mx ex lx (x : Q) :
  0 ≤ mx → ex ≤ Be → mx ≤ mantissa_at Bm Be ex →
  (lx ≠ loc_Exact → mx + 1 ≤ mantissa_at Bm Be ex) →
  located (shr_record_of_loc mx lx) (x * 2 ^ (- ex)) →
  ∃ q E,
    float_value (binary_round_aux prec emax false mx ex lx) = Some q
    ∧ E ≤ Z.max ex (Z.max (Be + dB - prec) (emin prec emax))
    ∧ (x - (3 # 2) * 2 ^ E <= q ∧ q <= x + (3 # 2) * 2 ^ E)%Q.
Proof.
  intros H0 He Hm Hl Hx. unfold binary_round_aux.
  destruct (shr_fexp_located mx ex lx _ H0 He Hm Hl Hx)
    as (mrs1 & e1 & -> & He1 & He1' & HE1 & Hw1 & Hy1).
  pose proof (round_located _ _ Hy1) as Hr.
  apply round_within in Hw1 as [Hr0 Hr1].
  set (m1 := round_nearest_even (shr_m mrs1) (loc_of_shr_record mrs1)) in *.
  destruct (shr_fexp_located m1 e1 loc_Exact (inject_Z m1) Hr0 He1' Hr1)
    as (mrs2 & e2 & -> & He2 & He2' & HE2 & Hw2 & Hy2); [done|done|].
  apply located_floor in Hy2.
  destruct Hw2 as (Hm2 & _).
  set (m2 := shr_m mrs2) in *.
  assert (Hq : ∃ q, float_value
                      match m2 with
                      | 0 => S754_zero false
                      | Z.pos m =>
                          if e2 <=? emax - prec
                          then S754_finite false m e2
                          else S754_infinity false
                      | Z.neg _ => S754_nan
                      end = Some q
                    ∧ (q == inject_Z m2 * 2 ^ e2)%Q).
  { destruct m2 as [|m|m]; [| |lia].
    - eexists. split; [done|]. by rewrite Qmult_0_l.
    - rewrite (proj2 (Z.leb_le e2 (emax - prec))) by lia. eexists. done. }
  destruct Hq as (q & -> & Hq). exists q, e2. split; [done|]. split; [lia|].
  assert (Hc2 : (0 < 2 ^ e2)%Q) by (by apply Qpower_0_lt).
  assert (Hd : (0 < 2 ^ (e1 - e2) ∧ 2 ^ (e1 - e2) <= 1)%Q).
  { split; [by apply Qpower_0_lt|].
    change 1%Q with (2 ^ 0)%Q. apply Qpower_le_compat_l; [lia|done]. }
  assert (Hx1 : (x == x * 2 ^ (- ex) * 2 ^ (ex - e1) * 2 ^ (e1 - e2)
                      * 2 ^ e2)%Q).
  { rewrite <- !Qmult_assoc, <- !Qpower_plus by done.
    replace (- ex + (ex - e1 + (e1 - e2 + e2))) with 0 by lia.
    change (2 ^ 0)%Q with 1%Q. by rewrite Qmult_1_r. }
  revert Hx1 Hq Hr Hy2 Hd Hc2.
  generalize (x * 2 ^ (- ex) * 2 ^ (ex - e1))%Q (2 ^ (e1 - e2))%Q (2 ^ e2)%Q
    (inject_Z m1) (inject_Z m2).
  intros y1 d c2 M1 M2 Hx1 Hq Hr Hy2 Hd Hc2.
  assert (Ht : (M2 - (1 # 2) <= y1 * d ∧ y1 * d <= M2 + (3 # 2))%Q) by nra.
  rewrite Hx1, Hq. split; nra.
Qed.

End rounding_error_bound.

Section float_ratio_error.
Local Open Scope Z_scope.

Lemma inject_Z_lt a b : a < b → (inject_Z a < inject_Z b)%Q.
Proof. by rewrite <- Zlt_Qlt. Qed.

Lemma inject_Z_le a b : a ≤ b → (inject_Z a <= inject_Z b)%Q.
Proof. by rewrite <- Zle_Qle. Qed.

(** The flags the division computes from the remainder say where the
    quotient lies. *)
Lemma new_location_located mb r q (y : Q) :
  0 ≤ r < mb →
  (y * inject_Z mb == inject_Z (mb * q + r))%Q →
  located (shr_record_of_loc q (new_location mb r)) y.
Proof.
  intros [Hr0 Hr] Hy.
  rewrite inject_Z_plus, inject_Z_mult in Hy.
  assert (HB : (0 < inject_Z mb)%Q) by (apply (inject_Z_lt 0); lia).
  apply located_of_loc.
  assert (Hexact : r = 0 → (y == inject_Z q)%Q).
  { intros ->. change (inject_Z 0) with 0%Q in Hy.
    apply (Qmult_inj_r _ _ (inject_Z mb)); [lra|nra]. }
  assert (Hlt : 0 < r → 2 * r < mb →
                (inject_Z q < y ∧ y < inject_Z q + (1 # 2))%Q).
  { intros H1%inject_Z_lt H2%inject_Z_lt. rewrite inject_Z_mult in H2.
    change (inject_Z 2) with 2%Q in H2. change (inject_Z 0) with 0%Q in H1.
    split; nra. }
  assert (Heq : 2 * r = mb → (y == inject_Z q + (1 # 2))%Q).
  { intros E.
    assert (E' : (2 * inject_Z r == inject_Z mb)%Q)
      by (by rewrite <- E, inject_Z_mult).
    apply (Qmult_inj_r _ _ (inject_Z mb)); [lra|nra]. }
  assert (Hgt : mb < 2 * r →
                (inject_Z q + (1 # 2) < y ∧ y < inject_Z q + 1)%Q).
  { intros H2%inject_Z_lt. rewrite inject_Z_mult in H2.
    change (inject_Z 2) with 2%Q in H2.
    assert (H3 : (inject_Z r < inject_Z mb)%Q) by (by apply inject_Z_lt).
    split; nra. }
  unfold new_location.
  destruct (Z.even mb) eqn:Heven.
  - unfold new_location_even.
    destruct (Z.eqb_spec r 0) as [E0|Hne]; [auto|].
    destruct (Z.compare_spec (2 * r) mb) as [E|E|E];
      [apply Heq|apply Hlt|apply Hgt]; lia.
  - unfold new_location_odd.
    destruct (Z.eqb_spec r 0) as [E0|Hne]; [auto|].
    assert (Hodd : 2 * r ≠ mb).
    { intros <-. by rewrite Z.even_mul in Heven. }
    destruct (Z.compare_spec (2 * r + 1) mb) as [E|E|E];
      [apply Hlt|apply Hlt|apply Hgt]; lia.
Qed.

Lemma Zdigits2_mono a b : 0 < a ≤ b → Zdigits2 a ≤ Zdigits2 b.
Proof.
  intros [Ha Hab]. destruct a as [|pa|pa]; [lia| |lia].
  destruct b as [|pb|pb]; [lia| |lia]. simpl.
  pose proof (digits2_pos_bounds pa) as [H1 _].
  pose proof (digits2_pos_bounds pb) as [_ H2].
  assert (H : 2 ^ (Z.pos (digits2_pos pa) - 1) < 2 ^ Z.pos (digits2_pos pb))
    by lia.
  apply Z.pow_lt_mono_r_iff in H; lia.
Qed.

(** The quotient of [ma] by a larger [mb], before rounding: at most 1, at
    an exponent of at most -53, with flags that say where [ma / mb] lies. *)
Lemma div_core_located ma mb :
  Zpos ma ≤ Zpos mb →
  ∃ q e l,
    SFdiv_core_binary float_prec float_emax (Zpos ma) 0 (Zpos mb) 0
    = (q, e, l)
    ∧ 0 ≤ q ∧ e ≤ -53 ∧ q ≤ 1 * 2 ^ (0 - e)
    ∧ (l ≠ loc_Exact → q + 1 ≤ 1 * 2 ^ (0 - e))
    ∧ located (shr_record_of_loc q l)
        (inject_Z (Zpos ma) / inject_Z (Zpos mb) * 2 ^ (- e)).
Proof.
  intros Hle. unfold SFdiv_core_binary.
  set (e' := Z.min _ (0 - 0)).
  assert (He' : e' ≤ -53).
  { subst e'. pose proof (Zdigits2_mono (Z.pos ma) (Z.pos mb)).
    unfold fexp, float_prec, float_emax, emin. lia. }
  set (m' := match 0 - 0 - e' with
             | 0 => Z.pos ma
             | Z.pos _ => Z.shiftl (Z.pos ma) (0 - 0 - e')
             | Z.neg _ => 0
             end).
  assert (Hm' : m' = Z.pos ma * 2 ^ (0 - e')).
  { subst m'. replace (0 - 0 - e') with (0 - e') by lia.
    destruct (0 - e') as [|s|s] eqn:Es; [lia| |lia].
    by rewrite Z.shiftl_mul_pow2. }
  pose proof (Z_div_mod m' (Z.pos mb) eq_refl) as Hdiv.
  destruct (Z.div_eucl m' (Z.pos mb)) as [q r].
  destruct Hdiv as [Hq Hr].
  assert (Hp : 0 < 2 ^ (0 - e')) by (apply Z.pow_pos_nonneg; lia).
  eexists _, _, _. split; [done|].
  assert (H0 : 0 ≤ q) by nia.
  split; [done|]. split; [done|]. split; [nia|].
  split; [intros Hr0%new_location_exact; nia|].
  apply new_location_located; [lia|].
  rewrite <- Hq, Hm', inject_Z_mult, Zpower_Qpower by lia.
  replace (0 - e') with (- e') by lia.
  change (inject_Z 2) with 2%Q. field.
  intros H. unfold Qeq in H. simpl in H. lia.
Qed.

(** [a / b] is within 3 * 2^-53 of the quotient of [a] by [b]. *)
Lemma int_truediv_error a b :
  0 ≤ a ≤ b → 0 < b →
  ∃ qf, float_value (int_truediv a b) = Some qf
        ∧ (inject_Z a / inject_Z b - (3 # 9007199254740992) <= qf
           ∧ qf <= inject_Z a / inject_Z b + (3 # 9007199254740992))%Q.
Proof.
  intros [Ha Hab] Hb. unfold int_truediv.
  destruct b as [|mb|mb]; [lia| |lia].
  destruct a as [|ma|ma]; [|clear Ha|lia].
  { exists 0%Q. split; [done|]. unfold Qdiv. rewrite Qmult_0_l. lra. }
  cbn [int_operand SFdiv xorb].
  destruct (div_core_located ma mb Hab)
    as (q & e & l & -> & H0 & He & Hq & Hl & Hloc).
  destruct (binary_round_aux_error float_prec float_emax 1 0 1)
    with (mx := q) (ex := e) (lx := l)
         (x := (inject_Z (Z.pos ma) / inject_Z (Z.pos mb))%Q)
    as (qf & E & Hqf & HE & Herr); try done.
  all: try (unfold float_prec, float_emax, emin; lia).
  exists qf. split; [done|].
  assert (HE' : E ≤ -52) by (unfold float_prec, float_emax, emin in HE; lia).
  assert (Hpow : (0 < 2 ^ E ∧ 2 ^ E <= 1 # 4503599627370496)%Q).
  { split; [by apply Qpower_0_lt|].
    change (1 # 4503599627370496)%Q with (2 ^ (-52))%Q.
    by apply Qpower_le_compat_l. }
  lra.
Qed.

(** [x * 100] is within 3 * 2^-47 of the product, for [x] at most 1. *)
Lemma float_mul_100_error x qf :
  (x = S754_zero false
   ∨ ∃ m e, x = S754_finite false m e ∧ e ≤ 0 ∧ Zpos m ≤ 1 * 2 ^ (0 - e)) →
  float_value x = Some qf →
  ∃ r, float_value (float_mul_int x 100) = Some r
       ∧ (100 * qf - (3 # 140737488355328) <= r
          ∧ r <= 100 * qf + (3 # 140737488355328))%Q.
Proof.
  unfold float_mul_int. rewrite float_of_int_100.
  intros [->|(m & e & -> & He & Hm)] [= <-].
  { exists 0%Q. split; [done|]. lra. }
  cbn [SFmul xorb].
  destruct (binary_round_aux_error float_prec float_emax 25 2 5)
    with (mx := Z.pos (m * 7036874417766400)) (ex := e + -46)
         (lx := loc_Exact) (x := (100 * (inject_Z (Z.pos m) * 2 ^ e))%Q)
    as (r & E & Hr & HE & Herr); try done.
  all: try (unfold float_prec, float_emax, emin; lia).
  - unfold mantissa_at. rewrite Pos2Z.inj_mul.
    replace (2 - (e + -46)) with (48 + (0 - e)) by lia.
    rewrite Z.pow_add_r by lia.
    assert (Hp : 0 < 2 ^ (0 - e)) by (apply Z.pow_pos_nonneg; lia).
    change (Z.pos 7036874417766400) with (25 * 2 ^ 48). nia.
  - apply located_of_loc.
    rewrite Pos2Z.inj_mul, inject_Z_mult.
    replace (- (e + -46)) with (- e + 46) by lia.
    rewrite Qpower_plus by done.
    assert (He0 : (2 ^ e * 2 ^ (- e) == 1)%Q).
    { rewrite <- Qpower_plus by done.
      by replace (e + - e) with 0 by lia. }
    change (inject_Z (Z.pos 7036874417766400)) with (100 * 2 ^ 46)%Q.
    generalize dependent (2 ^ e)%Q. generalize (2 ^ (- e))%Q.
    generalize (2 ^ 46)%Q (inject_Z (Z.pos m)). intros c M a b Hab.
    transitivity (b * a * (M * (100 * c)))%Q; [ring|]. rewrite Hab. ring.
  - exists r. split; [done|].
    assert (HE' : E ≤ -46)
      by (unfold float_prec, float_emax, emin in HE; lia).
    assert (Hpow : (0 < 2 ^ E ∧ 2 ^ E <= 1 # 70368744177664)%Q).
    { split; [by apply Qpower_0_lt|].
      change (1 # 70368744177664)%Q with (2 ^ (-46))%Q.
      by apply Qpower_le_compat_l. }
    lra.
Qed.

(** [(ok / total) * 100] is within 2^-44 of the exact percentage. *)
Lemma ratio_error ok total :
  0 ≤ ok ≤ total → 0 < total →
  ∃ r, float_value (float_mul_int (int_truediv ok total) 100) = Some r
       ∧ (Qabs (r - 100 * inject_Z ok / inject_Z total)
          <= 1 # 17592186044416)%Q.
Proof.
  intros H1 H2.
  destruct (int_truediv_error ok total H1 H2) as (qf & Hqf & Herr1).
  destruct (float_mul_100_error _ qf (int_truediv_le ok total H1 H2) Hqf)
    as (r & Hr & Herr2).
  exists r. split; [done|]. apply Qabs_Qle_condition.
  unfold Qdiv in *. rewrite <- Qmult_assoc.
  generalize dependent (inject_Z ok * / inject_Z total)%Q. intros x. lra.
Qed.

End float_ratio_error.

(** *** The counts and the ratio *)

Lemma compliance_counts (i : Item) (items : list Item) :
  let l := i :: items in
  let ws := filter (λ item, truthy_status item = true) l in
  ws = filter (λ item, status item ≠ "") l
  ∧ filter (λ item, status item = "OK") ws
    = filter (λ item, status item = "OK") l.
Proof.
  intros l ws.
  assert (Hf : ws = filter (λ item, status item ≠ "") l).
  { apply list_filter_iff. intros x. apply truthy_iff. }
  split; [done|]. rewrite Hf, list_filter_filter.
  apply list_filter_iff. intros x. split; [tauto|]. intros ->. done.
Qed.

(** C7 fails for 11 items "OK" out of 20 with a status: the ratio returned
    is 55.00000000000001, the float next above 55.0, and not
    100 * 11 / 20.  The quotient 11 / 20 is the same whether the division
    takes the integers as they are or converted to [float] first. *)
Lemma compliance_ratio_rounded :
  calculate_compliance_ratio
    (replicate 11 (MkItem "1.01" (Some "a") None "OK")
     ++ replicate 9 (MkItem "1.02" (Some "b") None "NOK"))
  = (11, 20, PyFloat (S754_finite false 7740561859543041 (-47)))
  ∧ int_truediv 11 20
    = SFdiv float_prec float_emax (float_of_int 11) (float_of_int 20)
  ∧ int_truediv (100 * 11) 20 = S754_finite false 7740561859543040 (-47)
  ∧ num_value (PyFloat (S754_finite false 7740561859543041 (-47)))
    = Some (7740561859543041 # 140737488355328)
  ∧ ¬ (7740561859543041 # 140737488355328 == 100 * 11 / 20)%Q.
Proof.
  repeat (split; [by vm_compute|]). by vm_compute.
Qed.

(** C7, as the code has it: [calculate_compliance_ratio] returns the number
    of items whose status is "OK" and the number of items whose status is
    not empty.  When the total is positive, the ratio is the float
    [(ok / total) * 100], the quotient rounded and then the product
    rounded: a finite number within 2^-44 of 100 * ok / total, equal to
    100.0 when every item with a status is "OK" and to 0.0 when none is.
    Otherwise it is the integer 0 (no division by zero). *)
Theorem compliance_ratio_counts (items : list Item) :
  let '(ok_count, total_with_status, ratio_percent) :=
    calculate_compliance_ratio items in
  total_with_status = length (filter (λ item, status item ≠ "") items)
  ∧ ok_count = length (filter (λ item, status item = "OK") items)
  ∧ ratio_percent
    = (if 0 <? total_with_status
       then PyFloat (float_mul_int
                       (int_truediv (Z.of_nat ok_count)
                          (Z.of_nat total_with_status)) 100)
       else PyInt 0)
  ∧ (0 < total_with_status →
     ∃ q, num_value ratio_percent = Some q
          ∧ (Qabs (q - 100 * inject_Z (Z.of_nat ok_count)
                       / inject_Z (Z.of_nat total_with_status))
             <= 1 # 17592186044416)%Q)
  ∧ (0 < total_with_status → ok_count = total_with_status →
     ratio_percent = PyFloat (float_of_int 100))
  ∧ (0 < total_with_status → ok_count = 0 →
     ratio_percent = PyFloat (S754_zero false)).
Proof.
  destruct items as [|i items]; [cbn; repeat split; lia|].
  unfold calculate_compliance_ratio.
  destruct (compliance_counts i items) as [Hws Hok]. cbn zeta in Hws, Hok.
  pose proof (length_filter (λ item, status item = "OK")
                (filter (λ item, truthy_status item = true) (i :: items)))
    as Hle.
  rewrite Hok, Hws in Hle. rewrite Hok, Hws. set (l := i :: items) in *.
  set (total := length (filter (λ item, status item ≠ "") l)) in *.
  set (ok := length (filter (λ item, status item = "OK") l)) in *.
  split; [done|]. split; [done|]. split; [done|].
  split; [|split]; intros Hpos; rewrite (proj2 (Nat.ltb_lt 0 total) Hpos).
  - apply ratio_error; lia.
  - intros Heq. f_equal. rewrite Heq, int_truediv_diag by lia. reflexivity.
  - intros Heq. f_equal. rewrite Heq.
    destruct (Z.of_nat total) eqn:E; [lia|reflexivity|lia].
Qed.

(** X6: the counts are ordered, ok <= total <= number of items, and the
    ratio is a finite number between 0 and 100. *)
Theorem compliance_ratio_bounds (items : list Item) :
  let '(ok_count, total_with_status, ratio_percent) :=
    calculate_compliance_ratio items in
  ok_count ≤ total_with_status ∧ total_with_status ≤ length items
  ∧ ∃ q, num_value ratio_percent = Some q ∧ (0 <= q)%Q ∧ (q <= 100)%Q.
Proof.
  destruct items as [|i items].
  { cbn. split; [done|]. split; [done|]. by eexists. }
  unfold calculate_compliance_ratio. set (l := i :: items).
  set (ws := filter (λ item, truthy_status item = true) l).
  pose proof (length_filter (λ item, status item = "OK") ws) as H1.
  pose proof (length_filter (λ item, truthy_status item = true) l) as H2.
  fold ws in H2. split; [done|]. split; [done|].
  destruct (0 <? length ws) eqn:Hpos; [|by eexists].
  apply Nat.ltb_lt in Hpos. apply ratio_bounds; lia.
Qed.

(** X7: items with an empty status do not count: the result is that of
    the list without them. *)
Theorem compliance_ignores_unset (items : list Item) :
  calculate_compliance_ratio items
  = calculate_compliance_ratio
      (filter (λ item, truthy_status item = true) items).
Proof.
  unfold calculate_compliance_ratio.
  set (ws := filter (λ item, truthy_status item = true) items).
  assert (Hws : filter (λ item, truthy_status item = true) ws = ws).
  { subst ws. rewrite list_filter_filter. apply list_filter_iff. tauto. }
  destruct items as [|i items]; [done|].
  destruct ws as [|w ws'] eqn:E; [done|]. by rewrite Hws.
Qed.

(** X8: the result does not depend on the order of the items. *)
Theorem compliance_permutation (items items' : list Item) :
  items ≡ₚ items' →
  calculate_compliance_ratio items = calculate_compliance_ratio items'.
Proof.
  intros Hp. unfold calculate_compliance_ratio.
  destruct items as [|i items], items' as [|i' items''].
  - done.
  - by apply Permutation_nil_l in Hp.
  - by apply Permutation_nil_r in Hp.
  - set (l := i :: items) in *. set (l' := i' :: items'') in *.
    assert (H1 : length (filter (λ item, truthy_status item = true) l)
                 = length (filter (λ item, truthy_status item = true) l'))
      by (by rewrite Hp).
    assert (H2 : length (filter (λ item, status item = "OK")
                           (filter (λ item, truthy_status item = true) l))
                 = length (filter (λ item, status item = "OK")
                             (filter (λ item, truthy_status item = true) l')))
      by (by rewrite Hp).
    by rewrite H1, H2.
Qed.

Lemma compliance_permutation_witness :
  calculate_compliance_ratio
    [MkItem "1.01" (Some "a") None "OK"; MkItem "1.02" (Some "b") None "NOK"]
  = calculate_compliance_ratio
      [MkItem "1.02" (Some "b") None "NOK"; MkItem "1.01" (Some "a") None "OK"].
Proof.
  apply compliance_permutation. apply perm_swap.
Defined.

(** ** Metadata of the extractor script *)

Lemma den_lit s : ∀ st st',
  Re.den (Re.lit s) st st' ↔
  ∃ t, Re.ms_rest st = s +:+ t
       ∧ st' = Re.MState (Re.ms_pos st + String.length s) t (Re.ms_caps st).
Proof.
  induction s as [|c s IH]; intros st st'; cbn [Re.lit Re.den].
  - split.
    + intros ->. exists (Re.ms_rest st). split; [done|].
      destruct st. simpl. f_equal. lia.
    + intros (t & Hr & ->). destruct st. simpl in *. subst. f_equal. lia.
  - split.
    + intros (mid & (c' & t & Hr & Hc & ->) & (t' & Hr' & ->)%IH).
      apply Ascii.eqb_eq in Hc as <-. simpl in *. subst t.
      exists t'. rewrite Hr. split; [done|]. f_equal. lia.
    + intros (t & Hr & ->). rewrite app_cons_s in Hr.
      exists (Re.MState (S (Re.ms_pos st)) (s +:+ t) (Re.ms_caps st)).
      split.
      * exists c, (s +:+ t). rewrite Ascii.eqb_refl. done.
      * apply IH. exists t. simpl. split; [done|]. f_equal. lia.
Qed.

Lemma search_from_complete r subject st : ∀ pre rest i,
  Re.den r (Re.MState (i + String.length pre) rest []) st →
  is_Some (Re.search_from r subject i (pre +:+ rest)).
Proof.
  induction pre as [|c pre IH]; intros rest i Hden.
  - simpl in Hden. rewrite Nat.add_0_r in Hden.
    change ("" +:+ rest) with rest.
    assert (Hrun : is_Some (Re.run r subject i rest)).
    { unfold Re.run.
      destruct (ReFacts.exec_complete r _ _ Some Hden) as [x ->]; done. }
    destruct Hrun as [m Hm]. destruct rest; simpl; rewrite Hm; done.
  - rewrite app_cons_s. cbn [Re.search_from].
    destruct (Re.run r subject i _); [done|].
    apply IH. simpl in Hden.
    replace (S i + String.length pre) with (i + S (String.length pre)) by lia.
    done.
Qed.

(** Wherever "Check ICPE Electrical V\d+-\w+" is found,
    "Check ICPE Electrical (V\d+)" is found as well. *)
Lemma form_title_then_reason text :
  is_Some (Re.search md_form_title_re text) →
  is_Some (Re.search md_reason_re text).
Proof.
  intros [m Hm].
  apply search_from_on_subject in Hm as (j & rest & st & Hon & Hden & _);
    [|apply on_subject_start].
  destruct Hon as (pre & -> & Hlen). simpl in Hlen.
  destruct Hden as (m1 & (t & Hr & ->)%den_lit & m2 & Hdig & _).
  assert (Hdig' : Re.den (Re.plus Re.digit) (Re.MState (j + 23) t []) m2)
    by exact Hdig.
  clear Hdig. simpl in Hr. subst rest.
  apply PatternFacts.den_caps_nogroups in Hdig' as Hc; [|done]. simpl in Hc.
  unfold Re.search.
  change ("Check ICPE Electrical V" +:+ t)
    with ("Check ICPE Electrical " +:+ String "V" t).
  apply (search_from_complete md_reason_re _
           (Re.MState (Re.ms_pos m2) (Re.ms_rest m2)
              [(1, (j + 22, Re.ms_pos m2))])).
  rewrite Hlen.
  exists (Re.MState (j + 22) (String "V" t) []). split.
  - apply den_lit. exists (String "V" t). done.
  - exists (Re.MState (Re.ms_pos m2) (Re.ms_rest m2)
              [(1, (j + 22, Re.ms_pos m2))]).
    split; [|done].
    exists m2. split; [|by rewrite Hc].
    exists (Re.MState (j + 23) t []). split.
    + exists "V"%char, t. split; [done|]. split; [done|].
      simpl. f_equal. lia.
    + exists m2. split; [done|done].
Qed.

Lemma den_seqs_group ps n g subject : ∀ st st',
  on_subject subject st →
  Re.den (Re.seqs (ps ++ [Re.Group n g])) st st' →
  ∃ s1 mid, on_subject subject s1 ∧ Re.den g s1 mid
            ∧ st' = Re.MState (Re.ms_pos mid) (Re.ms_rest mid)
                      ((n, (Re.ms_pos s1, Re.ms_pos mid)) :: Re.ms_caps mid).
Proof.
  induction ps as [|p ps IH]; intros st st' Hon.
  - intros (m1 & (mid & Hg & ->) & ->). eauto.
  - intros (m0 & Hp & Hrest). apply (IH m0); [|done].
    by eapply on_subject_den.
Qed.

(** Group 1 of a pattern that ends with its only group is the text the
    group read. *)
Lemma search_last_group ps g text m :
  Re.search (Re.seqs (ps ++ [Re.Group 1 g])) text = Some m →
  ∃ w, Re.group m 1 = Some w ∧ reads g w.
Proof.
  intros (j & rest & st & Hon & Hden & ->)%search_from_on_subject;
    [|apply on_subject_start].
  apply (den_seqs_group ps 1 g text) in Hden as (s1 & mid & On1 & Hg & ->);
    [|done].
  apply den_reads in Hg as (w & E & R & P).
  unfold Re.group. simpl.
  rewrite (slice_read text s1 mid w On1 E P). eauto.
Qed.

Lemma search_group0 r text m :
  Re.search r text = Some m → reads r (group0 m).
Proof.
  intros (j & rest & st & Hon & Hden & ->)%search_from_on_subject;
    [|apply on_subject_start].
  apply den_reads in Hden as (w & E & R & P). unfold group0. simpl.
  pose proof (slice_read text _ _ w Hon E P) as S. simpl in S. by rewrite S.
Qed.

Lemma md_turbine_group text m :
  Re.search md_turbine_re text = Some m →
  ∃ g, Re.group m 1 = Some g ∧ digits g.
Proof.
  intros (w & H & R%reads_plus_digit)%(search_last_group
    [Re.lit "Turbine No./Id"; Re.opt (Re.chr ":"); Re.star Re.space]).
  eauto.
Qed.

Lemma md_service_group text m :
  Re.search md_service_re text = Some m →
  ∃ g, Re.group m 1 = Some g ∧ digits g.
Proof.
  intros (w & H & R%reads_plus_digit)%(search_last_group
    [Re.lit "Service Order"; Re.opt (Re.chr ":"); Re.star Re.space]).
  eauto.
Qed.

Lemma md_reason_group text m :
  Re.search md_reason_re text = Some m →
  ∃ g, Re.group m 1 = Some ("V" +:+ g) ∧ digits g.
Proof.
  intros (w & H & R)%(search_last_group [Re.lit "Check ICPE Electrical "]).
  cbn [Re.seqs foldr reads] in R.
  destruct R as (v & r & -> & (c & -> & Hc) & (g & e & -> & Hg & ->)).
  apply Ascii.eqb_eq in Hc as <-. apply reads_plus_digit in Hg.
  rewrite app_nil_r_s in H. eauto.
Qed.

Lemma md_form_title_text text m :
  Re.search md_form_title_re text = Some m →
  ∃ g rest, group0 m = "Check ICPE Electrical V" +:+ g +:+ rest ∧ digits g.
Proof.
  intros R%search_group0. unfold md_form_title_re in R.
  cbn [Re.seqs foldr] in R.
  destruct R as (l & r1 & -> & ->%reads_lit & (g & r2 & -> & Hg & _)).
  apply reads_plus_digit in Hg. eauto.
Qed.

(** X9: the metadata has a "form_title" exactly when it has a
    "reason_for_call_out". *)
Theorem metadata_form_title_iff_reason pdf :
  dict_in "form_title" (extract_metadata pdf)
  = dict_in "reason_for_call_out" (extract_metadata pdf).
Proof.
  unfold extract_metadata. set (text := metadata_text pdf).
  pose proof (form_title_then_reason text) as Himp.
  destruct (Re.search md_turbine_re text), (Re.search md_service_re text),
    (Re.search md_reason_re text), (Re.search md_form_title_re text);
    try reflexivity; exfalso; destruct Himp as [? ?]; eauto; done.
Qed.

(** X10: the keys of the metadata are among "turbine_number",
    "service_order", "reason_for_call_out" and "form_title", each at most
    once and in this order. *)
Theorem metadata_keys_in_order pdf :
  (extract_metadata pdf).*1
  `sublist_of` ["turbine_number"; "service_order"; "reason_for_call_out";
                "form_title"].
Proof.
  unfold extract_metadata. set (text := metadata_text pdf).
  destruct (Re.search md_turbine_re text), (Re.search md_service_re text),
    (Re.search md_reason_re text), (Re.search md_form_title_re text);
    cbn; solve_sublist.
Qed.

(** X11: every value of the metadata is a string: a non-empty string of
    digits for "turbine_number" and "service_order", and a string that
    starts with "Check ICPE Electrical V" followed by digits for
    "reason_for_call_out" and "form_title". *)
Theorem metadata_values pdf key v :
  (key, v) ∈ extract_metadata pdf →
  ∃ s, v = Some s
       ∧ (((key = "turbine_number" ∨ key = "service_order") ∧ digits s)
          ∨ ((key = "reason_for_call_out" ∨ key = "form_title")
             ∧ ∃ g rest, s = "Check ICPE Electrical V" +:+ g +:+ rest
                         ∧ digits g)).
Proof.
  unfold extract_metadata. set (text := metadata_text pdf).
  destruct (Re.search md_turbine_re text) as [mt|] eqn:Ht;
    [apply md_turbine_group in Ht as (gt & -> & Hgt)|];
  (destruct (Re.search md_service_re text) as [ms|] eqn:Hs;
    [apply md_service_group in Hs as (gs & -> & Hgs)|]);
  (destruct (Re.search md_reason_re text) as [mr|] eqn:Hr;
    [apply md_reason_group in Hr as (gr & -> & Hgr)|]);
  (destruct (Re.search md_form_title_re text) as [mf|] eqn:Hf;
    [apply md_form_title_text in Hf as (gf & rf & -> & Hgf)|]);
  cbn; intros H;
  repeat (apply elem_of_cons in H as [H|H]);
  try (by apply elem_of_nil in H);
  injection H as -> ->; eexists; (split; [done|]);
  first [ left; split; [by auto|done]
        | right; split; [by auto|];
          first [ by exists gr, "" ; rewrite app_nil_r_s
                | by eauto ] ].
Qed.

Lemma metadata_values_witness :
  ∃ s, Some "12345" = Some s
       ∧ ((("turbine_number" = "turbine_number"
            ∨ "turbine_number" = "service_order") ∧ digits s)
          ∨ (("turbine_number" = "reason_for_call_out"
              ∨ "turbine_number" = "form_title")
             ∧ ∃ g rest, s = "Check ICPE Electrical V" +:+ g +:+ rest
                         ∧ digits g)).
Proof.
  apply (metadata_values
           [MkPage "Turbine No./Id: 12345 Check ICPE Electrical V90-3MW" []]
           "turbine_number" (Some "12345")).
  vm_compute. apply list_elem_of_here.
Defined.

(** ** The rows of the CSV file *)

Lemma item_rows_width all : ∀ items cur,
  Forall (λ row, length row = 5) (item_rows all cur items).
Proof.
  induction items as [|item items IH]; intros cur; cbn [item_rows];
    [constructor|].
  case_bool_decide; repeat (constructor; [done|]); apply IH.
Qed.

(** X12: every row handed to the CSV writer has five cells. *)
Theorem csv_rows_have_five_cells metadata items :
  Forall (λ row, length row = 5) (save_to_csv metadata items).
Proof.
  unfold save_to_csv. repeat (apply Forall_cons; split; [done|]).
  apply Forall_app. split; [|apply item_rows_width].
  unfold metadata_rows. apply Forall_fmap, Forall_true. done.
Qed.

Lemma item_rows_sublist all : ∀ items cur,
  item_row <$> items `sublist_of` item_rows all cur items.
Proof.
  induction items as [|item items IH]; intros cur; cbn [item_rows fmap list_fmap];
    [constructor|].
  case_bool_decide.
  - apply sublist_cons, sublist_skip, IH.
  - apply sublist_skip, IH.
Qed.


Lemma item_rows_header all : ∀ items cur item,
  item ∈ items →
  [header_row all (section_of (item_number item)); item_row item]
    `sublist_of` item_rows all cur items
  ∨ (cur = Some (section_of (item_number item))
     ∧ [item_row item] `sublist_of` item_rows all cur items).
Proof.
  induction items as [|it items IH]; intros cur item Hin;
    [by apply elem_of_nil in Hin|].
  cbn [item_rows].
  apply elem_of_cons in Hin as [->|Hin].
  - case_bool_decide as Hc.
    + left. do 2 apply sublist_skip. apply sublist_nil_l.
    + right. split.
      * destruct cur as [c|]; [|by destruct Hc].
        destruct (decide (Some (section_of (item_number it)) = Some c));
          [done|by destruct Hc].
      * apply sublist_skip, sublist_nil_l.
  - case_bool_decide as Hc.
    + left. destruct (IH (Some (section_of (item_number it))) item Hin)
        as [H|[[= E] H]].
      * by do 2 apply sublist_cons.
      * rewrite <- E. apply sublist_skip, sublist_cons, H.
    + destruct (IH cur item Hin) as [H|[E H]].
      * left. by apply sublist_cons.
      * right. split; [done|]. by apply sublist_cons.
Qed.

(** X14: the row of every item comes after a header row of its section. *)
Theorem csv_item_after_section_header metadata items item :
  item ∈ items →
  [header_row items (section_of (item_number item)); item_row item]
    `sublist_of` save_to_csv metadata items.
Proof.
  intros Hin. unfold save_to_csv. do 3 apply sublist_cons.
  apply sublist_inserts_l.
  destruct (item_rows_header items items None item Hin) as [H|[[=] _]]; done.
Qed.

Lemma csv_item_after_section_header_witness :
  [header_row [MkItem "1.01" (Some "Tower") None "";
               MkItem "1.02" (Some "Bolts") None "OK"] "1";
   item_row (MkItem "1.02" (Some "Bolts") None "OK")]
    `sublist_of`
  save_to_csv [("turbine_number", Some "7")]
    [MkItem "1.01" (Some "Tower") None "";
     MkItem "1.02" (Some "Bolts") None "OK"].
Proof.
  apply (csv_item_after_section_header [("turbine_number", Some "7")]
           [MkItem "1.01" (Some "Tower") None "";
            MkItem "1.02" (Some "Bolts") None "OK"]
           (MkItem "1.02" (Some "Bolts") None "OK")).
  apply list_elem_of_further, list_elem_of_here.
Defined.

Lemma item_rows_same_section all s : ∀ items,
  Forall (λ item, section_of (item_number item) = s) items →
  item_rows all (Some s) items = item_row <$> items.
Proof.
  induction 1 as [|item items Hs _ IH]; [done|].
  cbn [item_rows fmap list_fmap]. rewrite Hs.
  rewrite bool_decide_false by (by intros []). by rewrite IH.
Qed.

(** X15: items that follow one another in one section share one header
    row: for a list of items of a single section the rows are the three
    leading rows, the metadata rows, one header and the item rows. *)
Theorem csv_single_section metadata items s :
  items ≠ [] →
  Forall (λ item, section_of (item_number item) = s) items →
  save_to_csv metadata items
  = [[Some "0"; Some "1"; Some "2"; Some "3"; Some "4"];
     [Some ""; Some ""; Some ""; Some ""; Some ""];
     [Some "Service Inspection Form"; Some ""; Some ""; Some ""; Some ""]]
    ++ metadata_rows metadata
    ++ header_row items s :: (item_row <$> items).
Proof.
  intros Hne Hall. unfold save_to_csv. do 2 f_equal.
  destruct items as [|item rest]; [done|].
  apply Forall_cons in Hall as Hall'. destruct Hall' as [Hs Hrest].
  cbn [item_rows fmap list_fmap]. rewrite Hs.
  rewrite bool_decide_true by done.
  by rewrite (item_rows_same_section (item :: rest) s rest Hrest).
Qed.

Lemma csv_single_section_witness :
  save_to_csv [] [MkItem "2.01" (Some "Nacelle") None "OK";
                  MkItem "2.02" (Some "Hub") None "NOK"]
  = [[Some "0"; Some "1"; Some "2"; Some "3"; Some "4"];
     [Some ""; Some ""; Some ""; Some ""; Some ""];
     [Some "Service Inspection Form"; Some ""; Some ""; Some ""; Some ""]]
    ++ metadata_rows []
    ++ header_row [MkItem "2.01" (Some "Nacelle") None "OK";
                   MkItem "2.02" (Some "Hub") None "NOK"] "2"
       :: (item_row <$> [MkItem "2.01" (Some "Nacelle") None "OK";
                         MkItem "2.02" (Some "Hub") None "NOK"]).
Proof.
  apply csv_single_section; [done|].
  repeat constructor.
Defined.

(** ** Service reports *)

Lemma first_form_page_Some texts : ∀ k n,
  first_form_page k texts = Some n →
  ∃ i t, n = k + i ∧ texts !! i = Some t
         ∧ Py.contains "Service Inspection Form" t = true
         ∧ ∀ j t', j < i → texts !! j = Some t' →
             Py.contains "Service Inspection Form" t' = false.
Proof.
  induction texts as [|t texts IH]; intros k n; cbn [first_form_page]; [done|].
  destruct (Py.contains _ t) eqn:Hc.
  - intros [= <-]. exists 0, t. split; [lia|]. split; [done|].
    split; [done|]. intros; lia.
  - intros (i & t' & -> & Hi & Ht & Hmin)%IH.
    exists (S i), t'. split; [lia|]. split; [done|]. split; [done|].
    intros [|j] u Hj; simpl; [by intros [= <-]|].
    apply Hmin. lia.
Qed.

Lemma first_form_page_None texts : ∀ k,
  first_form_page k texts = None →
  Forall (λ t, Py.contains "Service Inspection Form" t = false) texts.
Proof.
  induction texts as [|t texts IH]; intros k; cbn [first_form_page];
    [constructor|].
  destruct (Py.contains _ t) eqn:Hc; [done|]. intros H%IH. by constructor.
Qed.

(** X16: [find_starting_page] returns the number of the first page whose
    text contains "Service Inspection Form", raises [ValueError] when no
    page does, and leaves the document closed in both cases. *)
Theorem find_starting_page_first fitz_open self :
  let texts := fitz_open (file_path self) in
  let '(self', r) := find_starting_page fitz_open self in
  doc self' = Some None
  ∧ match r with
    | Return n =>
        (∃ t, texts !! n = Some t
              ∧ Py.contains "Service Inspection Form" t = true)
        ∧ ∀ j t, j < n → texts !! j = Some t →
            Py.contains "Service Inspection Form" t = false
    | Throw e =>
        e = ValueError "No 'Service Inspection Form' page found in document"
        ∧ Forall (λ t, Py.contains "Service Inspection Form" t = false) texts
    end.
Proof.
  unfold find_starting_page, _open, _close. simpl.
  destruct (first_form_page 0 (fitz_open (file_path self))) as [n|] eqn:E.
  - split; [done|].
    apply first_form_page_Some in E as (i & t & -> & Hi & Ht & Hmin).
    simpl. eauto.
  - split; [done|]. split; [done|]. by eapply first_form_page_None.
Qed.

Lemma collect_tables_spec {table frame} (read : nat → list table)
    (df : table → frame) pages : ∀ tables,
  collect_tables read df pages tables
  = Return (tables ++ first_tables read df pages).
Proof.
  unfold first_tables.
  induction pages as [|p pages IH]; intros tables;
    cbn [collect_tables omap list_omap].
  - by rewrite app_nil_r.
  - unfold _extract_single_page_table.
    destruct (read p) as [|t ts]; simpl.
    + apply IH.
    + rewrite IH. by rewrite <- app_assoc.
Qed.

Lemma multiple_pages_table_unfold {table frame} (read : nat → list table)
    (df : table → frame) (concat : list frame → frame) first last :
  _get_multiple_pages_table read df concat first last
  = match first_tables read df (seq first (last + 1 - first)) with
    | [] => Throw (ValueError "No table found in document")
    | tables => Return (concat tables)
    end.
Proof.
  unfold _get_multiple_pages_table. rewrite collect_tables_spec.
  rewrite app_nil_l. by destruct (first_tables _ _ _).
Qed.

(** X17: [_get_multiple_pages_table] returns the concatenation of the
    first table of every page from the starting to the ending page that has
    a table, in page order; a page without table is skipped, and the only
    exception is the [ValueError] raised when no page has a table. *)
Theorem multiple_pages_table_outcome {table frame} (read : nat → list table)
    (df : table → frame) (concat : list frame → frame) first last :
  let tables := first_tables read df (seq first (last + 1 - first)) in
  (∀ result,
     _get_multiple_pages_table read df concat first last = Return result
     ↔ tables ≠ [] ∧ result = concat tables)
  ∧ (∀ e,
       _get_multiple_pages_table read df concat first last = Throw e
       ↔ tables = [] ∧ e = ValueError "No table found in document").
Proof.
  cbv zeta. rewrite multiple_pages_table_unfold.
  destruct (first_tables _ _ _) as [|t ts]; split; intros x; split;
    try (by intros [= <-]); try (by intros [? ?]); try done.
  - by intros [_ ->].
  - by intros [_ ->].
Qed.

Lemma first_tables_ext {table frame} (read1 read2 : nat → list table)
    (df : table → frame) pages :
  (∀ p, p ∈ pages → read1 p = read2 p) →
  first_tables read1 df pages = first_tables read2 df pages.
Proof.
  unfold first_tables. induction pages as [|p pages IH]; intros H; [done|].
  cbn [omap list_omap]. rewrite (H p) by apply list_elem_of_here.
  rewrite IH; [done|]. intros q Hq. apply H. by apply list_elem_of_further.
Qed.

Lemma extract_full_table_unfold {table frame} fitz_open
    (read : nat → list table) (df : table → frame) concat self :
  _extract_full_table fitz_open read df concat self
  = (MkReport (file_path self) (Some None),
     match first_form_page 0 (fitz_open (file_path self)) with
     | Some n =>
         _get_multiple_pages_table read df concat (n + 1)
           (length (fitz_open (file_path self)))
     | None =>
         Throw (ValueError
                  "No 'Service Inspection Form' page found in document")
     end).
Proof.
  unfold _extract_full_table, find_starting_page, _open, _close. simpl.
  by destruct (first_form_page 0 _).
Qed.

(** X18: [_extract_full_table] reads tables only on the pages from the
    form page to the last page: two readers that agree on these pages give
    the same result. *)
Theorem full_table_reads_form_pages_only {table frame} fitz_open
    (read1 read2 : nat → list table) (df : table → frame) concat self n :
  (find_starting_page fitz_open self).2 = Return n →
  (∀ p, n < p ≤ length (fitz_open (file_path self)) → read1 p = read2 p) →
  _extract_full_table fitz_open read1 df concat self
  = _extract_full_table fitz_open read2 df concat self.
Proof.
  intros Hfind Hagree. rewrite !extract_full_table_unfold. f_equal.
  unfold find_starting_page, _open, _close in Hfind. simpl in Hfind.
  destruct (first_form_page 0 _) as [m|]; [|done].
  injection Hfind as ->. rewrite !multiple_pages_table_unfold.
  rewrite (first_tables_ext read1 read2); [done|].
  intros p Hp%elem_of_seq. apply Hagree. lia.
Qed.

Lemma full_table_reads_form_pages_only_witness :
  _extract_full_table (λ _, ["cover"; "Service Inspection Form"; "end"])
    (λ p, if p =? 1 then [7] else [p]) (λ t : nat, [t]) (λ l, mjoin l)
    (new_report "r.pdf")
  = _extract_full_table (λ _, ["cover"; "Service Inspection Form"; "end"])
      (λ p, [p]) (λ t : nat, [t]) (λ l, mjoin l) (new_report "r.pdf").
Proof.
  apply (full_table_reads_form_pages_only _ _ _ _ _ _ 1).
  - vm_compute. reflexivity.
  - intros p [Hp _]. destruct p as [|[|p]]; [lia|lia|reflexivity].
Defined.

(** X19: an instance of [PDF] carries the number of pages and a form page
    below it whose text has the marker; [PDF(...)] fails with [IndexError]
    on a document without pages and with [ValueError] when no page has the
    marker. *)
Theorem PDF_init_spec texts :
  match PDF_init texts with
  | Return pdf =>
      page_numbers pdf = length texts
      ∧ sif_page pdf < page_numbers pdf
      ∧ (∃ t, texts !! sif_page pdf = Some t
              ∧ Py.contains "Service Inspection Form" t = true)
      ∧ (∀ j t, j < sif_page pdf → texts !! j = Some t →
           Py.contains "Service Inspection Form" t = false)
      ∧ ∃ first_page, texts !! 0 = Some first_page
          ∧ header_informations pdf = get_header_informations first_page
  | Throw e =>
      (texts = [] ∧ e = IndexError)
      ∨ (Forall (λ t, Py.contains "Service Inspection Form" t = false) texts
         ∧ ∃ msg, e = ValueError msg)
  end.
Proof.
  unfold PDF_init, _get_sif_page.
  destruct texts as [|first rest] eqn:Et; [by left|]. rewrite <- Et.
  assert (H0 : texts !! 0 = Some first) by (by subst).
  rewrite H0.
  destruct (first_form_page 0 texts) as [n|] eqn:E.
  - apply first_form_page_Some in E as (i & t & -> & Hi & Ht & Hmin).
    simpl. split; [done|]. split; [by eapply lookup_lt_Some|].
    split; [eauto|]. split; [done|]. eauto.
  - right. split; [by eapply first_form_page_None|eauto].
Qed.

(** ** The values of the header informations *)

Lemma rstrip_cons c t :
  Py.rstrip (String c t)
  = match Py.rstrip t with
    | "" => if Py.isspace c then "" else String c ""
    | r => String c r
    end.
Proof. reflexivity. Qed.

Lemma rstrip_idemp s : Py.rstrip (Py.rstrip s) = Py.rstrip s.
Proof.
  induction s as [|c t IH]; [done|]. rewrite rstrip_cons.
  destruct (Py.rstrip t) as [|y r] eqn:E.
  - destruct (Py.isspace c) eqn:Hc; [done|]. simpl. by rewrite Hc.
  - rewrite rstrip_cons, IH. done.
Qed.

Lemma lstrip_head s :
  Py.lstrip s = ""
  ∨ ∃ c t, Py.lstrip s = String c t ∧ Py.isspace c = false.
Proof.
  induction s as [|c t IH]; [by left|]. simpl.
  destruct (Py.isspace c) eqn:Hc; [done|]. right. eauto.
Qed.

Lemma rstrip_head c t :
  Py.isspace c = false → ∃ r, Py.rstrip (String c t) = String c r.
Proof.
  intros Hc. rewrite rstrip_cons. destruct (Py.rstrip t); [rewrite Hc|]; eauto.
Qed.

(** [strip] is idempotent. *)
Lemma strip_idemp s : Py.strip (Py.strip s) = Py.strip s.
Proof.
  unfold Py.strip.
  destruct (lstrip_head s) as [->|(c & t & -> & Hc)]; [done|].
  destruct (rstrip_head c t Hc) as [r Hr]. rewrite Hr.
  cbn [Py.lstrip]. rewrite Hc, <- Hr. apply rstrip_idemp.
Qed.

Lemma header_lookups first_page :
  let h := get_header_informations first_page in
  h !! "turbine_number"
    = Some (hstr (search_group1 turbine_number_re first_page))
  ∧ h !! "service_order"
    = Some (hstr (search_group1 service_order_re first_page))
  ∧ h !! "pad_no"
    = Some (hstr (Py.strip <$> search_group1 pad_no_re first_page))
  ∧ h !! "date_and_time_of_receipt"
    = Some (hstr (Py.strip <$> search_group1 receipt_re first_page))
  ∧ h !! "customer_address"
    = Some (match search_group1 customer_address_re first_page with
            | Some g => HList (stripped_lines g)
            | None => HNone
            end).
Proof.
  unfold get_header_informations. cbv zeta.
  repeat split;
    repeat (rewrite lookup_insert_ne by done); by rewrite lookup_insert_eq.
Qed.

Lemma search_group1_digits ps text s :
  search_group1 (Re.seqs (ps ++ [Re.Group 1 (Re.plus Re.digit)])) text = Some s →
  digits s.
Proof.
  unfold search_group1. destruct (Re.search _ text) as [m|] eqn:Hm; [|done].
  apply search_last_group in Hm as (w & Hw & R%reads_plus_digit).
  simpl. rewrite Hw. by intros [= <-].
Qed.

(** X21: in the header informations, "turbine_number" and "service_order"
    are [None] or non-empty strings of decimal digits. *)
Theorem header_numbers first_page key s :
  key ∈ ["turbine_number"; "service_order"] →
  get_header_informations first_page !! key = Some (HStr s) →
  digits s.
Proof.
  destruct (header_lookups first_page) as (Ht & Hs & _).
  intros [->|[->|[]%elem_of_nil]%elem_of_cons]%elem_of_cons.
  - rewrite Ht. intros [= H].
    destruct (search_group1 turbine_number_re first_page) as [g|] eqn:E;
      [|done].
    injection H as <-.
    by apply (search_group1_digits
                [Re.lit "Turbine No./Id:"; Re.star Re.space] first_page).
  - rewrite Hs. intros [= H].
    destruct (search_group1 service_order_re first_page) as [g|] eqn:E;
      [|done].
    injection H as <-.
    by apply (search_group1_digits
                [Re.lit "Service Order:"; Re.star Re.space] first_page).
Qed.

Lemma header_numbers_witness : digits "12345".
Proof.
  apply (header_numbers "Turbine No./Id: 12345" "turbine_number").
  - apply list_elem_of_here.
  - vm_compute. reflexivity.
Defined.

(** X22: "pad_no" and "date_and_time_of_receipt" carry no white space at
    their ends, and "customer_address" is a list of lines that are not
    empty and carry no white space at their ends. *)
Theorem header_stripped first_page :
  (∀ key s, key ∈ ["pad_no"; "date_and_time_of_receipt"] →
     get_header_informations first_page !! key = Some (HStr s) →
     Py.strip s = s)
  ∧ ∀ lines,
      get_header_informations first_page !! "customer_address"
        = Some (HList lines) →
      Forall (λ line, line ≠ "" ∧ Py.strip line = line) lines.
Proof.
  destruct (header_lookups first_page) as (_ & _ & Hp & Hr & Hc). split.
  - intros key s [->|[->|[]%elem_of_nil]%elem_of_cons]%elem_of_cons.
    + rewrite Hp. destruct (search_group1 pad_no_re first_page); [|done].
      intros [= <-]. apply strip_idemp.
    + rewrite Hr. destruct (search_group1 receipt_re first_page); [|done].
      intros [= <-]. apply strip_idemp.
  - intros lines. rewrite Hc.
    destruct (search_group1 customer_address_re first_page) as [g|]; [|done].
    intros [= <-]. unfold stripped_lines.
    apply Forall_forall. intros line [Ht Hin]%list_elem_of_filter.
    apply list_elem_of_fmap in Hin as (l & -> & _).
    split; [by apply truthy_iff|apply strip_idemp].
Qed.

(** ** What status extraction removes *)

Lemma endswith_inv s p : Py.endswith s p = true → ∃ u, s = u +:+ p.
Proof.
  induction s as [|c s IH].
  - rewrite endswith_nil. intros <-%String.eqb_eq. by exists "".
  - rewrite endswith_cons. intros [<-%String.eqb_eq|H]%orb_true_iff.
    + by exists "".
    + destruct (IH H) as [u ->]. by exists (String c u).
Qed.

Lemma drop_end_app u p : Py.drop_end (String.length p) (u +:+ p) = u.
Proof.
  unfold Py.drop_end, Py.take. rewrite length_app_s.
  replace (String.length u + String.length p - String.length p)
    with (String.length u) by lia.
  apply (substring_app_middle "" u p).
Qed.

Lemma length_lstrip s : String.length (Py.lstrip s) ≤ String.length s.
Proof.
  induction s as [|c t IH]; [done|]. cbn [Py.lstrip].
  destruct (Py.isspace c); simpl; lia.
Qed.

Lemma length_rstrip s : String.length (Py.rstrip s) ≤ String.length s.
Proof.
  induction s as [|c t IH]; [done|]. rewrite rstrip_cons.
  destruct (Py.rstrip t); [destruct (Py.isspace c)|]; simpl in *; lia.
Qed.

Lemma length_strip s : String.length (Py.strip s) ≤ String.length s.
Proof.
  unfold Py.strip. pose proof (length_rstrip (Py.lstrip s)).
  pose proof (length_lstrip s). lia.
Qed.

(** What the status loop does when it finds a status. *)
Lemma strip_status_Some text t s :
  strip_status text = (t, Some s) →
  ∃ u p, p ∈ ["OK"; "N/A"; "Not Applicable"]
         ∧ text = u +:+ p ∧ t = Py.strip u ∧ s = Py.upper p.
Proof.
  unfold strip_status, status_patterns, strip_status_with.
  destruct (Py.endswith text "OK") eqn:HOK.
  { apply endswith_inv in HOK as [u ->]. rewrite drop_end_app.
    intros [= <- <-]. exists u, "OK". split; [set_solver|done]. }
  destruct (Py.endswith text "NOT OK") eqn:H1.
  { apply (endswith_app text "NOT " "OK") in H1. congruence. }
  destruct (Py.endswith text "NOK") eqn:H2.
  { apply (endswith_app text "N" "OK") in H2. congruence. }
  destruct (Py.endswith text "N/A") eqn:H3.
  { apply endswith_inv in H3 as [u ->]. rewrite drop_end_app.
    intros [= <- <-]. exists u, "N/A". split; [set_solver|done]. }
  destruct (Py.endswith text "Not Applicable") eqn:H4; [|done].
  apply endswith_inv in H4 as [u ->]. rewrite drop_end_app.
  intros [= <- <-]. exists u, "Not Applicable". split; [set_solver|done].
Qed.

(** X23: when the status loop finds a status, the text ended with one of
    the tokens "OK", "N/A" and "Not Applicable"; what is returned is the
    text before the token, stripped, and the token in upper case. *)
Theorem strip_status_removes_token text t s :
  strip_status text = (t, Some s) →
  ∃ u p, p ∈ ["OK"; "N/A"; "Not Applicable"]
         ∧ text = u +:+ p ∧ t = Py.strip u ∧ s = Py.upper p.
Proof. apply strip_status_Some. Qed.

Lemma strip_status_removes_token_witness :
  ∃ u p, p ∈ ["OK"; "N/A"; "Not Applicable"]
         ∧ "Check bolt N/A" = u +:+ p ∧ "Check bolt" = Py.strip u
         ∧ "N/A" = Py.upper p.
Proof.
  apply (strip_status_removes_token "Check bolt N/A" "Check bolt" "N/A").
  vm_compute. reflexivity.
Defined.

(** ** Status extraction twice *)




(** X24: a document without table rows is never refused, and its items
    come in the order in which the text first showed their numbers. *)
Theorem text_only_order pdf :
  all_rows pdf = [] →
  ∃ items, extract_inspection_table pdf = Ok items
           ∧ numbers items = first_seen (text_lines pdf).
Proof.
  intros Hrows. unfold extract_inspection_table.
  destruct (text_pass_ok pdf initial_state [] wf_initial eq_refl)
    as (st1 & -> & _ & Hv). simpl.
  rewrite table_pass_flat, Hrows. simpl.
  eexists. split; [done|]. by rewrite flush_numbers.
Qed.

Lemma text_only_order_witness :
  ∃ items,
    extract_inspection_table
      [MkPage ("2.01 Hub OK" +:+ String "010" "1.01 Tower"
               +:+ String "010" "2.01 again") []] = Ok items
    ∧ numbers items
      = first_seen
          (text_lines
             [MkPage ("2.01 Hub OK" +:+ String "010" "1.01 Tower"
                      +:+ String "010" "2.01 again") []]).
Proof.
  apply text_only_order. reflexivity.
Defined.

(** ** Detections, one by one *)

Lemma parsed_Some line num desc cmt sts :
  parsed line = Some (num, desc, cmt, sts) →
  Py.truthy (Py.strip line) = true
  ∧ Py.contains "Service Inspection Form" line || Py.contains "0. DMS:" line
    = false
  ∧ ∃ m, Re.rmatch item_number_pattern line = Some m
         ∧ parse_item m = Ok (num, desc, cmt, sts).
Proof.
  unfold parsed.
  destruct (Py.truthy (Py.strip line)); [|done]. simpl.
  destruct (Py.contains _ _ || Py.contains _ _); [done|].
  destruct (Re.rmatch item_number_pattern line) as [m|]; [|done].
  destruct (parse_item m) as [r|] eqn:E; [|done].
  intros [= ->]. eauto.
Qed.

Lemma parsed_detected line num desc cmt sts :
  parsed line = Some (num, desc, cmt, sts) → detected_number line = Some num.
Proof.
  intros (Hb & Hm & m & Hr & Hp)%parsed_Some.
  unfold detected_number, shown. rewrite Hb, Hm, Hr. simpl.
  destruct (parse_item_ok _ _ Hr) as (g1 & d & c & s & -> & _ & Hp').
  rewrite Hp in Hp'. by injection Hp' as -> _ _ _.
Qed.

Lemma parsed_None line :
  parsed line = None →
  Py.truthy (Py.strip line) = false
  ∨ Py.contains "Service Inspection Form" line || Py.contains "0. DMS:" line
    = true
  ∨ Re.rmatch item_number_pattern line = None.
Proof.
  unfold parsed.
  destruct (Py.truthy (Py.strip line)); [|auto]. simpl.
  destruct (Py.contains _ _ || Py.contains _ _); [auto|].
  destruct (Re.rmatch item_number_pattern line) as [m|] eqn:Hm; [|auto].
  destruct (parse_item_ok _ _ Hm) as (g1 & d & c & s & _ & _ & ->). done.
Qed.

(** The merge loop, entry by entry. *)
Lemma merge_items_spec num desc cmt items :
  Forall (λ item, is_Some (description item)) items →
  merge_items num desc cmt items = Ok (update_entry num desc cmt <$> items).
Proof.
  induction 1 as [|item items [d Hd] _ IH]; [done|].
  cbn [merge_items]. rewrite IH.
  assert (Hi : merge_item num desc cmt item
               = Ok (update_entry num desc cmt item)).
  { unfold merge_item, update_entry.
    destruct (String.eqb_spec (item_number item) num) as [Heq|Hne].
    - rewrite decide_True by done. rewrite Hd. simpl.
      unfold detected_again. rewrite Hd. simpl. do 2 f_equal.
      destruct cmt as [c|]; [|done]. simpl.
      destruct (Py.truthy c); [|done].
      destruct (comment item) as [c0|]; [|done]. simpl.
      by destruct (Py.truthy c0).
    - by rewrite decide_False. }
  rewrite Hi. done.
Qed.

(** What a line of text does to the collection. *)
Lemma text_line_items st line :
  wf st →
  ∃ st', text_line st line = Ok st' ∧ wf st'
    ∧ match parsed line with
      | None => inspection_items st' = inspection_items st
      | Some (num, desc, cmt, sts) =>
          current_item_number st' = Some num
          ∧ if decide (num ∈ items_seen (flush st))
            then inspection_items st'
                 = update_entry num desc cmt <$> inspection_items (flush st)
            else inspection_items st'
                 = inspection_items (flush st)
                   ++ (if Py.truthy sts
                       then [MkItem num (Some desc) cmt sts] else [])
      end.
Proof.
  intros Hwf.
  destruct (text_line_ok st line Hwf) as (st' & Hst' & Hwf' & _).
  exists st'. split; [done|]. split; [done|].
  destruct (parsed line) as [[[[num desc] cmt] sts]|] eqn:Hp.
  - apply parsed_Some in Hp as (Hb & Hm & m & Hr & Hp).
    unfold text_line in Hst'. rewrite Hb, Hm in Hst'. simpl in Hst'.
    destruct (PatternFacts.item_pattern_line _ _ Hr) as [x Hx].
    unfold is_continuation in Hst'. rewrite Hx in Hst'.
    rewrite (bool_decide_true (is_Some (Some x))) in Hst' by eauto.
    rewrite andb_false_r in Hst'. unfold item_line in Hst'.
    rewrite Hr, Hp in Hst'. simpl in Hst'.
    destruct (decide (num ∈ items_seen (flush st))) as [Hin|Hin].
    + rewrite (bool_decide_true _ Hin) in Hst'.
      rewrite merge_items_spec in Hst' by apply (wf_desc _ (flush_wf _ Hwf)).
      simpl in Hst'. by injection Hst' as <-.
    + rewrite (bool_decide_false _ Hin) in Hst'.
      destruct (Py.truthy sts); injection Hst' as <-; simpl;
        by rewrite ?app_nil_r.
  - apply parsed_None in Hp. unfold text_line in Hst'.
    destruct Hp as [Hp|[Hp|Hp]].
    + rewrite Hp in Hst'. simpl in Hst'. by injection Hst' as <-.
    + destruct (negb _); [by injection Hst' as <-|].
      rewrite Hp in Hst'. by injection Hst' as <-.
    + destruct (negb _); [by injection Hst' as <-|].
      destruct (_ || _); [by injection Hst' as <-|].
      destruct (is_continuation st line) eqn:Hc.
      * apply is_continuation_true in Hc as [Hcur _].
        destruct (continuation_line_ok st line (wf_open _ Hwf Hcur)
                    (otruthy_is_Some _)) as (st2 & Hst2 & Hi & _).
        rewrite Hst2 in Hst'. by injection Hst' as <-.
      * unfold item_line in Hst'. rewrite Hp in Hst'.
        by injection Hst' as <-.
Qed.

(** What a row of a table does to the collection. *)
Lemma table_row_number st row st' :
  table_row st row = Ok st' →
  items_seen st ⊆ items_seen st'
  ∧ match row_number row with
    | None => inspection_items st' = inspection_items st
    | Some n =>
        n ∈ items_seen st'
        ∧ if decide (n ∈ items_seen st)
          then inspection_items st' = inspection_items st
          else ∃ item, item_number item = n
                       ∧ inspection_items st' = inspection_items st ++ [item]
    end.
Proof.
  unfold table_row, row_number.
  destruct row as [|first [|second others]];
    try (intros [= <-]; split; [set_solver|done]).
  destruct (Py.otruthy first); simpl;
    [|intros [= <-]; split; [set_solver|done]].
  destruct (Re.rmatch cell_number_pattern _) as [m|] eqn:Hm.
  2: { rewrite bool_decide_false by (by intros [? ?]).
       intros [= <-]. split; [set_solver|done]. }
  rewrite (bool_decide_true (is_Some (Some m))) by eauto.
  destruct (table_split_comment second) as [desc cmt].
  intros (d & _ & H)%bind_Ok.
  destruct (strip_status d) as [d' found].
  apply bind_Ok in H as (sts & _ & H).
  set (num := Py.strip (default "" first)) in *.
  destruct (decide (num ∈ items_seen st)) as [Hin|Hin].
  - rewrite (bool_decide_true _ Hin) in H. injection H as <-. simpl.
    split; [set_solver|done].
  - rewrite (bool_decide_false _ Hin) in H. injection H as <-. simpl.
    split; [set_solver|]. split; [set_solver|].
    by eexists (MkItem _ _ _ _).
Qed.

Lemma table_rows_seen rows : ∀ st st',
  for_each table_row st rows = Ok st' →
  items_seen st ⊆ items_seen st'
  ∧ ∀ row n, row ∈ rows → row_number row = Some n → n ∈ items_seen st'.
Proof.
  induction rows as [|r rows IH]; intros st st'; cbn [for_each].
  - intros [= <-]. split; [done|]. intros row n Hrow.
    by apply elem_of_nil in Hrow.
  - intros (st1 & H1 & H2)%bind_Ok.
    apply table_row_number in H1 as [Hsub1 Hr].
    destruct (IH _ _ H2) as [Hsub2 Hall].
    split; [set_solver|].
    intros row n [->|Hrow]%elem_of_cons Hn; [|by eapply Hall].
    rewrite Hn in Hr. destruct Hr as [Hin _]. set_solver.
Qed.

Lemma table_rows_wf rows : ∀ st st',
  wf st → for_each table_row st rows = Ok st' → wf st'.
Proof.
  intros st st' Hwf. apply (for_each_inv wf); [|done].
  intros s row s' Hs Hrow.
  by destruct (table_row_step s s row s' [] Hs (recovered_refl _) Hrow).
Qed.

Lemma flush_prefix st :
  inspection_items st `prefix_of` inspection_items (flush st).
Proof. rewrite flush_items. by eexists. Qed.

(** The two passes of a run that returns. *)
Lemma extract_passes pdf items :
  extract_inspection_table pdf = Ok items →
  ∃ st1 st2,
    for_each text_line initial_state (text_lines pdf) = Ok st1 ∧ wf st1
    ∧ numbers (inspection_items st1) ++ pending st1
      = first_seen (text_lines pdf)
    ∧ for_each table_row st1 (all_rows pdf) = Ok st2 ∧ wf st2
    ∧ items = inspection_items (flush st2).
Proof.
  unfold extract_inspection_table. rewrite text_pass_flat.
  destruct (text_lines_ok (text_lines pdf) initial_state [] wf_initial eq_refl)
    as (st1 & -> & Hwf1 & Hv1). simpl. rewrite table_pass_flat.
  intros (st2 & Hst2 & [= <-])%bind_Ok.
  exists st1, st2. repeat (split; [done|]).
  split; [by eapply table_rows_wf|done].
Qed.



(** ** An item committed when it is opened *)

Lemma item_number_later_line num e line :
  item_number (later_line num e line) = item_number e.
Proof.
  unfold later_line.
  destruct (parsed line) as [[[[n d] c] s]|]; [|done].
  by destruct (decide (n = num)).
Qed.

(** A committed entry stays where it is, and a line changes it as
    [later_line] says. *)
Lemma entry_kept_by_line k num e st line :
  wf st → inspection_items st !! k = Some e → item_number e = num →
  ∃ st', text_line st line = Ok st' ∧ wf st'
         ∧ inspection_items st' !! k = Some (later_line num e line).
Proof.
  intros Hwf Hk He.
  destruct (text_line_items st line Hwf) as (st' & Hst' & Hwf' & Hitems).
  exists st'. split; [done|]. split; [done|].
  assert (Hkf : inspection_items (flush st) !! k = Some e).
  { rewrite flush_items. by apply lookup_app_l_Some. }
  unfold later_line.
  destruct (parsed line) as [[[[n d] c] s]|]; [|by rewrite Hitems].
  destruct Hitems as [_ Hitems].
  destruct (decide (n ∈ items_seen (flush st))) as [Hin|Hin].
  - rewrite Hitems, list_lookup_fmap, Hkf. simpl. unfold update_entry.
    rewrite He. destruct (decide (n = num)) as [->|Hne].
    + by rewrite decide_True.
    + by rewrite decide_False.
  - assert (Hne : n ≠ num).
    { intros ->. apply Hin, (wf_seen _ (flush_wf _ Hwf)).
      apply list_elem_of_fmap. exists e. split; [done|].
      by eapply list_elem_of_lookup_2. }
    rewrite decide_False by done. rewrite Hitems.
    by apply lookup_app_l_Some.
Qed.

Lemma entry_kept_by_lines k num lines : ∀ e st,
  wf st → inspection_items st !! k = Some e → item_number e = num →
  ∃ st', for_each text_line st lines = Ok st' ∧ wf st'
         ∧ inspection_items st' !! k = Some (foldl (later_line num) e lines).
Proof.
  induction lines as [|line lines IH]; intros e st Hwf Hk He;
    cbn [for_each foldl].
  - eauto.
  - destruct (entry_kept_by_line k num e st line Hwf Hk He)
      as (st1 & -> & Hwf1 & Hk1). simpl.
    apply IH; [done|done|]. by rewrite item_number_later_line.
Qed.

(** Lines that open no item leave the collection as it is. *)
Lemma lines_without_number lines : ∀ st,
  wf st → Forall (λ l, parsed l = None) lines →
  ∃ st', for_each text_line st lines = Ok st' ∧ wf st'
         ∧ inspection_items st' = inspection_items st.
Proof.
  induction lines as [|line lines IH]; intros st Hwf Hall; cbn [for_each].
  - eauto.
  - apply Forall_cons in Hall as [Hl Hall].
    destruct (text_line_items st line Hwf) as (st1 & -> & Hwf1 & Hitems).
    rewrite Hl in Hitems. simpl.
    destruct (IH st1 Hwf1 Hall) as (st' & -> & Hwf' & Hi).
    exists st'. by rewrite Hi.
Qed.

(** The table pass only appends. *)
Lemma table_rows_prefix rows : ∀ st st',
  for_each table_row st rows = Ok st' →
  inspection_items st `prefix_of` inspection_items st'.
Proof.
  induction rows as [|row rows IH]; intros st st'; cbn [for_each].
  - by intros [= <-].
  - intros (st1 & H1 & H2)%bind_Ok.
    etrans; [|by apply IH].
    apply table_row_number in H1 as [_ H1].
    destruct (row_number row) as [n|]; [|by rewrite H1].
    destruct H1 as [_ H1].
    destruct (decide (n ∈ items_seen st)); [by rewrite H1|].
    destruct H1 as (item & _ & ->). by eexists.
Qed.


